(** * Content optimisation and scheduling engine

    A shallow embedding of the engine's TypeScript sources:

    - [modules/analytics/performance-analytics.service.ts], which the
      source tree carries behind [modules/analytics/analytics.module.ts]
      ([calculateEngagementScore]),
    - [modules/seo-optimization/seo-optimization.service.ts]
      (the analysis orchestrator, its text metrics, its recommendation
      rules and its composite score),
    - [modules/seo-optimization/providers/serpapi.provider.ts]
      (the mock signal provider),
    - [modules/calendar/content-calendar.service.ts]
      (keyword ranking and the publishing schedule),
    - the production signal provider, the feed slugs and
      [common/utils/helpers.ts] (Part III).

    Conventions of the embedding.

    - A JavaScript [number] is a double.  The two scoring formulas,
      whose value depends on the rounding of every operation, are embedded
      on doubles ([Double], [Scoring]): round to nearest, ties to even,
      53 bits, subnormal numbers, overflow to the infinities, NaN.  The
      text metrics, the rankings and the reports are embedded on exact
      rationals ([JS.number]): there the rounding is abstracted, and so
      are NaN and the infinities (every division these sources perform is
      behind a guard, see [split_on_nonempty] and the [if] in front of
      each rate); what is proved on them are orders, bounds and shapes.
    - A JavaScript [string] is a [string] of code units below 256; the
      character classes of the regular expressions are written out for
      that range.
    - A [Date] is the number of the civil day in local time, counted from
      1970-01-01 as the language standard does; time zones are abstracted
      and years stay within the range of time values.
    - [try]/[catch] around an awaited promise is an exception monad over
      the mutable analysis record. *)

From Stdlib Require Import ZArith QArith Qround Qminmax Qabs Qpower Lia Lqa.
From Stdlib Require Import List String Ascii DecimalString Bool Sorted Permutation.
From Stdlib Require DecimalNat DecimalFacts.
From Stdlib Require PrimFloat FloatOps SpecFloat.
Import ListNotations.

Set Implicit Arguments.

(* ================================================================== *)
(** * Part I: the model *)
(* ================================================================== *)

(** ** The JavaScript runtime the sources rely on *)

Module JS.

Open Scope Q_scope.

(** *** Numbers *)

Definition number := Q.

(** [a < b] and [a > b] on numbers, as booleans. *)
Definition ltb (a b : number) : bool := negb (Qle_bool b a).
Definition gtb (a b : number) : bool := ltb b a.

(** [Math.round]: the nearest integer, halves towards plus infinity. *)
Definition Math_round (x : number) : number := inject_Z (Qfloor (x + (1 # 2))).

Definition Math_min (a b : number) : number := Qmin a b.
Definition Math_max (a b : number) : number := Qmax a b.

(** [x || d] on an optional number: [undefined], [null] and [0] are
    falsy. *)
Definition num_or (x : option number) (d : number) : number :=
  match x with
  | Some v => if Qeq_bool v 0 then d else v
  | None => d
  end.

(** The length of an array as a number. *)
Definition len {A} (l : list A) : number := inject_Z (Z.of_nat (List.length l)).

(** *** Strings *)

Open Scope string_scope.
Open Scope char_scope.

Definition code (c : ascii) : nat := nat_of_ascii c.

(** The class [\s] (and the white space of [trim]) below code 256:
    TAB, LF, VT, FF, CR, SPACE and NBSP. *)
Definition is_space (c : ascii) : bool :=
  let n := code c in
  ((9 <=? n) && (n <=? 13) || (n =? 32) || (n =? 160))%nat.

Definition lower_char (c : ascii) : ascii :=
  let n := code c in
  if ((65 <=? n) && (n <=? 90))%nat then ascii_of_nat (n + 32)
  else if ((192 <=? n) && (n <=? 222) && negb (n =? 215))%nat
       then ascii_of_nat (n + 32)
  else c.

Fixpoint toLowerCase (s : string) : string :=
  match s with
  | EmptyString => EmptyString
  | String c t => String (lower_char c) (toLowerCase t)
  end.

Fixpoint string_rev_onto (acc s : string) : string :=
  match s with
  | EmptyString => acc
  | String c t => string_rev_onto (String c acc) t
  end.
Definition string_rev (s : string) : string := string_rev_onto EmptyString s.

(** [s.split(re)] for a regular expression [re = [class]+]: the pieces
    between the maximal runs of characters of the class.  [cur] holds the
    piece being read, reversed; [in_sep] tells that the last character
    belonged to a separator. *)
Fixpoint split_on_from (sep : ascii -> bool) (in_sep : bool) (cur s : string)
  : list string :=
  match s with
  | EmptyString => [string_rev cur]
  | String c t =>
      if sep c then
        if in_sep then split_on_from sep true cur t
        else string_rev cur :: split_on_from sep true EmptyString t
      else split_on_from sep false (String c cur) t
  end.
Definition split_on (sep : ascii -> bool) (s : string) : list string :=
  split_on_from sep false EmptyString s.

(** [s.split(c)] for a one-character separator [c]. *)
Fixpoint split_char_from (sep : ascii) (cur s : string) : list string :=
  match s with
  | EmptyString => [string_rev cur]
  | String c t =>
      if Ascii.eqb c sep then string_rev cur :: split_char_from sep EmptyString t
      else split_char_from sep (String c cur) t
  end.
Definition split_char (sep : ascii) (s : string) : list string :=
  split_char_from sep EmptyString s.

Fixpoint trimStart (s : string) : string :=
  match s with
  | EmptyString => EmptyString
  | String c t => if is_space c then trimStart t else s
  end.
Definition trim (s : string) : string :=
  string_rev (trimStart (string_rev (trimStart s))).

(** A string is truthy when it is not empty. *)
Definition truthy (s : string) : bool :=
  match s with EmptyString => false | _ => true end.

Fixpoint startsWith (s p : string) : bool :=
  match p, s with
  | EmptyString, _ => true
  | String _ _, EmptyString => false
  | String a p', String b s' => Ascii.eqb a b && startsWith s' p'
  end.

(** [s.includes(p)]. *)
Fixpoint includes (s p : string) : bool :=
  startsWith s p ||
  match s with
  | EmptyString => false
  | String _ t => includes t p
  end.

Fixpoint filter_chars (f : ascii -> bool) (s : string) : string :=
  match s with
  | EmptyString => EmptyString
  | String c t => if f c then String c (filter_chars f t) else filter_chars f t
  end.

Fixpoint count_chars (f : ascii -> bool) (s : string) : nat :=
  match s with
  | EmptyString => O
  | String c t => if f c then S (count_chars f t) else count_chars f t
  end.

(** Decimal digits of a natural number, as [String(n)] prints them. *)
Definition nat_to_string (n : nat) : string :=
  NilZero.string_of_uint (Nat.to_uint n).

(** [x.toFixed(2)]: the integer [n] nearest to [100 x] (the larger one
    of two), printed with two decimals. *)
Definition toFixed2_abs (x : number) : string :=
  let n := Z.to_nat (Qfloor (x * 100 + (1 # 2))) in
  let frac := (n mod 100)%nat in
  (nat_to_string (n / 100) ++ "."
     ++ (if (frac <? 10)%nat then "0" else EmptyString) ++ nat_to_string frac)%string.
Definition toFixed2 (x : number) : string :=
  if ltb x 0 then ("-" ++ toFixed2_abs (- x))%string else toFixed2_abs x.

(** Every character of a string passes a test. *)
Fixpoint string_forall (f : ascii -> bool) (s : string) : bool :=
  match s with
  | EmptyString => true
  | String c t => f c && string_forall f t
  end.

(** *** Exceptions and promises *)

Inductive exn := Error (message : string).

(** A settled promise: fulfilled with a value or rejected with a reason. *)
Definition settled (A : Type) : Type := (exn + A)%type.

End JS.

(** ** Doubles (the Number type of the language standard) *)

Module Double.
Open Scope Q_scope.

(** The integer nearest to [q], the even one of two (the rounding of
    every operation on doubles). *)
Definition rne (q : Q) : Z :=
  let f := Qfloor q in
  match Qcompare (q - inject_Z f) (1 # 2) with
  | Lt => f
  | Gt => (f + 1)%Z
  | Eq => if Z.even f then f else (f + 1)%Z
  end.

(** The exponent of a positive [q]: the [k] with [2^k <= q < 2^(k+1)]. *)
Definition ilog2 (q : Q) : Z :=
  let k := (Z.log2 (Qnum q) - Z.log2 (Zpos (Qden q)))%Z in
  if Qle_bool (2 ^ k) q then k else (k - 1)%Z.

(** The exponent of the last of the 53 bits of a double near [q]; it
    stops at the exponent of the subnormal numbers. *)
Definition ulp_exp (q : Q) : Z := Z.max (ilog2 (Qabs q) - 52) (-1074).

Definition nearest (q : Q) : Q :=
  let e := ulp_exp q in inject_Z (rne (q / 2 ^ e)) * 2 ^ e.

(** The value nearest to [q] that has 53 bits, as a reduced fraction; the
    range of the exponent is not yet bounded above. *)
Definition fl (q : Q) : Q :=
  let q := Qred q in
  if Qeq_bool q 0 then 0 else Qred (nearest q).

(** A double: a finite value, an infinity or NaN.  The sign of zero is
    not kept: it shows only when a zero divides or is printed, which the
    scoring formulas do not do with a computed zero. *)
Inductive double := Finite (value : Q) | Infinity (negative : bool) | NaN.

Definition is_neg (q : Q) : bool := negb (Qle_bool 0 q).

(** The double an exact result [q] is rounded to: what reaches [2^1024]
    after rounding overflows. *)
Definition round (q : Q) : double :=
  let v := fl q in
  if Qle_bool (2 ^ 1024) (Qabs v) then Infinity (is_neg v) else Finite v.

(** A numeric literal, and the length of an array as a number. *)
Definition lit (q : Q) : double := round q.
Definition of_nat (n : nat) : double := round (inject_Z (Z.of_nat n)).

Definition neg (x : double) : double :=
  match x with
  | Finite a => Finite (- a)
  | Infinity s => Infinity (negb s)
  | NaN => NaN
  end.

(** [x + y] *)
Definition add (x y : double) : double :=
  match x, y with
  | Finite a, Finite b => round (a + b)
  | Finite _, Infinity s => Infinity s
  | Infinity s, Finite _ => Infinity s
  | Infinity s, Infinity s' => if Bool.eqb s s' then Infinity s else NaN
  | _, _ => NaN
  end.

(** [x - y] *)
Definition sub (x y : double) : double := add x (neg y).

(** [x * y] *)
Definition mul (x y : double) : double :=
  match x, y with
  | Finite a, Finite b => round (a * b)
  | Finite a, Infinity s =>
      if Qeq_bool a 0 then NaN else Infinity (xorb (is_neg a) s)
  | Infinity s, Finite b =>
      if Qeq_bool b 0 then NaN else Infinity (xorb s (is_neg b))
  | Infinity s, Infinity s' => Infinity (xorb s s')
  | _, _ => NaN
  end.

(** [x / y]; a zero divisor counts as the positive zero. *)
Definition div (x y : double) : double :=
  match x, y with
  | Finite a, Finite b =>
      if Qeq_bool b 0
      then if Qeq_bool a 0 then NaN else Infinity (is_neg a)
      else round (a / b)
  | Finite _, Infinity _ => Finite 0
  | Infinity s, Finite b => Infinity (xorb s (is_neg b))
  | _, _ => NaN
  end.

(** [x < y] and [x > y]: false as soon as one side is NaN. *)
Definition ltb (x y : double) : bool :=
  match x, y with
  | Finite a, Finite b => negb (Qle_bool b a)
  | Finite _, Infinity s => negb s
  | Infinity s, Finite _ => s
  | Infinity s, Infinity s' => s && negb s'
  | _, _ => false
  end.
Definition gtb (x y : double) : bool := ltb y x.

(** [Math.round]: the nearest integer, halves towards plus infinity. *)
Definition Math_round (x : double) : double :=
  match x with
  | Finite a => Finite (inject_Z (Qfloor (a + (1 # 2))))
  | _ => x
  end.

Definition Math_min (x y : double) : double :=
  match x, y with
  | NaN, _ | _, NaN => NaN
  | _, _ => if ltb y x then y else x
  end.

Definition Math_max (x y : double) : double :=
  match x, y with
  | NaN, _ | _, NaN => NaN
  | _, _ => if ltb x y then y else x
  end.

(** [x || d] on an optional number: [undefined], [0] and NaN are falsy. *)
Definition num_or (x : option double) (d : double) : double :=
  match x with
  | Some (Finite a) => if Qeq_bool a 0 then d else Finite a
  | Some (Infinity s) => Infinity s
  | Some NaN => d
  | None => d
  end.



End Double.

(** *** The doubles of the machine, to compare the model with *)

Module Hardware.
Import PrimFloat.
Open Scope Q_scope.

(** The value of a machine double. *)
Definition of_float (f : float) : Double.double :=
  match FloatOps.Prim2SF f with
  | SpecFloat.S754_zero _ => Double.Finite 0
  | SpecFloat.S754_infinity s => Double.Infinity s
  | SpecFloat.S754_nan => Double.NaN
  | SpecFloat.S754_finite s m e =>
      Double.Finite (Qred (inject_Z (if s then Zneg m else Zpos m) * 2 ^ e))
  end.

(** Operands the scoring formulas meet (0.1, 0.3, 57.999999999999986 and
    8.333333333333334 among them), to be combined two by two. *)
Definition samples : list float :=
  [ 0; 1; 12; 25; 100;
    0x1.999999999999ap-4; 0x1.3333333333333p-2;
    0x1.cfffffffffffep+5; 0x1.0aaaaaaaaaaabp+3;
    -2.5; 0x1.0000000000001p52 ]%float.

(** Pairs at the ends of the range: overflow, underflow to a subnormal
    number and to zero, and a tie between two subnormal numbers. *)
Definition edge_cases : list (float * float) :=
  [ (0x1.fffffffffffffp+1023, 0x1.fffffffffffffp+1023);
    (0x1.fffffffffffffp+1023, 0x1p+970);
    (0x1.fffffffffffffp+1023, 0x1p-1074);
    (0x1p-1074, 2); (0x1p-1074, 0x1.8p+0); (0x1.8p-1073, 2);
    (0x1p-1022, 0x1.0000000000001p+0); (-0x1p-1074, 0x1p-1074) ]%float.

Definition same (a b : Double.double) : bool :=
  match a, b with
  | Double.Finite p, Double.Finite q => Qeq_bool p q
  | Double.Infinity s, Double.Infinity s' => Bool.eqb s s'
  | Double.NaN, Double.NaN => true
  | _, _ => false
  end.

(** The model and the machine give the same sum, difference, product,
    quotient and comparison of [x] and [y]. *)
Definition agree (x y : float) : bool :=
  same (of_float (x + y)%float) (Double.add (of_float x) (of_float y))
  && same (of_float (x - y)%float) (Double.sub (of_float x) (of_float y))
  && same (of_float (x * y)%float) (Double.mul (of_float x) (of_float y))
  && same (of_float (x / y)%float) (Double.div (of_float x) (of_float y))
  && Bool.eqb (x <? y)%float (Double.ltb (of_float x) (of_float y)).

End Hardware.

(** ** Engagement aggregation (performance-analytics.service.ts, in
    modules/analytics/analytics.module.ts) *)

Module Analytics.
Import JS.
Open Scope Q_scope.

(** [Partial<PerformanceMetrics>]: every counter may be missing. *)
Record PerformanceMetrics := {
  views : option number;
  clicks : option number;
  shares : option number;
  comments : option number;
  conversionRate : option number
}.

(** [calculateEngagementScore] on exact rationals, for the bounds of
    Part III; [Scoring.calculateEngagementScore] is the function on
    doubles. *)
Definition calculateEngagementScore (metrics : PerformanceMetrics) : number :=
  let views := num_or (views metrics) 0 in
  let clicks := num_or (clicks metrics) 0 in
  let shares := num_or (shares metrics) 0 in
  let comments := num_or (comments metrics) 0 in
  let conversionRate := num_or (conversionRate metrics) 0 in
  let clickRate := if gtb views 0 then (clicks / views) * 100 else 0 in
  let shareRate := if gtb views 0 then (shares / views) * 100 else 0 in
  let commentRate := if gtb views 0 then (comments / views) * 100 else 0 in
  let score :=
    clickRate * 0.3 + shareRate * 0.3 + commentRate * 0.2
    + conversionRate * 100 * 0.2 in
  Math_min 100 (Math_round score).

(** The formula of the design document on exact rationals: every rate is
    [count / views * 100] when [views > 0] and [0] otherwise. *)
Definition spec_rate (count views : Q) : Q :=
  if Qlt_le_dec 0 views then count / views * 100 else 0.

Definition spec_engagement (views clicks shares comments conversionRate : Q) : Q :=
  Qmin 100
    (inject_Z
       (Qfloor
          (spec_rate clicks views * 0.3 + spec_rate shares views * 0.3
           + spec_rate comments views * 0.2 + conversionRate * 100 * 0.2
           + (1 # 2)))).

(** The sample of the design document. *)
Definition sample_metrics : PerformanceMetrics :=
  {| views := Some 100; clicks := Some 10; shares := Some 5;
     comments := Some 2; conversionRate := Some 0.1 |}.

End Analytics.

(** ** SEO analysis (seo-optimization.service.ts) *)

Module Seo.
Import JS.
Open Scope Q_scope.

(** [SEOContentAnalysis] of seo-provider.interface.ts: what the external
    signal provider answers. *)
Record SEOContentAnalysis := {
  ext_score : number;
  ext_keywordDensity : number;
  ext_readability : number;
  ext_recommendations : list string;
  ext_competitorUrls : option (list string)
}.

Record SEOAnalysis := {
  keyword : string;
  score : number;
  recommendations : list string;
  readabilityScore : number;
  keywordDensity : number;
  headingStructure : bool;
  externalData : option SEOContentAnalysis
}.

(** *** The mutable analysis record and exceptions *)

(** [ISEOProvider.analyzeContent]: any function of the content and the
    keyword to a settled promise; a time-out is a rejection. *)
Definition ISEOProvider_analyzeContent := string -> string -> settled SEOContentAnalysis.

(** Computations of the body of [analyzeContent]: they read and write the
    local object [analysis] and may throw; what was written before a throw
    stays written. *)
Definition M (A : Type) : Type := SEOAnalysis -> settled A * SEOAnalysis.

Definition ret {A} (a : A) : M A := fun s => (inr a, s).
Definition bind {A B} (m : M A) (k : A -> M B) : M B :=
  fun s => match m s with
           | (inr a, s') => k a s'
           | (inl e, s') => (inl e, s')
           end.
Definition await {A} (p : settled A) : M A := fun s => (p, s).
Definition get : M SEOAnalysis := fun s => (inr s, s).
Definition put (s : SEOAnalysis) : M unit := fun _ => (inr tt, s).
Definition try_catch {A} (body : M A) (handler : exn -> M A) : M A :=
  fun s => match body s with
           | (inr a, s') => (inr a, s')
           | (inl e, s') => handler e s'
           end.

Notation "x <- m ;; k" := (bind m (fun x => k))
  (at level 61, m at next level, right associativity).
Notation "m ;;; k" := (bind m (fun _ => k))
  (at level 61, right associativity).

(** Assignments to the fields of [analysis]. *)
Definition set_externalData (v : SEOContentAnalysis) : M unit :=
  fun a => (inr tt, {| keyword := keyword a; score := score a;
                       recommendations := recommendations a;
                       readabilityScore := readabilityScore a;
                       keywordDensity := keywordDensity a;
                       headingStructure := headingStructure a;
                       externalData := Some v |}).
Definition set_keywordDensity (v : number) : M unit :=
  fun a => (inr tt, {| keyword := keyword a; score := score a;
                       recommendations := recommendations a;
                       readabilityScore := readabilityScore a;
                       keywordDensity := v;
                       headingStructure := headingStructure a;
                       externalData := externalData a |}).
Definition set_readabilityScore (v : number) : M unit :=
  fun a => (inr tt, {| keyword := keyword a; score := score a;
                       recommendations := recommendations a;
                       readabilityScore := v;
                       keywordDensity := keywordDensity a;
                       headingStructure := headingStructure a;
                       externalData := externalData a |}).
Definition set_headingStructure (v : bool) : M unit :=
  fun a => (inr tt, {| keyword := keyword a; score := score a;
                       recommendations := recommendations a;
                       readabilityScore := readabilityScore a;
                       keywordDensity := keywordDensity a;
                       headingStructure := v;
                       externalData := externalData a |}).
Definition set_recommendations (v : list string) : M unit :=
  fun a => (inr tt, {| keyword := keyword a; score := score a;
                       recommendations := v;
                       readabilityScore := readabilityScore a;
                       keywordDensity := keywordDensity a;
                       headingStructure := headingStructure a;
                       externalData := externalData a |}).
Definition set_score (v : number) : M unit :=
  fun a => (inr tt, {| keyword := keyword a; score := v;
                       recommendations := recommendations a;
                       readabilityScore := readabilityScore a;
                       keywordDensity := keywordDensity a;
                       headingStructure := headingStructure a;
                       externalData := externalData a |}).

(** *** Text metrics *)

(** [content.split(/\s+/)] *)
Definition words_of (content : string) : list string := split_on is_space content.

Definition calculateKeywordDensity (content keyword : string) : number :=
  let words := words_of (toLowerCase content) in
  let keywordLower := toLowerCase keyword in
  let keywordCount := len (filter (fun w => includes w keywordLower) words) in
  let density := (keywordCount / len words) * 100 in
  Math_min density 3.

Definition is_letter (c : ascii) : bool :=
  ((97 <=? code c) && (code c <=? 122))%nat.

Definition is_vowel (c : ascii) : bool :=
  match c with
  | "a" | "e" | "i" | "o" | "u" => true
  | _ => false
  end%char.

Definition estimateSyllables (word : string) : number :=
  let word := filter_chars is_letter (toLowerCase word) in
  let vowels := count_chars is_vowel word in
  Math_max 1 (inject_Z (Z.of_nat vowels)).

Definition countSyllables (text : string) : number :=
  let words := words_of text in
  fold_left (fun syllableCount word => syllableCount + estimateSyllables word)
            words 0.

(** The class [[.!?]]. *)
Definition is_sentence_end (c : ascii) : bool :=
  match c with
  | "." | "!" | "?" => true
  | _ => false
  end%char.

Definition calculateReadabilityScore (content : string) : number :=
  let sentences :=
    filter (fun s => truthy (trim s)) (split_on is_sentence_end content) in
  let words := words_of content in
  let syllables := countSyllables content in
  if ((List.length sentences =? 0) || (List.length words =? 0))%nat then 0
  else
    let grade :=
      0.39 * (len words / len sentences) + 11.8 * (syllables / len words)
      - 15.59 in
    Math_max 0 (Math_min 100 (100 - grade * 5)).

(** The number of matches of [/##\s/g]: the text is read from the left, a
    match consumes its three characters. *)
Fixpoint count_h2_matches (s : string) : nat :=
  match s with
  | EmptyString => O
  | String a t =>
      match t with
      | String b (String c rest) =>
          if (Ascii.eqb a "#" && Ascii.eqb b "#" && is_space c)%char
          then S (count_h2_matches rest)
          else count_h2_matches t
      | _ => O
      end
  end.

Definition checkHeadingStructure (content : string) : bool :=
  let h2Count := count_h2_matches content in
  (2 <=? h2Count)%nat.

(** *** Recommendations and the composite score *)

Definition push (l : list string) (x : string) : list string := l ++ [x].

Definition generateRecommendations (analysis : SEOAnalysis) (content : string)
  : list string :=
  let recommendations := @nil string in
  let recommendations :=
    if ltb (keywordDensity analysis) 0.5
    then push recommendations
              ("Increase keyword density (currently "
                 ++ toFixed2 (keywordDensity analysis) ++ "%)")%string
    else recommendations in
  let recommendations :=
    if gtb (keywordDensity analysis) 3
    then push recommendations
              ("Reduce keyword stuffing (currently "
                 ++ toFixed2 (keywordDensity analysis) ++ "%)")%string
    else recommendations in
  let recommendations :=
    if ltb (readabilityScore analysis) 60
    then push recommendations "Improve readability - use shorter sentences"%string
    else recommendations in
  let recommendations :=
    if negb (headingStructure analysis)
    then push recommendations "Add proper heading structure (H2, H3 tags)"%string
    else recommendations in
  let wordCount := List.length (words_of content) in
  let recommendations :=
    if (wordCount <? 300)%nat
    then push recommendations
              ("Expand content (currently " ++ nat_to_string wordCount
                 ++ " words)")%string
    else recommendations in
  recommendations.

(** [calculateSEOScore] on exact rationals, for the orchestrator and the
    bounds; [Scoring.calculateSEOScore] is the function on doubles. *)
Definition calculateSEOScore (analysis : SEOAnalysis) : number :=
  let score := 0 in
  let score :=
    if gtb (keywordDensity analysis) 0.5 && ltb (keywordDensity analysis) 3
    then score + 25 else score + 10 in
  let score := score + (readabilityScore analysis / 100) * 25 in
  let score := score + (if headingStructure analysis then 25 else 10) in
  let recommendationPenalty := len (recommendations analysis) * 5 in
  let score := score + Math_max 0 (25 - recommendationPenalty) in
  Math_round score.

(** *** The orchestrator *)

Definition analyzeContent_body (seoProvider : ISEOProvider_analyzeContent)
  (content keyword : string) : M SEOAnalysis :=
  try_catch
    (externalAnalysis <- await (seoProvider content keyword) ;;
     set_externalData externalAnalysis ;;;
     set_keywordDensity (calculateKeywordDensity content keyword) ;;;
     set_readabilityScore (calculateReadabilityScore content) ;;;
     set_headingStructure (checkHeadingStructure content) ;;;
     analysis <- get ;;
     set_recommendations
       (ext_recommendations externalAnalysis
          ++ generateRecommendations analysis content) ;;;
     analysis <- get ;;
     set_score (calculateSEOScore analysis) ;;;
     get)
    (fun error =>
     set_keywordDensity (calculateKeywordDensity content keyword) ;;;
     set_readabilityScore (calculateReadabilityScore content) ;;;
     set_headingStructure (checkHeadingStructure content) ;;;
     analysis <- get ;;
     set_recommendations (generateRecommendations analysis content) ;;;
     analysis <- get ;;
     set_score (calculateSEOScore analysis) ;;;
     get).

(** The promise [analyzeContent] returns, settled: [inl] is a rejection. *)
Definition analyzeContent (seoProvider : ISEOProvider_analyzeContent)
  (content keyword _title : string) : settled SEOAnalysis :=
  let analysis :=
    {| keyword := keyword; score := 0; recommendations := [];
       readabilityScore := 0; keywordDensity := 0; headingStructure := false;
       externalData := None |} in
  fst (analyzeContent_body seoProvider content keyword analysis).

(** The analysis the orchestrator computes from the text alone. *)
Definition local_analysis (content keyword : string) : SEOAnalysis :=
  {| keyword := keyword; score := 0; recommendations := [];
     readabilityScore := calculateReadabilityScore content;
     keywordDensity := calculateKeywordDensity content keyword;
     headingStructure := checkHeadingStructure content;
     externalData := None |}.

(** *** Optimising a draft *)

Definition incorporateKeywordVariations (content _keyword : string) : string :=
  content.

Definition improveHeadingStructure (content : string) : string := content.

Definition optimizeContent (content keyword : string) (analysis : SEOAnalysis)
  : string :=
  let optimizedContent := content in
  let optimizedContent :=
    if ltb (keywordDensity analysis) 0.5
    then incorporateKeywordVariations optimizedContent keyword
    else optimizedContent in
  let optimizedContent :=
    if negb (headingStructure analysis)
    then improveHeadingStructure optimizedContent
    else optimizedContent in
  optimizedContent.

(** *** The provider of serpapi.provider.ts (mock answers) *)

Definition SERPAPIProvider_analyzeContent : ISEOProvider_analyzeContent :=
  fun _content _keyword =>
    inr {| ext_score := 75;
           ext_keywordDensity := 1.5;
           ext_readability := 68;
           ext_recommendations :=
             [ "Add more subheadings"%string;
               "Include keyword in first paragraph"%string;
               "Add internal links"%string ];
           ext_competitorUrls :=
             Some [ "https://example.com/competitor1"%string;
                    "https://example.com/competitor2"%string ] |}.

(** A provider whose call is rejected, as on a time-out. *)
Definition failing_provider : ISEOProvider_analyzeContent :=
  fun _ _ => inl (Error "timeout of 10000ms exceeded").

(** *** Heading structure as the design document words it *)

Definition LF : ascii := ascii_of_nat 10.

(** A second-level heading line: a line that starts with exactly two
    marker characters followed by a space. *)
Definition is_h2_line (line : string) : bool := startsWith line "## ".

Definition spec_hasHeadingStructure (text : string) : bool :=
  (2 <=? List.length (filter is_h2_line (split_char LF text)))%nat.

(** Two third-level headings and no second-level one. *)
Definition h3_only : string :=
  ("### Intro" ++ String LF "### Details")%string.

(** Markers inside a line of prose. *)
Definition inline_markers : string := "a ## b ## c".

(** *** The score of the design document, on exact rationals *)

Definition spec_density_points (density : Q) : Q :=
  if Qlt_le_dec (1 # 2) density then
    if Qlt_le_dec density 3 then 25 else 10
  else 10.

Definition spec_score (density readability : Q) (heading : bool)
  (numberOfRecommendations : nat) : Q :=
  inject_Z
    (Qfloor
       (spec_density_points density
        + readability / 100 * 25
        + (if heading then 25 else 10)
        + Qmax 0 (25 - 5 * inject_Z (Z.of_nat numberOfRecommendations))
        + (1 # 2))).

End Seo.

(** ** The two scoring formulas on doubles

    The value of [calculateEngagementScore] and of [calculateSEOScore]
    depends on the rounding of every operation, so both are embedded on
    doubles here, operation by operation, in the order the language
    evaluates them. *)

Module Scoring.
Import Double.
Open Scope Q_scope.

(** [Partial<PerformanceMetrics>]: every counter may be missing. *)
Record PerformanceMetrics := {
  views : option double;
  clicks : option double;
  shares : option double;
  comments : option double;
  conversionRate : option double
}.

Definition calculateEngagementScore (metrics : PerformanceMetrics) : double :=
  let views := num_or (views metrics) (Finite 0) in
  let clicks := num_or (clicks metrics) (Finite 0) in
  let shares := num_or (shares metrics) (Finite 0) in
  let comments := num_or (comments metrics) (Finite 0) in
  let conversionRate := num_or (conversionRate metrics) (Finite 0) in
  let clickRate :=
    if gtb views (Finite 0) then mul (div clicks views) (Finite 100)
    else Finite 0 in
  let shareRate :=
    if gtb views (Finite 0) then mul (div shares views) (Finite 100)
    else Finite 0 in
  let commentRate :=
    if gtb views (Finite 0) then mul (div comments views) (Finite 100)
    else Finite 0 in
  let score :=
    add (add (add (mul clickRate (lit 0.3)) (mul shareRate (lit 0.3)))
             (mul commentRate (lit 0.2)))
        (mul (mul conversionRate (Finite 100)) (lit 0.2)) in
  Math_min (Finite 100) (Math_round score).

(** The formula of the design document, written from its words and read
    on doubles from left to right: every rate is [count / views * 100]
    when [views > 0] and [0] otherwise. *)
Definition spec_rate (count views : double) : double :=
  if ltb (Finite 0) views then mul (div count views) (Finite 100) else Finite 0.

Definition spec_engagement (views clicks shares comments conversionRate : double)
  : double :=
  Math_min (Finite 100)
    (Math_round
       (add (add (add (mul (spec_rate clicks views) (lit 0.3))
                      (mul (spec_rate shares views) (lit 0.3)))
                 (mul (spec_rate comments views) (lit 0.2)))
            (mul (mul conversionRate (Finite 100)) (lit 0.2)))).

(** The sample of the design document. *)
Definition sample_metrics : PerformanceMetrics :=
  {| views := Some (Finite 100); clicks := Some (Finite 10);
     shares := Some (Finite 5); comments := Some (Finite 2);
     conversionRate := Some (lit 0.1) |}.

(** One click on twelve views: the weighted sum falls just below 2.5. *)
Definition one_click_in_twelve : PerformanceMetrics :=
  {| views := Some (Finite 12); clicks := Some (Finite 1);
     shares := Some (Finite 0); comments := Some (Finite 0);
     conversionRate := Some (Finite 0) |}.

(** [SEOContentAnalysis] and [SEOAnalysis], their numbers being doubles. *)
Record SEOContentAnalysis := {
  ext_score : double;
  ext_keywordDensity : double;
  ext_readability : double;
  ext_recommendations : list string;
  ext_competitorUrls : option (list string)
}.

Record SEOAnalysis := {
  keyword : string;
  score : double;
  recommendations : list string;
  readabilityScore : double;
  keywordDensity : double;
  headingStructure : bool;
  externalData : option SEOContentAnalysis
}.

Definition calculateSEOScore (analysis : SEOAnalysis) : double :=
  let score := Finite 0 in
  let score :=
    if gtb (keywordDensity analysis) (Finite 0.5)
       && ltb (keywordDensity analysis) (Finite 3)
    then add score (Finite 25) else add score (Finite 10) in
  let score :=
    add score (mul (div (readabilityScore analysis) (Finite 100)) (Finite 25)) in
  let score :=
    add score (if headingStructure analysis then Finite 25 else Finite 10) in
  let recommendationPenalty :=
    mul (of_nat (List.length (recommendations analysis))) (Finite 5) in
  let score :=
    add score (Math_max (Finite 0) (sub (Finite 25) recommendationPenalty)) in
  Math_round score.

(** The score of the design document, written from its words and read on
    doubles from left to right. *)
Definition spec_density_points (density : double) : double :=
  if ltb (Finite 0.5) density && ltb density (Finite 3)
  then Finite 25 else Finite 10.

Definition spec_score (density readability : double) (heading : bool)
  (numberOfRecommendations : nat) : double :=
  Math_round
    (add (add (add (spec_density_points density)
                   (mul (div readability (Finite 100)) (Finite 25)))
              (if heading then Finite 25 else Finite 10))
         (Math_max (Finite 0)
            (sub (Finite 25)
                 (mul (Finite 5) (of_nat numberOfRecommendations))))).

(** The analysis of the one-word draft [hello] for the keyword [seo], as
    the orchestrator hands it to [calculateSEOScore] after a failed
    provider call: no keyword, a readability of 57.999999999999986, no
    heading, four recommendations. *)
Definition hello_analysis : SEOAnalysis :=
  {| keyword := "seo"%string;
     score := Finite 0;
     recommendations :=
       [ "Increase keyword density (currently 0.00%)";
         "Improve readability - use shorter sentences";
         "Add proper heading structure (H2, H3 tags)";
         "Expand content (currently 1 words)" ]%string;
     readabilityScore := lit 57.999999999999986;
     keywordDensity := Finite 0;
     headingStructure := false;
     externalData := None |}.

End Scoring.

(** ** Dates (the Date object of the language standard, by civil day) *)

Module JSDate.
Open Scope Z_scope.

Definition DaysInYear (y : Z) : Z :=
  if y mod 4 =? 0 then
    if y mod 100 =? 0 then
      if y mod 400 =? 0 then 366 else 365
    else 366
  else 365.

(** The day number of the first day of year [y]. *)
Definition DayFromYear (y : Z) : Z :=
  365 * (y - 1970) + (y - 1969) / 4 - (y - 1901) / 100 + (y - 1601) / 400.

Definition InLeapYear (y : Z) : Z := if DaysInYear y =? 366 then 1 else 0.

(** The largest year whose first day is not after [d]: an estimate from
    the mean length of a year, corrected by one either way. *)
Definition YearFromDay (d : Z) : Z :=
  let y := 1970 + (400 * d) / 146097 in
  if d <? DayFromYear y then y - 1
  else if DayFromYear (y + 1) <=? d then y + 1
  else y.

Definition DayWithinYear (d : Z) : Z := d - DayFromYear (YearFromDay d).

(** The day within the year on which month [m] (0 to 11) begins. *)
Definition month_start (m leap : Z) : Z :=
  match m with
  | 0 => 0
  | 1 => 31
  | 2 => 59 + leap
  | 3 => 90 + leap
  | 4 => 120 + leap
  | 5 => 151 + leap
  | 6 => 181 + leap
  | 7 => 212 + leap
  | 8 => 243 + leap
  | 9 => 273 + leap
  | 10 => 304 + leap
  | 11 => 334 + leap
  | _ => 365 + leap
  end.

Definition MonthFromDay (d : Z) : Z :=
  let w := DayWithinYear d in
  let leap := InLeapYear (YearFromDay d) in
  if w <? 31 then 0
  else if w <? 59 + leap then 1
  else if w <? 90 + leap then 2
  else if w <? 120 + leap then 3
  else if w <? 151 + leap then 4
  else if w <? 181 + leap then 5
  else if w <? 212 + leap then 6
  else if w <? 243 + leap then 7
  else if w <? 273 + leap then 8
  else if w <? 304 + leap then 9
  else if w <? 334 + leap then 10
  else 11.

Definition DateFromDay (d : Z) : Z :=
  DayWithinYear d
  - month_start (MonthFromDay d) (InLeapYear (YearFromDay d)) + 1.

(** Sunday is 0; 1970-01-01 was a Thursday. *)
Definition WeekDay (d : Z) : Z := (d + 4) mod 7.

(** The number of days of month [m] (0 to 11). *)
Definition days_in_month (m leap : Z) : Z :=
  month_start (m + 1) leap - month_start m leap.

(** [MakeDay(year, month, date)]: months outside 0..11 carry into the
    year, the date counts on from the first of the month. *)
Definition MakeDay (year month date : Z) : Z :=
  let ym := year + month / 12 in
  let mn := month mod 12 in
  DayFromYear ym + month_start mn (InLeapYear ym) + date - 1.

(** A Date object: the day of its time value, or Invalid Date. *)
Inductive Date := ValidDate (day : Z) | InvalidDate.

(** [new Date(year, month, date)]; years 0 to 99 mean 1900 to 1999, an
    [undefined] date gives Invalid Date. *)
Definition Date_new (year month : Z) (date : option Z) : Date :=
  match date with
  | None => InvalidDate
  | Some dt =>
      let yr := if (0 <=? year) && (year <=? 99) then 1900 + year else year in
      ValidDate (MakeDay yr month dt)
  end.

(** The getters answer NaN ([None]) on Invalid Date. *)
Definition getFullYear (d : Date) : option Z :=
  match d with ValidDate t => Some (YearFromDay t) | InvalidDate => None end.
Definition getMonth (d : Date) : option Z :=
  match d with ValidDate t => Some (MonthFromDay t) | InvalidDate => None end.
Definition getDate (d : Date) : option Z :=
  match d with ValidDate t => Some (DateFromDay t) | InvalidDate => None end.
Definition getDay (d : Date) : option Z :=
  match d with ValidDate t => Some (WeekDay t) | InvalidDate => None end.

End JSDate.

(** ** The content calendar (content-calendar.service.ts) *)

Module Calendar.
Import JS JSDate.
Open Scope Q_scope.

(** A Blog Post document as the history query returns it; a field is
    [None] when it is missing (or, for the keywords, not a string). *)
Record BlogPost := {
  content_keywords : option string;
  engagement_score : option number
}.

(** [Map<string, number>]: the entries in insertion order. *)
Definition JSMap := list (string * number).

Fixpoint Map_get (m : JSMap) (k : string) : option number :=
  match m with
  | [] => None
  | (k', v) :: t => if String.eqb k' k then Some v else Map_get t k
  end.

(** [set] keeps the place of a key that is present and appends a new one. *)
Fixpoint Map_set (m : JSMap) (k : string) (v : number) : JSMap :=
  match m with
  | [] => [(k, v)]
  | (k', v') :: t =>
      if String.eqb k' k then (k', v) :: t else (k', v') :: Map_set t k v
  end.

(** [Array.prototype.sort(comparefn)], which is stable: an element moves
    behind exactly those it compares greater than. *)
Fixpoint sort_insert {A} (comparefn : A -> A -> number) (x : A) (l : list A)
  : list A :=
  match l with
  | [] => [x]
  | y :: t =>
      if gtb (comparefn x y) 0 then y :: sort_insert comparefn x t
      else x :: y :: t
  end.

Fixpoint Array_sort {A} (comparefn : A -> A -> number) (l : list A) : list A :=
  match l with
  | [] => []
  | x :: t => sort_insert comparefn x (Array_sort comparefn t)
  end.

Definition getDefaultKeywords : list string :=
  [ "sales automation"; "lead generation"; "AI content marketing";
    "SEO optimization"; "social media automation" ]%string.

(** The body of [recentPosts.forEach]. *)
Definition add_post (keywordMap : JSMap) (post : BlogPost) : JSMap :=
  match content_keywords post with
  | Some ck =>
      if truthy ck then
        let keywords := map trim (split_char ","%char ck) in
        let engagement := num_or (engagement_score post) 1 in
        fold_left
          (fun m keyword => Map_set m keyword (num_or (Map_get m keyword) 0 + engagement))
          keywords keywordMap
      else keywordMap
  | None => keywordMap
  end.

Definition rank_entries (recentPosts : list BlogPost) : JSMap :=
  Array_sort (fun a b => snd b - snd a) (fold_left add_post recentPosts []).

(** [getTopKeywordsFromHistory], given how the history query settled
    ([inl]: [getDocumentList] threw). *)
Definition getTopKeywordsFromHistory (response : settled (list BlogPost))
  : list string :=
  match response with
  | inr recentPosts => map fst (firstn 20 (rank_entries recentPosts))
  | inl _ => getDefaultKeywords
  end.

Record ContentIdea := {
  idea_keyword : string;
  idea_title : string;
  idea_description : string;
  idea_platforms : option (list string);
  idea_contentType : string
}.

Definition contentTypes : list string :=
  [ "How-to Guide"; "Case Study"; "Tips & Tricks"; "Industry News";
    "Best Practices" ]%string.

(** [l.forEach((x, index) => out.push(f x index))], from index [i] on. *)
Fixpoint mapi_from {A B} (f : A -> nat -> B) (i : nat) (l : list A) : list B :=
  match l with
  | [] => []
  | x :: t => f x i :: mapi_from f (S i) t
  end.

Definition generateContentIdeas (keywords : list string) : list ContentIdea :=
  mapi_from
    (fun keyword index =>
       let contentType :=
         nth (index mod List.length contentTypes) contentTypes "undefined"%string in
       {| idea_keyword := keyword;
          idea_title := (contentType ++ ": " ++ keyword)%string;
          idea_description := ("Comprehensive guide about " ++ keyword)%string;
          idea_platforms := Some ["blog"; "linkedin"]%string;
          idea_contentType := contentType |})
    0 keywords.

Inductive Status := scheduled | draft | seo_optimized | published.

Record ContentItem := {
  id : string;
  title : string;
  description : string;
  keywords : list string;
  publishDate : Date;
  platform : string;
  status : Status
}.

(** The days [1 .. n] the [for] loop runs through. *)
Definition days_upto (n : Z) : list Z := map Z.of_nat (seq 1 (Z.to_nat n)).

Definition is_optimal_day (month year day : Z) : bool :=
  match getDay (Date_new year (month - 1) (Some day)) with
  | Some dayOfWeek => ((2 <=? dayOfWeek) && (dayOfWeek <=? 4))%Z
  | None => false
  end.

Definition getOptimalPublishingDays (month year : Z) : list Z :=
  match getDate (Date_new year month (Some 0%Z)) with
  | Some daysInMonth => filter (is_optimal_day month year) (days_upto daysInMonth)
  | None => []
  end.

(** [s || d] on strings. *)
Definition str_or (s d : string) : string := if truthy s then s else d.

(** The items one idea contributes; [uuidv4 n] is what the [n]-th call of
    the identifier generator answers, and one call is made per item, so
    the call number is the length of the calendar so far. *)
Definition schedule_idea (uuidv4 : nat -> string) (publishingDays : list Z)
  (month year : Z) (calendar : list ContentItem) (idea : ContentIdea)
  (index : nat) : list ContentItem :=
  let publishDate :=
    Date_new year (month - 1)
      (nth_error publishingDays (index mod List.length publishingDays)) in
  let platforms :=
    match idea_platforms idea with
    | Some ps => ps
    | None => ["blog"%string]
    end in
  fold_left
    (fun calendar platform =>
       (calendar ++
       [ {| id := uuidv4 (List.length calendar);
            title := str_or (idea_title idea) EmptyString;
            description := str_or (idea_description idea) EmptyString;
            keywords := [str_or (idea_keyword idea) EmptyString];
            publishDate := publishDate;
            platform := platform;
            status := scheduled |} ])%list)
    platforms calendar.

(** [ideas.forEach((idea, index) => ...)] from index [i] on. *)
Fixpoint schedule_from (uuidv4 : nat -> string) (publishingDays : list Z)
  (month year : Z) (calendar : list ContentItem) (i : nat)
  (ideas : list ContentIdea) : list ContentItem :=
  match ideas with
  | [] => calendar
  | idea :: rest =>
      schedule_from uuidv4 publishingDays month year
        (schedule_idea uuidv4 publishingDays month year calendar idea i)
        (S i) rest
  end.

Definition createPublishingSchedule (uuidv4 : nat -> string)
  (ideas : list ContentIdea) (month year : Z) : list ContentItem :=
  let publishingDays := getOptimalPublishingDays month year in
  schedule_from uuidv4 publishingDays month year [] 0 ideas.

(** The schedule builder: ideas for the keywords, then their schedule
    (steps 2 and 3 of [generateMonthlyCalendar]). *)
Definition build (uuidv4 : nat -> string) (topKeywords : list string)
  (month year : Z) : list ContentItem :=
  createPublishingSchedule uuidv4 (generateContentIdeas topKeywords) month year.

(** *** Ranking as the design document words it *)

(** The keywords [add_post] reads off a post. *)
Definition post_keywords (post : BlogPost) : list string :=
  match content_keywords post with
  | Some ck => if truthy ck then map trim (split_char ","%char ck) else []
  | None => []
  end.

(** The weight a post gives to each of its keywords: in the words of the
    design document its engagement score, 1 when absent; in the code
    [engagement_score || 1], which is 1 also for a score of 0. *)
Definition spec_engagement_of (post : BlogPost) : Q :=
  match engagement_score post with
  | Some v => v
  | None => 1
  end.

Definition engagement_of (post : BlogPost) : Q := num_or (engagement_score post) 1.

(** Every (keyword, weight) a history contributes, in reading order. *)
Definition contributions (eng : BlogPost -> Q) (posts : list BlogPost)
  : list (string * Q) :=
  flat_map (fun post => map (fun k => (k, eng post)) (post_keywords post)) posts.

(** The sum of the weights contributed to keyword [k]. *)
Definition total_of (evs : list (string * Q)) (k : string) : Q :=
  fold_right (fun ev acc => if String.eqb (fst ev) k then snd ev + acc else acc)
             0 evs.

Definition aggregate_weight (eng : BlogPost -> Q) (posts : list BlogPost)
  (k : string) : Q :=
  total_of (contributions eng posts) k.

(** Each keyword once, in the order of first appearance. *)
Definition note_keyword (seen : list string) (k : string) : list string :=
  if existsb (String.eqb k) seen then seen else (seen ++ [k])%list.

Definition first_seen (posts : list BlogPost) : list string :=
  fold_left note_keyword (map fst (contributions engagement_of posts)) [].

(** [x] stands before [y] in [l]. *)
Definition before {A} (l : list A) (x y : A) : Prop :=
  exists l1 l2 l3, l = (l1 ++ x :: l2 ++ y :: l3)%list.

(** [x] ranks before [y]: a larger weight, or the same weight and an
    earlier place. *)
Definition ranks_by {A} (weight : A -> Q) (earlier : A -> A -> Prop) (x y : A)
  : Prop :=
  weight y < weight x \/ (weight y == weight x /\ earlier x y).

(** A keyword list in descending order of weight, ties in the order of
    [order]. *)
Definition ranked (weight : string -> Q) (order out : list string) : Prop :=
  StronglySorted (ranks_by weight (before order)) out.

(** The value a map holds for a key, 0 when it holds none. *)
Definition Map_weight (m : JSMap) (k : string) : Q :=
  match Map_get m k with
  | Some v => v
  | None => 0
  end.

(** One [keywordMap.set] of [add_post]. *)
Definition add_keyword (m : JSMap) (ev : string * Q) : JSMap :=
  Map_set m (fst ev) (num_or (Map_get m (fst ev)) 0 + snd ev).

(** *** Sample histories *)

(** The two posts of the design document. *)
Definition sample_posts : list BlogPost :=
  [ {| content_keywords := Some "a"%string; engagement_score := Some 10 |};
    {| content_keywords := Some "a,b"%string; engagement_score := Some 5 |} ].

(** A post without engagement yet, then a post with a score of 1. *)
Definition zero_score_posts : list BlogPost :=
  [ {| content_keywords := Some "a"%string; engagement_score := Some 0 |};
    {| content_keywords := Some "b"%string; engagement_score := Some 1 |} ].

Definition post_without_keywords : BlogPost :=
  {| content_keywords := None; engagement_score := Some 10 |}.

(** *** Saving the calendar and the whole generation *)

(** [String(z)] for an integer. *)
Definition Z_to_string (z : Z) : string := NilZero.string_of_int (Z.to_int z).

(** [s.padStart(2, '0')]. *)
Definition padStart2 (s : string) : string :=
  match String.length s with
  | O => "00"%string
  | S O => ("0" ++ s)%string
  | _ => s
  end.

Record CalendarEntry := {
  entry_title : string;
  entry_keyword : string;
  entry_platform : string;
  scheduled_date : Date;
  entry_status : Status
}.

Record CalendarDoc := {
  doctype : string;
  name : string;
  doc_month : Z;
  doc_year : Z;
  total_items : nat;
  content_items : list CalendarEntry
}.

(** The document [saveCalendarToERPNext] builds. *)
Definition calendarData (calendar : list ContentItem) (month year : Z)
  : CalendarDoc :=
  {| doctype := "Content Calendar"%string;
     name := (Z_to_string year ++ "-" ++ padStart2 (Z_to_string month))%string;
     doc_month := month;
     doc_year := year;
     total_items := List.length calendar;
     content_items :=
       map (fun item =>
              {| entry_title := title item;
                 entry_keyword := String.concat ","%string (keywords item);
                 entry_platform := platform item;
                 scheduled_date := publishDate item;
                 entry_status := status item |})
           calendar |}.

(** [createDocument] is how the store answers a document: [inl] when the
    request throws. *)
Definition saveCalendarToERPNext
  (createDocument : string -> CalendarDoc -> settled unit)
  (calendar : list ContentItem) (month year : Z) : settled unit :=
  createDocument "Content Calendar"%string (calendarData calendar month year).

(** [generateMonthlyCalendar], given how the history query settles and
    how the store answers. *)
Definition generateMonthlyCalendar (uuidv4 : nat -> string)
  (getDocumentList : settled (list BlogPost))
  (createDocument : string -> CalendarDoc -> settled unit)
  (month year : Z) : settled (list ContentItem) :=
  let topKeywords := getTopKeywordsFromHistory getDocumentList in
  let contentIdeas := generateContentIdeas topKeywords in
  let calendar := createPublishingSchedule uuidv4 contentIdeas month year in
  match saveCalendarToERPNext createDocument calendar month year with
  | inl error => inl error
  | inr _ => inr calendar
  end.

End Calendar.

(** ** Performance reports (performance-analytics.service.ts) *)

Module AnalyticsReports.
Import JS Calendar.
Open Scope Q_scope.

(** A Blog Post document as the reports read it. *)
Record Post := {
  post_name : string;
  content_keywords : option string;
  engagement_score : option number;
  platform : option string
}.

(** [post.engagement_score || 0]. *)
Definition score_of (post : Post) : number := num_or (engagement_score post) 0.

(** [getTopPerformingContent], given how the query settled; nothing is
    caught, so a failed query rejects it. *)
Definition getTopPerformingContent (response : settled (list Post))
  : settled (list Post) :=
  match response with
  | inr posts =>
      inr (firstn 10
             (Array_sort (fun a b => score_of b - score_of a) posts))
  | inl error => inl error
  end.

(** The body of [posts.forEach] in [extractTopKeywords]. *)
Definition add_post_keywords (keywordMap : JSMap) (post : Post) : JSMap :=
  match content_keywords post with
  | Some ck =>
      if truthy ck then
        let keywords := map trim (split_char ","%char ck) in
        fold_left
          (fun m keyword =>
             let score := score_of post in
             Map_set m keyword (num_or (Map_get m keyword) 0 + score))
          keywords keywordMap
      else keywordMap
  | None => keywordMap
  end.

Definition extractTopKeywords (posts : list Post) : list string :=
  let keywordMap := fold_left add_post_keywords posts [] in
  map fst (firstn 10 (Array_sort (fun a b => snd b - snd a) keywordMap)).

(** Every (keyword, score) the posts contribute, in reading order. *)
Definition keyword_scores (posts : list Post) : list (string * Q) :=
  flat_map
    (fun post =>
       match content_keywords post with
       | Some ck =>
           if truthy ck
           then map (fun k => (k, score_of post)) (map trim (split_char ","%char ck))
           else []
       | None => []
       end)
    posts.

(** [calculateOptimalFrequency]; the average of no post is NaN, which
    compares false with everything. *)
Definition calculateOptimalFrequency (posts : list Post) : string :=
  let totalEngagement := fold_left (fun sum p => sum + score_of p) posts 0 in
  let avgEngagement : option number :=
    match posts with
    | [] => None
    | _ => Some (totalEngagement / len posts)
    end in
  let above (bound : number) : bool :=
    match avgEngagement with
    | Some avg => gtb avg bound
    | None => false
    end in
  if above 70 then "3-4 posts per week"%string
  else if above 50 then "2-3 posts per week"%string
  else "1-2 posts per week"%string.

(** [Map<string, number[]>]: the entries in insertion order. *)
Definition ScoreMap := list (string * list number).

Fixpoint ScoreMap_get (m : ScoreMap) (k : string) : option (list number) :=
  match m with
  | [] => None
  | (k', v) :: t => if String.eqb k' k then Some v else ScoreMap_get t k
  end.

Fixpoint ScoreMap_set (m : ScoreMap) (k : string) (v : list number) : ScoreMap :=
  match m with
  | [] => [(k, v)]
  | (k', v') :: t =>
      if String.eqb k' k then (k', v) :: t else (k', v') :: ScoreMap_set t k v
  end.

(** The body of [posts.forEach] in [identifyTopPlatforms]: the score is
    pushed on the array of the platform, a fresh one for a new platform. *)
Definition add_platform_score (platformMap : ScoreMap) (post : Post) : ScoreMap :=
  match platform post with
  | Some pf =>
      if truthy pf then
        let scores :=
          match ScoreMap_get platformMap pf with
          | Some l => l
          | None => []
          end in
        let scores := (scores ++ [score_of post])%list in
        ScoreMap_set platformMap pf scores
      else platformMap
  | None => platformMap
  end.

Record PlatformReport := {
  report_platform : string;
  avgScore : number;
  totalPosts : number
}.

Definition identifyTopPlatforms (posts : list Post) : list PlatformReport :=
  let platformMap := fold_left add_platform_score posts [] in
  Array_sort (fun a b => avgScore b - avgScore a)
    (map (fun entry =>
            {| report_platform := fst entry;
               avgScore := fold_left Qplus (snd entry) 0 / len (snd entry);
               totalPosts := len (snd entry) |})
         platformMap).

(** A post counts for a platform when it names one. *)
Definition has_platform (post : Post) : bool :=
  match platform post with
  | Some pf => truthy pf
  | None => false
  end.

(** The platforms the posts name, in reading order. *)
Definition platforms_named (posts : list Post) : list string :=
  flat_map
    (fun post =>
       match platform post with
       | Some pf => if truthy pf then [pf] else []
       | None => []
       end)
    posts.

End AnalyticsReports.

(** ** Utilities (common/utils/helpers.ts) *)

Module Helpers.
Import JS.
Open Scope Q_scope.

(** [array.slice(i, j)] for [0 <= i <= j]. *)
Definition slice {T} (array : list T) (i j : nat) : list T :=
  firstn (j - i) (skipn i array).

(** The loop of [chunkArray] from index [i] on; [fuel] bounds the number
    of turns, and [None] tells that the loop has not ended within it. *)
Fixpoint chunk_loop {T} (fuel : nat) (array : list T) (size i : nat)
  (chunks : list (list T)) : option (list (list T)) :=
  if (i <? List.length array)%nat then
    match fuel with
    | O => None
    | S fuel' =>
        chunk_loop fuel' array size (i + size)
                   (chunks ++ [slice array i (i + size)])
    end
  else Some chunks.

(** [chunkArray] for a size that is a natural number; a loop that ends
    does so within [array.length] turns. *)
Definition chunkArray {T} (array : list T) (size : nat) : option (list (list T)) :=
  chunk_loop (List.length array) array size 0 [].

(** What a call of [retryWithBackoff] does: the promise it returns, and
    the delays it slept through, in order. *)
Record Retried (T : Type) := {
  outcome : settled T;
  slept : list number
}.
Arguments outcome {T} _.
Arguments slept {T} _.

(** The loop of [retryWithBackoff] at turn [i], with [remaining] turns to
    go; [fn k] is how the [k]-th call of the function settles. *)
Fixpoint retry_loop {T} (fn : nat -> settled T) (maxRetries : Z)
  (baseDelay : number) (remaining i : nat) (delays : list number)
  : Retried T :=
  match remaining with
  | O => {| outcome := inl (Error "Max retries exceeded"); slept := delays |}
  | S remaining' =>
      match fn i with
      | inr value => {| outcome := inr value; slept := delays |}
      | inl error =>
          if (Z.of_nat i =? maxRetries - 1)%Z
          then {| outcome := inl error; slept := delays |}
          else
            let delay := baseDelay * inject_Z (2 ^ Z.of_nat i) in
            retry_loop fn maxRetries baseDelay remaining' (S i)
                       (delays ++ [delay])
      end
  end.

(** [retryWithBackoff] for a whole number of retries: the loop runs while
    [i < maxRetries]. *)
Definition retryWithBackoff {T} (fn : nat -> settled T) (maxRetries : Z)
  (baseDelay : number) : Retried T :=
  retry_loop fn maxRetries baseDelay (Z.to_nat maxRetries) 0 [].

End Helpers.

(** ** The slug of a feed item (cms-feed.service.ts) *)

Module CmsFeed.
Import JS.

(** The class [\w]. *)
Definition is_word (c : ascii) : bool :=
  let n := code c in
  ((48 <=? n) && (n <=? 57) || (65 <=? n) && (n <=? 90)
   || (97 <=? n) && (n <=? 122) || (n =? 95))%nat.

Definition is_dash (c : ascii) : bool := Ascii.eqb c "-".

(** [s.replace(/[class]+/g, r)]: every maximal run of characters of the
    class becomes the one character [r]. *)
Fixpoint replace_runs (class : ascii -> bool) (r : ascii) (in_run : bool)
  (s : string) : string :=
  match s with
  | EmptyString => EmptyString
  | String c t =>
      if class c then
        if in_run then replace_runs class r true t
        else String r (replace_runs class r true t)
      else String c (replace_runs class r false t)
  end.

Definition generateSlug (title : string) : string :=
  trim
    (replace_runs is_dash "-" false
       (replace_runs is_space "-" false
          (filter_chars (fun c => is_word c || is_space c || is_dash c)
                        (toLowerCase title)))).

(** A character a slug may hold: a lower-case letter, a digit, an
    underscore or a dash. *)
Definition slug_char (c : ascii) : bool :=
  let n := code c in
  ((48 <=? n) && (n <=? 57) || (97 <=? n) && (n <=? 122) || (n =? 95)
   || (n =? 45))%nat.

(** No two neighbours of a string are both dashes. *)
Fixpoint no_double_dash (s : string) : bool :=
  match s with
  | EmptyString => true
  | String c t =>
      match t with
      | EmptyString => true
      | String d _ => negb (is_dash c && is_dash d) && no_double_dash t
      end
  end.

End CmsFeed.

(** ** The search-results provider (the production [SERPAPIProvider]) *)

Module SerpApi.
Import JS.
Open Scope Q_scope.

Record SerpApiOrganicResult := {
  link : option string;
  title : option string;
  snippet : option string
}.

(** A suggestion is a string or an object with an optional title. *)
Record SerpApiAnswerBox := {
  search_volume : option (string + number);
  cpc : option number;
  suggestions : option (list (string + option string))
}.

Record SerpApiSearchInformation := {
  total_results : option number
}.

(** [ads] is an array of unknown values: only its length is read. *)
Record SerpApiResponse := {
  organic_results : option (list SerpApiOrganicResult);
  answer_box : option SerpApiAnswerBox;
  search_information : option SerpApiSearchInformation;
  ads : option (list unit)
}.

(** [x || []] on an optional array. *)
Definition list_or {A} (x : option (list A)) : list A :=
  match x with
  | Some l => l
  | None => []
  end.

(** [x || ''] on an optional string. *)
Definition opt_str_or (x : option string) (d : string) : string :=
  match x with
  | Some v => if truthy v then v else d
  | None => d
  end.

(** [l.filter(Boolean)] on strings. *)
Definition filter_truthy (l : list string) : list string := filter truthy l.

Definition calculateDifficulty (data : SerpApiResponse) : number :=
  let resultCount :=
    num_or (match search_information data with
            | Some info => total_results info
            | None => None
            end) 0 in
  if gtb resultCount 100000000 then 85
  else if gtb resultCount 10000000 then 70
  else if gtb resultCount 1000000 then 55
  else if gtb resultCount 100000 then 40
  else 25.

Definition determineCompetition (data : SerpApiResponse) : string :=
  let ads := list_or (ads data) in
  if (5 <? List.length ads)%nat then "high"
  else if (2 <? List.length ads)%nat then "medium"
  else "low".

Definition calculateKeywordDensity (content keyword : string) : number :=
  let words := split_on is_space (toLowerCase content) in
  let keywordLower := toLowerCase keyword in
  let count := len (filter (fun w => includes w keywordLower) words) in
  Math_min ((count / len words) * 100) 5.

Definition str_length (s : string) : number :=
  inject_Z (Z.of_nat (String.length s)).

Definition calculateReadability (content : string) : number :=
  let sentences :=
    filter (fun s => truthy (trim s))
           (split_on (fun c => match c with
                               | "."%char | "!"%char | "?"%char => true
                               | _ => false
                               end) content) in
  let words := split_on is_space content in
  let avgWordLength :=
    fold_left (fun sum w => sum + str_length w) words 0 / len words in
  let avgSentenceLength := len words / Math_max (len sentences) 1 in
  let grade := 0.39 * avgSentenceLength + 11.8 * (avgWordLength / 5) - 15.59 in
  Math_max 0 (Math_min 100 (100 - grade * 5)).

(** A line terminator below code 256: LF or CR. *)
Definition is_line_terminator (c : ascii) : bool :=
  ((code c =? 10) || (code c =? 13))%nat.

(** After a first [#]: more of them, then a white space. *)
Fixpoint hashes_then_space (s : string) : bool :=
  match s with
  | EmptyString => false
  | String c t => if Ascii.eqb c "#" then hashes_then_space t else is_space c
  end.

(** [/^#+\s/m] matches somewhere in the text; [at_start] tells that the
    text begins a line. *)
Fixpoint matches_heading (at_start : bool) (s : string) : bool :=
  match s with
  | EmptyString => false
  | String c t =>
      (at_start && Ascii.eqb c "#" && hashes_then_space t)
      || matches_heading (is_line_terminator c) t
  end.

Definition generateRecommendations (content keyword : string)
  (topResults : list SerpApiOrganicResult) : list string :=
  let recommendations := @nil string in
  let keywordDensity := calculateKeywordDensity content keyword in
  let recommendations :=
    if ltb keywordDensity 0.5
    then (recommendations
            ++ [("Increase keyword density (currently "
                   ++ toFixed2 keywordDensity ++ "%)")%string])%list
    else recommendations in
  let recommendations :=
    if gtb keywordDensity 3
    then (recommendations
            ++ [("Reduce keyword stuffing (currently "
                   ++ toFixed2 keywordDensity ++ "%)")%string])%list
    else recommendations in
  let avgLength :=
    fold_left
      (fun sum r =>
         sum + match snippet r with
               | Some sn => if truthy sn then str_length sn else 0
               | None => 0
               end)
      topResults 0
    / Math_max (len topResults) 1 in
  let recommendations :=
    if ltb (str_length content) (avgLength * 0.7)
    then (recommendations ++ ["Expand content to match competitor length"%string])%list
    else recommendations in
  let recommendations :=
    if negb (matches_heading true content)
    then (recommendations ++ ["Add proper heading structure"%string])%list
    else recommendations in
  firstn 5 recommendations.

(** [analyzeContent]; [response] is how the request for the keyword
    settled, a time-out being a rejection.  The promise it returns is
    always fulfilled. *)
Definition analyzeContent (response : settled SerpApiResponse)
  (content keyword : string) : Seo.SEOContentAnalysis :=
  match response with
  | inr data =>
      let topResults := list_or (organic_results data) in
      let competitorUrls :=
        filter_truthy
          (map (fun r => opt_str_or (link r) EmptyString) (firstn 3 topResults)) in
      let keywordDensity := calculateKeywordDensity content keyword in
      let readability := calculateReadability content in
      let recommendations := generateRecommendations content keyword topResults in
      let score :=
        Math_round ((keywordDensity * 0.3 + readability * 0.4 + 50 * 0.3) / 1) in
      {| Seo.ext_score := Math_min 100 score;
         Seo.ext_keywordDensity := keywordDensity;
         Seo.ext_readability := readability;
         Seo.ext_recommendations := recommendations;
         Seo.ext_competitorUrls := Some competitorUrls |}
  | inl _ =>
      {| Seo.ext_score := 50;
         Seo.ext_keywordDensity := 0;
         Seo.ext_readability := 50;
         Seo.ext_recommendations := ["Unable to fetch competitor data"%string];
         Seo.ext_competitorUrls := Some [] |}
  end.

(** The provider as the orchestrator sees it, given how each request
    settles. *)
Definition provider (axios_get : string -> settled SerpApiResponse)
  : Seo.ISEOProvider_analyzeContent :=
  fun content keyword => inr (analyzeContent (axios_get keyword) content keyword).

Definition generateDefaultSuggestions (seed : string) : list string :=
  [ seed ++ " guide"; seed ++ " tips"; seed ++ " best practices";
    "how to " ++ seed; seed ++ " tutorial" ]%string.

Definition getKeywordSuggestions (response : settled SerpApiResponse)
  (seed : string) : list string :=
  match response with
  | inr data =>
      let suggestions :=
        filter_truthy
          (map (fun s => match s with
                         | inl str => str
                         | inr t => opt_str_or t EmptyString
                         end)
               (firstn 10
                  (list_or (match answer_box data with
                            | Some box => suggestions box
                            | None => None
                            end)))) in
      if (0 <? List.length suggestions)%nat then suggestions
      else generateDefaultSuggestions seed
  | inl _ => generateDefaultSuggestions seed
  end.

Definition estimateAuthority (rank : number) : number :=
  Math_max 20 (100 - rank * 15).

Record Competitor := {
  url : string;
  rank : number;
  c_title : string;
  c_snippet : string;
  authority : number
}.

(** The [topCompetitors] of [getCompetitorAnalysis]. *)
Definition getCompetitorAnalysis (response : settled SerpApiResponse)
  : list Competitor :=
  match response with
  | inr data =>
      let organicResults := list_or (organic_results data) in
      filter (fun r => truthy (url r))
        (Calendar.mapi_from
           (fun r rank =>
              {| url := opt_str_or (link r) EmptyString;
                 rank := inject_Z (Z.of_nat rank) + 1;
                 c_title := opt_str_or (title r) EmptyString;
                 c_snippet := opt_str_or (snippet r) EmptyString;
                 authority := estimateAuthority (inject_Z (Z.of_nat rank)) |})
           0 (firstn 5 organicResults))
  | inl _ => []
  end.

End SerpApi.

(* ================================================================== *)
(** * Part II: the properties *)
(* ================================================================== *)

Import JS.

Unset Implicit Arguments.

(** ** Numbers *)

Section Numbers.
Open Scope Q_scope.

Lemma ltb_true (a b : Q) : ltb a b = true <-> a < b.
Proof.
  unfold ltb. rewrite negb_true_iff, <- not_true_iff_false, Qle_bool_iff.
  split; [apply Qnot_le_lt | apply Qlt_not_le].
Qed.

Lemma ltb_false (a b : Q) : ltb a b = false <-> b <= a.
Proof.
  unfold ltb. rewrite negb_false_iff. apply Qle_bool_iff.
Qed.

Lemma gtb_true (a b : Q) : gtb a b = true <-> b < a.
Proof. apply ltb_true. Qed.

Lemma gtb_false (a b : Q) : gtb a b = false <-> a <= b.
Proof. apply ltb_false. Qed.

Lemma num_or_some (v d : Q) : v == 0 \/ num_or (Some v) d = v.
Proof.
  simpl. destruct (Qeq_bool v 0) eqn:E; [left | now right].
  now apply Qeq_bool_iff.
Qed.

Lemma num_or_zero (v : Q) : num_or (Some v) 0 == v.
Proof.
  simpl. destruct (Qeq_bool v 0) eqn:E; [| reflexivity].
  apply Qeq_bool_iff in E. now rewrite E.
Qed.

Lemma Math_round_comp (x y : Q) : x == y -> Math_round x = Math_round y.
Proof.
  intros E. unfold Math_round. f_equal. apply Qfloor_comp. now rewrite E.
Qed.

Lemma Math_round_lower (z : Z) (x : Q) : inject_Z z <= x -> inject_Z z <= Math_round x.
Proof.
  intros H. unfold Math_round. rewrite <- Zle_Qle.
  rewrite <- (Qfloor_Z z). apply Qfloor_resp_le. lra.
Qed.

Lemma Math_round_upper (z : Z) (x : Q) : x <= inject_Z z -> Math_round x <= inject_Z z.
Proof.
  intros H. unfold Math_round. rewrite <- Zle_Qle.
  assert (L : inject_Z (Qfloor (x + (1 # 2))) < inject_Z (z + 1)).
  { apply Qle_lt_trans with (x + (1 # 2)); [apply Qfloor_le |].
    rewrite inject_Z_plus. change (inject_Z 1) with 1. lra. }
  rewrite <- Zlt_Qlt in L. lia.
Qed.

Lemma len_nonneg {A} (l : list A) : 0 <= len l.
Proof.
  unfold len. change 0 with (inject_Z 0). rewrite <- Zle_Qle. lia.
Qed.

End Numbers.

(** ** Doubles *)

Section DoubleArithmetic.
Import Double.
Open Scope Q_scope.




































(** On the sample operands the model computes what the machine computes:
    every sum, difference, product, quotient and comparison of two of
    them, and of the pairs at the ends of the range. *)
Lemma arithmetic_agrees_with_hardware :
  forallb (fun x => forallb (Hardware.agree x) Hardware.samples)
          Hardware.samples = true
  /\ forallb (fun p => Hardware.agree (fst p) (snd p) && Hardware.agree (snd p) (fst p))
             Hardware.edge_cases = true.
Proof. split; vm_compute; reflexivity. Qed.

End DoubleArithmetic.

(** ** Engagement aggregation *)

Section EngagementScore.
Import Double Scoring.
Open Scope Q_scope.




(** The rounding of each operation shows in the score: for one click on
    twelve views the rate 1/12*100 is rounded to 8.333333333333334 and
    its product with 0.3 to 2.4999999999999996, so the score is 2; the
    same formula on exact rationals gives the sum 2.5 and the score 3. *)
Lemma calculateEngagementScore_rounds_each_step :
  mul (mul (div (Finite 1) (Finite 12)) (Finite 100)) (lit 0.3)
  = lit 2.4999999999999996
  /\ calculateEngagementScore one_click_in_twelve = Finite 2
  /\ Analytics.spec_engagement 12 1 0 0 0 = 3.
Proof. repeat split; vm_compute; reflexivity. Qed.

End EngagementScore.

(** ** Text metrics *)

Section TextMetrics.
Import Seo.
Open Scope Q_scope.

(** [split] always yields at least one piece, so a word count is never 0. *)
Lemma split_on_nonempty (sep : ascii -> bool) (s : string) :
  (0 < List.length (split_on sep s))%nat.
Proof.
  unfold split_on. generalize false, EmptyString.
  induction s as [| c t IH]; intros in_sep cur; simpl; [lia |].
  destruct (sep c); [destruct in_sep |]; simpl; auto with arith.
Qed.

Lemma len_positive {A} (l : list A) : (0 < List.length l)%nat -> 0 < len l.
Proof.
  intros H. unfold len. change 0 with (inject_Z 0). rewrite <- Zlt_Qlt. lia.
Qed.

Lemma calculateKeywordDensity_range (content keyword : string) :
  0 <= calculateKeywordDensity content keyword <= 3.
Proof.
  unfold calculateKeywordDensity, Math_min.
  set (words := words_of (toLowerCase content)).
  set (hits := filter _ words).
  pose proof (len_positive words (split_on_nonempty _ _)) as W.
  pose proof (len_nonneg hits) as H.
  split; [| apply Q.le_min_r].
  apply Q.min_glb; [| discriminate].
  apply Qmult_le_0_compat; [| discriminate].
  apply Qle_shift_div_l; [exact W | lra].
Qed.

Lemma calculateReadabilityScore_range (content : string) :
  0 <= calculateReadabilityScore content <= 100.
Proof.
  unfold calculateReadabilityScore, Math_max, Math_min.
  destruct (_ || _)%bool; [split; discriminate |].
  split; [apply Q.le_max_l |].
  apply Q.max_lub; [discriminate | apply Q.le_min_l].
Qed.

End TextMetrics.

(** ** The composite score *)

Section CompositeScore.
Import Seo.
Open Scope Q_scope.

Lemma density_points_matches (d : Q) :
  (if gtb d 0.5 && ltb d 3 then 0 + 25 else 0 + 10) == spec_density_points d.
Proof.
  unfold spec_density_points.
  destruct (gtb d 0.5) eqn:G; [apply gtb_true in G | apply gtb_false in G];
    (destruct (ltb d 3) eqn:L; [apply ltb_true in L | apply ltb_false in L]);
    destruct (Qlt_le_dec (1 # 2) d) as [P | P];
    try destruct (Qlt_le_dec d 3) as [P' | P']; simpl;
    first [ reflexivity | exfalso; lra ].
Qed.

Lemma density_points_bounds (d : Q) :
  10 <= spec_density_points d <= 25.
Proof.
  unfold spec_density_points.
  destruct (Qlt_le_dec (1 # 2) d); [destruct (Qlt_le_dec d 3) |]; lra.
Qed.

Lemma readability_points (r : Q) : r / 100 * 25 == r * (1 # 4).
Proof. field. Qed.

Lemma heading_points_bounds (h : bool) :
  10 <= (if h then 25 else 10) <= 25.
Proof. destruct h; lra. Qed.

Lemma penalty_bounds (l : list string) :
  0 <= Math_max 0 (25 - len l * 5) <= 25.
Proof.
  unfold Math_max. pose proof (len_nonneg l) as N. split.
  - apply Q.le_max_l.
  - apply Q.max_lub; lra.
Qed.

(** The sum [calculateSEOScore] rounds. *)
Lemma calculateSEOScore_sum (a : SEOAnalysis) :
  calculateSEOScore a
  = Math_round
      (spec_density_points (keywordDensity a)
       + readabilityScore a / 100 * 25
       + (if headingStructure a then 25 else 10)
       + Math_max 0 (25 - len (recommendations a) * 5)).
Proof.
  unfold calculateSEOScore. apply Math_round_comp.
  now rewrite density_points_matches.
Qed.

End CompositeScore.

(** ** The composite score on doubles *)

Section CompositeScoreOnDoubles.
Import Double Scoring.
Open Scope Q_scope.






(** The rounding of each operation shows in the score.  For the draft
    [hello] the grade arithmetic of [calculateReadabilityScore] (one
    word, one sentence, two syllables) gives the readability
    57.999999999999986; its bucket 14.499999999999996 added to 10 and 10
    is rounded to 34.5, so with the last bucket the sum is 39.5 and the
    score 40; the same sum on exact rationals stays below 39.5 and gives
    39. *)
Lemma calculateSEOScore_rounds_each_step :
  Math_max (Finite 0)
    (Math_min (Finite 100)
       (sub (Finite 100)
          (mul (sub (add (mul (lit 0.39) (div (of_nat 1) (of_nat 1)))
                         (mul (lit 11.8) (div (Finite 2) (of_nat 1))))
                    (lit 15.59))
               (Finite 5))))
  = readabilityScore hello_analysis
  /\ calculateSEOScore hello_analysis = Finite 40
  /\ Seo.spec_score 0 (fl 57.999999999999986) false 4 = 39.
Proof. repeat split; vm_compute; reflexivity. Qed.

End CompositeScoreOnDoubles.

(** ** Heading structure *)

Section HeadingStructure.
Import Seo.

Lemma checkHeadingStructure_count (content : string) :
  checkHeadingStructure content = true <-> (2 <= count_h2_matches content)%nat.
Proof. unfold checkHeadingStructure. apply Nat.leb_le. Qed.

(** C8. [checkHeadingStructure] counts the matches of [/##\s/g] wherever
    they stand: two third-level headings, or two markers inside a line,
    make it answer true although the text has no second-level heading
    line; a single second-level heading line gives false. *)
Theorem checkHeadingStructure_counts_any_marker :
  checkHeadingStructure h3_only = true
  /\ spec_hasHeadingStructure h3_only = false
  /\ checkHeadingStructure inline_markers = true
  /\ spec_hasHeadingStructure inline_markers = false
  /\ checkHeadingStructure "## Only heading" = false.
Proof. repeat split. Qed.

End HeadingStructure.

(** ** Recommendations and the orchestrator *)

Section Orchestrator.
Import Seo.
Open Scope Q_scope.

Lemma push_length (l : list string) (x : string) :
  List.length (push l x) = S (List.length l).
Proof. unfold push. rewrite length_app. simpl. lia. Qed.

(** The rules read the density, the readability and the heading flag of
    the analysis, nothing else. *)
Lemma generateRecommendations_local (a : SEOAnalysis) (content : string) :
  generateRecommendations a content
  = generateRecommendations
      {| keyword := keyword a; score := 0; recommendations := [];
         readabilityScore := readabilityScore a;
         keywordDensity := keywordDensity a;
         headingStructure := headingStructure a;
         externalData := None |} content.
Proof. reflexivity. Qed.

(** At most four of the five rules fire: the two density rules exclude
    each other. *)
Lemma generateRecommendations_length (a : SEOAnalysis) (content : string) :
  (List.length (generateRecommendations a content) <= 4)%nat.
Proof.
  unfold generateRecommendations.
  destruct (ltb (keywordDensity a) 0.5) eqn:L;
    destruct (gtb (keywordDensity a) 3) eqn:G.
  - apply ltb_true in L. apply gtb_true in G. exfalso. lra.
  - destruct (ltb (readabilityScore a) 60), (negb (headingStructure a)),
      (List.length (words_of content) <? 300)%nat;
      rewrite ?push_length; simpl; lia.
  - destruct (ltb (readabilityScore a) 60), (negb (headingStructure a)),
      (List.length (words_of content) <? 300)%nat;
      rewrite ?push_length; simpl; lia.
  - destruct (ltb (readabilityScore a) 60), (negb (headingStructure a)),
      (List.length (words_of content) <? 300)%nat;
      rewrite ?push_length; simpl; lia.
Qed.

(** The record [analyzeContent] hands back once the external data and
    the recommendations are known. *)
Lemma analyzeContent_result (seoProvider : ISEOProvider_analyzeContent)
  (content keyword title : string) :
  exists (ext : option SEOContentAnalysis) (recs : list string),
    analyzeContent seoProvider content keyword title
    = inr {| keyword := keyword;
             score :=
               calculateSEOScore
                 {| keyword := keyword; score := 0; recommendations := recs;
                    readabilityScore := calculateReadabilityScore content;
                    keywordDensity := calculateKeywordDensity content keyword;
                    headingStructure := checkHeadingStructure content;
                    externalData := ext |};
             recommendations := recs;
             readabilityScore := calculateReadabilityScore content;
             keywordDensity := calculateKeywordDensity content keyword;
             headingStructure := checkHeadingStructure content;
             externalData := ext |}
    /\ match seoProvider content keyword with
       | inr externalAnalysis =>
           ext = Some externalAnalysis
           /\ recs = (ext_recommendations externalAnalysis
                        ++ generateRecommendations
                             (local_analysis content keyword) content)%list
       | inl _ =>
           ext = None
           /\ recs = generateRecommendations (local_analysis content keyword)
                       content
       end.
Proof.
  unfold analyzeContent, analyzeContent_body, try_catch, bind, await.
  destruct (seoProvider content keyword) as [e | externalAnalysis];
    do 2 eexists; split; try reflexivity; split; reflexivity.
Qed.

(** C1. Whatever the provider call does (it answers, or it is rejected,
    as on a time-out), [analyzeContent] is fulfilled with an analysis for
    the keyword whose density, readability and heading flag are the
    locally computed ones and whose score is the composite score of that
    analysis; after a rejection its recommendations are exactly the local
    ones, after an answer the external ones followed by the local ones. *)
Theorem analyzeContent_never_raises (seoProvider : ISEOProvider_analyzeContent)
  (content keyword title : string) :
  exists a : SEOAnalysis,
    analyzeContent seoProvider content keyword title = inr a
    /\ Seo.keyword a = keyword
    /\ keywordDensity a = calculateKeywordDensity content keyword
    /\ readabilityScore a = calculateReadabilityScore content
    /\ headingStructure a = checkHeadingStructure content
    /\ score a = calculateSEOScore a
    /\ match seoProvider content keyword with
       | inl _ =>
           recommendations a
           = generateRecommendations (local_analysis content keyword) content
           /\ externalData a = None
       | inr externalAnalysis =>
           recommendations a
           = (ext_recommendations externalAnalysis
                ++ generateRecommendations (local_analysis content keyword)
                     content)%list
           /\ externalData a = Some externalAnalysis
       end.
Proof.
  destruct (analyzeContent_result seoProvider content keyword title)
    as (ext & recs & -> & H).
  eexists. split; [reflexivity |]. cbv [Seo.keyword keywordDensity
    readabilityScore headingStructure score recommendations externalData].
  do 4 (split; [reflexivity |]).
  split.
  - unfold calculateSEOScore. reflexivity.
  - destruct (seoProvider content keyword); destruct H as [-> ->];
      split; reflexivity.
Qed.

(** The one-word draft [hello] draws four local recommendations, the
    most the rules can give: the density is 0, the readability 58, there
    is no heading and the text is short. *)
Lemma hello_four_recommendations :
  List.length (generateRecommendations (local_analysis "hello"%string "seo"%string)
                                       "hello"%string)
  = 4%nat.
Proof. vm_compute. reflexivity. Qed.

(** C2 (as amended). After a rejected provider call the recommendations
    are the local ones, at most four.  After an answer they are all the
    external recommendations followed by the local ones, with nothing cut
    off: between [k] and [k + 4] of them when the provider answered [k].
    The four are reached, so a provider that always gives the same
    answer keeps the list of every draft within five exactly when its
    answer carries at most one recommendation. *)
Theorem analyzeContent_recommendations_length :
  (forall (seoProvider : ISEOProvider_analyzeContent)
          (content keyword title : string),
      exists a : SEOAnalysis,
        analyzeContent seoProvider content keyword title = inr a
        /\ match seoProvider content keyword with
           | inl _ =>
               recommendations a
               = generateRecommendations (local_analysis content keyword) content
               /\ (List.length (recommendations a) <= 4)%nat
           | inr externalAnalysis =>
               recommendations a
               = (ext_recommendations externalAnalysis
                    ++ generateRecommendations (local_analysis content keyword)
                         content)%list
               /\ (List.length (ext_recommendations externalAnalysis)
                   <= List.length (recommendations a)
                   <= List.length (ext_recommendations externalAnalysis) + 4)%nat
           end)
  /\ (forall externalAnalysis : SEOContentAnalysis,
         (forall content keyword title : string,
             exists a : SEOAnalysis,
               analyzeContent (fun _ _ => inr externalAnalysis)
                              content keyword title = inr a
               /\ (List.length (recommendations a) <= 5)%nat)
         <-> (List.length (ext_recommendations externalAnalysis) <= 1)%nat).
Proof.
  assert (G : forall (seoProvider : ISEOProvider_analyzeContent)
                     (content keyword title : string),
             exists a : SEOAnalysis,
               analyzeContent seoProvider content keyword title = inr a
               /\ match seoProvider content keyword with
                  | inl _ =>
                      recommendations a
                      = generateRecommendations (local_analysis content keyword)
                          content
                      /\ (List.length (recommendations a) <= 4)%nat
                  | inr externalAnalysis =>
                      recommendations a
                      = (ext_recommendations externalAnalysis
                           ++ generateRecommendations
                                (local_analysis content keyword) content)%list
                      /\ (List.length (ext_recommendations externalAnalysis)
                          <= List.length (recommendations a)
                          <= List.length (ext_recommendations externalAnalysis)
                             + 4)%nat
                  end).
  { intros seoProvider content keyword title.
    destruct (analyzeContent_result seoProvider content keyword title)
      as (ext & recs & -> & H).
    eexists. split; [reflexivity |]. cbv [recommendations].
    pose proof (generateRecommendations_length (local_analysis content keyword)
                  content) as L.
    destruct (seoProvider content keyword); destruct H as [_ ->].
    - split; [reflexivity | exact L].
    - split; [reflexivity |]. rewrite length_app. lia. }
  split; [exact G |].
  intros externalAnalysis. split.
  - intros B.
    destruct (B "hello"%string "seo"%string EmptyString) as (a & Ea & La).
    destruct (G (fun _ _ => inr externalAnalysis) "hello"%string "seo"%string
                EmptyString) as (a' & Ea' & Ra & _).
    rewrite Ea in Ea'. injection Ea' as <-.
    rewrite Ra, length_app, hello_four_recommendations in La. lia.
  - intros K content keyword title.
    destruct (G (fun _ _ => inr externalAnalysis) content keyword title)
      as (a & Ea & _ & _ & U).
    exists a. split; [exact Ea | lia].
Qed.

Lemma analyzeContent_recommendations_length_witness :
  let externalAnalysis :=
    {| ext_score := 75; ext_keywordDensity := 1.5; ext_readability := 68;
       ext_recommendations := ["Add internal links"%string];
       ext_competitorUrls := None |} in
  (List.length (ext_recommendations externalAnalysis) <= 1)%nat
  /\ forall content keyword title : string,
       exists a : SEOAnalysis,
         analyzeContent (fun _ _ => inr externalAnalysis) content keyword title
         = inr a
         /\ (List.length (recommendations a) <= 5)%nat.
Proof.
  intros externalAnalysis.
  assert (K : (List.length (ext_recommendations externalAnalysis) <= 1)%nat)
    by (simpl; lia).
  split; [exact K |].
  exact (proj2 (proj2 analyzeContent_recommendations_length externalAnalysis) K).
Defined.

(** C2, the claim as stated fails: with the provider of
    serpapi.provider.ts, which answers three recommendations, a short
    text gets six. *)
Lemma analyzeContent_more_than_five_recommendations :
  exists a : SEOAnalysis,
    analyzeContent SERPAPIProvider_analyzeContent "Hello world" "seo" "A title"
    = inr a
    /\ ~ (List.length (recommendations a) <= 5)%nat.
Proof.
  eexists. split; [vm_compute; reflexivity |].
  cbv [recommendations List.length]. lia.
Qed.

(** C10. Whatever the density, the heading flag and the recommendations,
    an analysis with non-negative readability scores at least 20: the
    density and heading buckets give at least 10 each and the two others
    are not negative.  So the score [analyzeContent] reports is never
    below 20, whatever the draft and whatever the provider does. *)
Theorem calculateSEOScore_at_least_20 :
  (forall a : SEOAnalysis,
      0 <= readabilityScore a -> 20 <= calculateSEOScore a)
  /\ (forall (seoProvider : ISEOProvider_analyzeContent)
             (content keyword title : string),
         exists a : SEOAnalysis,
           analyzeContent seoProvider content keyword title = inr a
           /\ 20 <= score a).
Proof.
  assert (F : forall a : SEOAnalysis,
             0 <= readabilityScore a -> 20 <= calculateSEOScore a).
  { intros a R0. rewrite calculateSEOScore_sum.
    pose proof (density_points_bounds (keywordDensity a)) as D.
    pose proof (heading_points_bounds (headingStructure a)) as H.
    pose proof (penalty_bounds (recommendations a)) as P.
    pose proof (readability_points (readabilityScore a)) as E.
    apply (Math_round_lower 20). change (inject_Z 20) with 20. lra. }
  split; [exact F |].
  intros seoProvider content keyword title.
  destruct (analyzeContent_result seoProvider content keyword title)
    as (ext & recs & -> & _).
  eexists. split; [reflexivity |]. cbv [score].
  apply F. cbv [readabilityScore].
  apply calculateReadabilityScore_range.
Qed.

Lemma calculateSEOScore_at_least_20_witness :
  0 <= readabilityScore (local_analysis "Hello world" "seo")
  /\ 20 <= calculateSEOScore (local_analysis "Hello world" "seo").
Proof.
  assert (R : 0 <= readabilityScore (local_analysis "Hello world" "seo"))
    by (vm_compute; discriminate).
  split; [exact R |].
  exact (proj1 calculateSEOScore_at_least_20 _ R).
Defined.

End Orchestrator.

(** ** Dates *)

Section Dates.
Import JSDate.
Open Scope Z_scope.

Lemma InLeapYear_cases (y : Z) :
  (InLeapYear y = 0 \/ InLeapYear y = 1) /\ DaysInYear y = 365 + InLeapYear y.
Proof.
  unfold InLeapYear, DaysInYear.
  destruct (y mod 4 =? 0); [destruct (y mod 100 =? 0);
    [destruct (y mod 400 =? 0) |] |]; simpl; lia.
Qed.

Lemma DayFromYear_succ (y : Z) :
  DayFromYear (y + 1) = DayFromYear y + DaysInYear y.
Proof.
  unfold DayFromYear, DaysInYear.
  destruct (y mod 4 =? 0) eqn:E4;
    [destruct (y mod 100 =? 0) eqn:E100;
       [destruct (y mod 400 =? 0) eqn:E400 |] |];
    rewrite ?Z.eqb_eq, ?Z.eqb_neq in *; Z.div_mod_to_equations; lia.
Qed.

Lemma DayFromYear_pred (y : Z) : DayFromYear (y - 1) < DayFromYear y.
Proof.
  pose proof (DayFromYear_succ (y - 1)) as S.
  replace (y - 1 + 1) with y in S by lia.
  destruct (InLeapYear_cases (y - 1)) as [L D]. lia.
Qed.

(** The year of a day is the year in which it falls. *)
Lemma YearFromDay_unique (y d : Z) :
  DayFromYear y <= d < DayFromYear (y + 1) -> YearFromDay d = y.
Proof.
  unfold YearFromDay. intros H.
  set (y0 := 1970 + 400 * d / 146097).
  assert (B : y0 = y - 1 \/ y0 = y \/ y0 = y + 1).
  { unfold y0, DayFromYear in *. Z.div_mod_to_equations. lia. }
  pose proof (DayFromYear_pred y) as P.
  destruct B as [-> | [-> | ->]].
  - replace (y - 1 + 1) with y by lia.
    destruct (Z.ltb_spec d (DayFromYear (y - 1))); [lia |].
    destruct (Z.leb_spec (DayFromYear y) d); lia.
  - destruct (Z.ltb_spec d (DayFromYear y)); [lia |].
    destruct (Z.leb_spec (DayFromYear (y + 1)) d); lia.
  - destruct (Z.ltb_spec d (DayFromYear (y + 1))); lia.
Qed.

Lemma month_cases (m : Z) :
  0 <= m <= 11 ->
  m = 0 \/ m = 1 \/ m = 2 \/ m = 3 \/ m = 4 \/ m = 5 \/ m = 6 \/ m = 7
  \/ m = 8 \/ m = 9 \/ m = 10 \/ m = 11.
Proof. lia. Qed.

Ltac each_month m H :=
  destruct (month_cases m H)
    as [-> | [-> | [-> | [-> | [-> | [-> | [-> | [-> | [-> | [-> | [-> | ->]]]]]]]]]]].

Ltac month_values :=
  repeat match goal with
         | |- context [(?a + 1)%Z] =>
             is_ground a; let c := eval vm_compute in (a + 1)%Z in
             change (a + 1)%Z with c
         | H : context [(?a + 1)%Z] |- _ =>
             is_ground a; let c := eval vm_compute in (a + 1)%Z in
             change (a + 1)%Z with c in H
         end;
  cbv beta iota delta [month_start days_in_month] in *.

Lemma days_in_month_bounds (m leap : Z) :
  0 <= m <= 11 -> 0 <= leap <= 1 -> 28 <= days_in_month m leap <= 31.
Proof.
  intros Hm Hl. unfold days_in_month. each_month m Hm; month_values; lia.
Qed.

Lemma month_start_bounds (m leap : Z) :
  0 <= m <= 11 -> 0 <= leap <= 1 ->
  0 <= month_start m leap
  /\ month_start m leap + days_in_month m leap <= 365 + leap.
Proof.
  intros Hm Hl. unfold days_in_month. each_month m Hm; month_values; lia.
Qed.

(** Reading back the year, the month and the date of the day built from
    them. *)
Lemma civil_roundtrip (y m dt : Z) :
  0 <= m <= 11 ->
  1 <= dt <= days_in_month m (InLeapYear y) ->
  let d := DayFromYear y + month_start m (InLeapYear y) + dt - 1 in
  YearFromDay d = y /\ MonthFromDay d = m /\ DateFromDay d = dt.
Proof.
  intros Hm Hdt d.
  destruct (InLeapYear_cases y) as [L D].
  assert (Hl : 0 <= InLeapYear y <= 1) by lia.
  pose proof (month_start_bounds m _ Hm Hl) as [S0 S1].
  assert (Y : YearFromDay d = y).
  { apply YearFromDay_unique. rewrite DayFromYear_succ. unfold d. lia. }
  assert (W : DayWithinYear d = month_start m (InLeapYear y) + dt - 1).
  { unfold DayWithinYear. rewrite Y. unfold d. lia. }
  assert (M : MonthFromDay d = m).
  { unfold MonthFromDay. rewrite W, Y. clear W Y S0 S1 D. unfold d in *.
    unfold days_in_month in Hdt.
    each_month m Hm; month_values;
      repeat match goal with
             | |- context [?a <? ?b] => destruct (Z.ltb_spec a b); try lia
             end. }
  split; [exact Y |]. split; [exact M |].
  unfold DateFromDay. rewrite M, W, Y. lia.
Qed.

Lemma MakeDay_in_year (y m dt : Z) :
  0 <= m <= 11 ->
  MakeDay y m dt = DayFromYear y + month_start m (InLeapYear y) + dt - 1.
Proof.
  intros Hm. unfold MakeDay.
  rewrite (Z.div_small m 12), (Z.mod_small m 12) by lia.
  now rewrite Z.add_0_r.
Qed.

(** Day 0 of the month after is the last day of the month. *)
Lemma MakeDay_day_zero (y month : Z) :
  1 <= month <= 12 ->
  MakeDay y month 0
  = MakeDay y (month - 1) (days_in_month (month - 1) (InLeapYear y)).
Proof.
  intros Hm. rewrite (MakeDay_in_year y (month - 1)) by lia.
  unfold days_in_month. replace (month - 1 + 1) with month by lia.
  destruct (Z.eq_dec month 12) as [-> | N].
  - unfold MakeDay. change (12 / 12) with 1. change (12 mod 12) with 0.
    rewrite DayFromYear_succ. destruct (InLeapYear_cases y) as [_ ->].
    simpl. lia.
  - rewrite MakeDay_in_year by lia. lia.
Qed.

Lemma Date_new_year (year month dt : Z) :
  100 <= year -> Date_new year month (Some dt) = ValidDate (MakeDay year month dt).
Proof.
  intros H. unfold Date_new.
  destruct (Z.leb_spec 0 year); destruct (Z.leb_spec year 99); simpl;
    first [ reflexivity | lia ].
Qed.

(** Seven days in a row hold every day of the week. *)
Lemma WeekDay_reached (t w : Z) :
  0 <= w <= 6 -> exists k, 0 <= k <= 6 /\ WeekDay (t + k) = w.
Proof.
  intros Hw. exists ((w - (t + 4)) mod 7). unfold WeekDay.
  split; Z.div_mod_to_equations; lia.
Qed.

End Dates.

(** ** The publishing schedule *)

Section Schedule.
Import JSDate Calendar.
Open Scope Z_scope.

Lemma days_upto_In (n d : Z) : In d (days_upto n) <-> 1 <= d <= n.
Proof.
  unfold days_upto. rewrite in_map_iff. split.
  - intros (k & <- & H). apply in_seq in H. lia.
  - intros H. exists (Z.to_nat d). split; [lia |]. apply in_seq. lia.
Qed.

Lemma getOptimalPublishingDays_filter (month year : Z) :
  1 <= month <= 12 -> 100 <= year ->
  getOptimalPublishingDays month year
  = filter (is_optimal_day month year)
      (days_upto (days_in_month (month - 1) (InLeapYear year))).
Proof.
  intros Hm Hy. unfold getOptimalPublishingDays.
  rewrite Date_new_year by exact Hy. cbn [getDate].
  rewrite MakeDay_day_zero by exact Hm.
  rewrite MakeDay_in_year by lia.
  destruct (InLeapYear_cases year) as [L _].
  pose proof (days_in_month_bounds (month - 1) (InLeapYear year)
                ltac:(lia) ltac:(lia)) as B.
  destruct (civil_roundtrip year (month - 1)
              (days_in_month (month - 1) (InLeapYear year))
              ltac:(lia) ltac:(lia)) as (_ & _ & ->).
  reflexivity.
Qed.

(** An optimal day is a day of the month that falls on a Tuesday, a
    Wednesday or a Thursday. *)
Lemma optimal_day_In (month year d : Z) :
  1 <= month <= 12 -> 100 <= year ->
  In d (getOptimalPublishingDays month year) ->
  exists t,
    Date_new year (month - 1) (Some d) = ValidDate t
    /\ YearFromDay t = year /\ MonthFromDay t = month - 1
    /\ DateFromDay t = d /\ 2 <= WeekDay t <= 4.
Proof.
  intros Hm Hy H. rewrite getOptimalPublishingDays_filter in H by assumption.
  apply filter_In in H. destruct H as [R O]. apply days_upto_In in R.
  unfold is_optimal_day in O. rewrite Date_new_year in * by exact Hy.
  cbn [getDay] in O. apply andb_true_iff in O.
  rewrite !Z.leb_le in O.
  exists (MakeDay year (month - 1) d). split; [reflexivity |].
  rewrite MakeDay_in_year in * by lia.
  destruct (civil_roundtrip year (month - 1) d ltac:(lia) R) as (Y & M & D).
  auto.
Qed.

Lemma optimal_days_nonempty (month year : Z) :
  1 <= month <= 12 -> 100 <= year ->
  getOptimalPublishingDays month year <> [].
Proof.
  intros Hm Hy.
  destruct (WeekDay_reached (MakeDay year (month - 1) 1) 2 ltac:(lia))
    as (k & Hk & W).
  assert (I : In (1 + k) (getOptimalPublishingDays month year)).
  { rewrite getOptimalPublishingDays_filter by assumption.
    apply filter_In. split.
    - apply days_upto_In.
      destruct (InLeapYear_cases year) as [L _].
      pose proof (days_in_month_bounds (month - 1) (InLeapYear year)
                    ltac:(lia) ltac:(lia)). lia.
    - unfold is_optimal_day. rewrite Date_new_year by exact Hy.
      cbn [getDay].
      replace (MakeDay year (month - 1) (1 + k))
        with (MakeDay year (month - 1) 1 + k) by (unfold MakeDay; lia).
      rewrite W. reflexivity. }
  intros E. rewrite E in I. exact I.
Qed.

Lemma mapi_from_length {A B} (f : A -> nat -> B) (l : list A) (i : nat) :
  List.length (mapi_from f i l) = List.length l.
Proof.
  revert i. induction l as [| x t IH]; intros i; simpl; [| rewrite IH];
    reflexivity.
Qed.

Lemma generateContentIdeas_length (kws : list string) :
  List.length (generateContentIdeas kws) = List.length kws.
Proof. apply mapi_from_length. Qed.

Lemma generateContentIdeas_platforms (kws : list string) :
  Forall (fun idea => idea_platforms idea = Some ["blog"; "linkedin"]%string)
         (generateContentIdeas kws).
Proof.
  unfold generateContentIdeas. generalize 0%nat.
  induction kws as [| k t IH]; intros i; simpl; constructor;
    [reflexivity | apply IH].
Qed.

(** What the schedule shows of each item (its date, its status and its
    platform), idea by idea. *)
Lemma schedule_from_view {B} (view : Date -> Status -> string -> B)
  (uuidv4 : nat -> string) (days : list Z) (month year : Z)
  (ideas : list ContentIdea) :
  Forall (fun idea => idea_platforms idea = Some ["blog"; "linkedin"]%string)
         ideas ->
  forall (calendar : list ContentItem) (i : nat),
    map (fun it => view (publishDate it) (status it) (platform it))
        (schedule_from uuidv4 days month year calendar i ideas)
    = (map (fun it => view (publishDate it) (status it) (platform it)) calendar
       ++ flat_map
            (fun j =>
               let publishDate :=
                 Date_new year (month - 1)
                   (nth_error days (j mod List.length days)%nat) in
               [view publishDate scheduled "blog"%string;
                view publishDate scheduled "linkedin"%string])
            (seq i (List.length ideas)))%list.
Proof.
  induction 1 as [| idea rest P _ IH]; intros calendar i.
  - simpl. now rewrite app_nil_r.
  - cbn [schedule_from List.length seq flat_map]. rewrite IH.
    unfold schedule_idea. rewrite P. cbn [fold_left].
    rewrite !map_app, <- !app_assoc. reflexivity.
Qed.

Lemma build_view {B} (view : Date -> Status -> string -> B)
  (uuidv4 : nat -> string) (kws : list string) (month year : Z) :
  map (fun it => view (publishDate it) (status it) (platform it))
      (build uuidv4 kws month year)
  = flat_map
      (fun j =>
         let publishDate :=
           Date_new year (month - 1)
             (nth_error (getOptimalPublishingDays month year)
                (j mod List.length (getOptimalPublishingDays month year))%nat) in
         [view publishDate scheduled "blog"%string;
          view publishDate scheduled "linkedin"%string])
      (seq 0 (List.length kws)).
Proof.
  unfold build, createPublishingSchedule.
  rewrite (schedule_from_view view) by apply generateContentIdeas_platforms.
  now rewrite generateContentIdeas_length.
Qed.

Lemma flat_pairs_length {A B} (f g : A -> B) (l : list A) :
  List.length (flat_map (fun j => [f j; g j]) l) = (2 * List.length l)%nat.
Proof. induction l as [| x t IH]; simpl; [| rewrite IH]; lia. Qed.

Lemma flat_pairs_nth {B} (f : nat -> B) (n i p : nat) :
  (p < 2 * n)%nat ->
  nth_error (flat_map (fun j => [f j; f j]) (seq i n)) p
  = Some (f (i + p / 2)%nat).
Proof.
  revert i p. induction n as [| n IH]; intros i p H; [lia |].
  cbn [seq flat_map app].
  destruct p as [| [| p]].
  - simpl. now rewrite Nat.add_0_r.
  - simpl. now rewrite Nat.add_0_r.
  - cbn [nth_error]. rewrite IH by lia.
    replace (S (S p)) with (p + 1 * 2)%nat by lia.
    rewrite Nat.div_add by lia. f_equal. f_equal. lia.
Qed.

Lemma flat_map_same_length {A A' B} (c : list B) (l : list A) (l' : list A') :
  List.length l = List.length l' ->
  flat_map (fun _ => c) l = flat_map (fun _ => c) l'.
Proof.
  revert l'. induction l as [| x t IH]; intros [| x' t'] H; simpl in *;
    try discriminate; [reflexivity |].
  f_equal. apply IH. lia.
Qed.

(** The date given to idea [j] is a Tuesday, Wednesday or Thursday of the
    month. *)
Lemma idea_date_optimal (month year : Z) (j : nat) :
  1 <= month <= 12 -> 100 <= year ->
  exists t,
    Date_new year (month - 1)
      (nth_error (getOptimalPublishingDays month year)
         (j mod List.length (getOptimalPublishingDays month year))%nat)
    = ValidDate t
    /\ YearFromDay t = year /\ MonthFromDay t = month - 1
    /\ 2 <= WeekDay t <= 4.
Proof.
  intros Hm Hy.
  pose proof (optimal_days_nonempty month year Hm Hy) as N.
  set (days := getOptimalPublishingDays month year) in *.
  assert (L : (j mod List.length days < List.length days)%nat).
  { apply Nat.mod_upper_bound. destruct days; [congruence | discriminate]. }
  destruct (nth_error days (j mod List.length days)%nat) as [d |] eqn:E;
    [| apply nth_error_None in E; lia].
  apply nth_error_In in E.
  destruct (optimal_day_In month year d Hm Hy E) as (t & T & Y & M & _ & W).
  exists t. auto.
Qed.

(** C5. For a month from 1 to 12 of a year from 100 on (within the range
    of dates), the schedule built for a keyword list has two items per
    keyword, one for the blog and one for linkedin; every item is
    scheduled, and its publish date is a Tuesday, a Wednesday or a
    Thursday of that month of that year. *)
Theorem build_two_scheduled_items_per_keyword (uuidv4 : nat -> string)
  (kws : list string) (month year : Z) :
  1 <= month <= 12 ->
  100 <= year <= 275759 ->
  List.length (build uuidv4 kws month year) = (2 * List.length kws)%nat
  /\ map platform (build uuidv4 kws month year)
     = flat_map (fun _ => ["blog"; "linkedin"]%string) kws
  /\ Forall
       (fun item =>
          status item = scheduled
          /\ exists t,
               publishDate item = ValidDate t
               /\ getFullYear (publishDate item) = Some year
               /\ getMonth (publishDate item) = Some (month - 1)
               /\ getDay (publishDate item) = Some (WeekDay t)
               /\ 2 <= WeekDay t <= 4)
       (build uuidv4 kws month year).
Proof.
  intros Hm [Hy _]. split; [| split].
  - pose proof (f_equal (@List.length _)
                  (build_view (fun _ _ _ => tt) uuidv4 kws month year)) as V.
    cbv beta zeta in V.
    rewrite length_map in V. rewrite V.
    rewrite (flat_pairs_length (fun _ => tt) (fun _ => tt)), length_seq.
    reflexivity.
  - pose proof (build_view (fun _ _ p => p) uuidv4 kws month year) as V.
    cbv beta zeta in V. etransitivity; [exact V |].
    apply flat_map_same_length. apply length_seq.
  - pose proof (build_view (fun d s _ => (d, s)) uuidv4 kws month year) as V.
    cbv beta zeta in V.
    apply (Forall_map
             (fun it => (publishDate it, status it))
             (fun v =>
                snd v = scheduled
                /\ exists t,
                     fst v = ValidDate t
                     /\ getFullYear (fst v) = Some year
                     /\ getMonth (fst v) = Some (month - 1)
                     /\ getDay (fst v) = Some (WeekDay t)
                     /\ 2 <= WeekDay t <= 4)).
    rewrite V. apply Forall_flat_map, Forall_forall.
    intros j _.
    destruct (idea_date_optimal month year j Hm Hy) as (t & -> & Y & M & W).
    repeat constructor; cbn [fst snd]; exists t; cbn; rewrite ?Y, ?M; auto.
Qed.

Lemma build_two_scheduled_items_per_keyword_witness :
  1 <= 1 <= 12 /\ 100 <= 2025 <= 275759
  /\ List.length (build nat_to_string ["seo"; "ads"]%string 1 2025) = 4%nat
  /\ Forall
       (fun item =>
          status item = scheduled
          /\ exists t,
               publishDate item = ValidDate t
               /\ getFullYear (publishDate item) = Some 2025
               /\ getMonth (publishDate item) = Some (1 - 1)
               /\ getDay (publishDate item) = Some (WeekDay t)
               /\ 2 <= WeekDay t <= 4)
       (build nat_to_string ["seo"; "ads"]%string 1 2025).
Proof.
  assert (Hm : 1 <= 1 <= 12) by lia.
  assert (Hy : 100 <= 2025 <= 275759) by lia.
  split; [exact Hm |]. split; [exact Hy |].
  destruct (build_two_scheduled_items_per_keyword nat_to_string
              ["seo"; "ads"]%string 1 2025 Hm Hy) as (L & _ & F).
  split; [exact L | exact F].
Defined.

(** C6 (as amended). The publish date of an item is
    [optimalDays[i mod length(optimalDays)]] where [i] is the index of the
    item's idea, that is the item's position in the flattened sequence
    divided by two: both platform copies of an idea get the same day, and
    the next idea gets the next optimal day. *)
Theorem build_date_cycles_by_idea (uuidv4 : nat -> string)
  (kws : list string) (month year : Z) (p : nat) (item : ContentItem) :
  nth_error (build uuidv4 kws month year) p = Some item ->
  publishDate item
  = Date_new year (month - 1)
      (nth_error (getOptimalPublishingDays month year)
         ((p / 2) mod List.length (getOptimalPublishingDays month year))%nat).
Proof.
  intros H.
  assert (L : (p < List.length (build uuidv4 kws month year))%nat)
    by (apply nth_error_Some; congruence).
  apply (map_nth_error (fun it => publishDate it)) in H.
  pose proof (build_view (fun d _ _ => d) uuidv4 kws month year) as V.
  cbv beta zeta in V.
  pose proof (f_equal (@List.length _) V) as N.
  rewrite length_map in N.
  rewrite (flat_pairs_length
             (fun j =>
                Date_new year (month - 1)
                  (nth_error (getOptimalPublishingDays month year)
                     (j mod List.length (getOptimalPublishingDays month year))%nat))
             (fun j =>
                Date_new year (month - 1)
                  (nth_error (getOptimalPublishingDays month year)
                     (j mod List.length (getOptimalPublishingDays month year))%nat))),
    length_seq in N.
  rewrite V in H.
  rewrite (flat_pairs_nth
             (fun j =>
                Date_new year (month - 1)
                  (nth_error (getOptimalPublishingDays month year)
                     (j mod List.length (getOptimalPublishingDays month year))%nat)))
    in H by lia.
  injection H as <-. reflexivity.
Qed.

Lemma build_date_cycles_by_idea_witness :
  exists item : ContentItem,
    nth_error (build nat_to_string ["seo"]%string 1 2025) 1 = Some item
    /\ publishDate item
       = Date_new 2025 (1 - 1)
           (nth_error (getOptimalPublishingDays 1 2025)
              ((1 / 2) mod List.length (getOptimalPublishingDays 1 2025))%nat).
Proof.
  eexists. split; [reflexivity |].
  exact (build_date_cycles_by_idea nat_to_string ["seo"]%string 1 2025 1 _
           eq_refl).
Defined.

(** C6, the claim as stated fails: in January 2025 the second item of the
    calendar, the linkedin copy of the first idea, is dated on the first
    optimal day like the blog copy, not on the second. *)
Lemma build_date_not_by_item_position :
  ~ (forall (p : nat) (item : ContentItem),
       nth_error (build nat_to_string ["seo"]%string 1 2025) p = Some item ->
       publishDate item
       = Date_new 2025 (1 - 1)
           (nth_error (getOptimalPublishingDays 1 2025)
              (p mod List.length (getOptimalPublishingDays 1 2025))%nat)).
Proof.
  intros H. specialize (H 1%nat _ eq_refl). vm_compute in H. discriminate H.
Qed.

End Schedule.

(** ** Keyword ranking *)

Section Ranking.
Import Calendar.
Open Scope Q_scope.

(** *** The insertion-ordered map *)

Lemma Map_get_set_same (m : JSMap) (k : string) (v : Q) :
  Map_get (Map_set m k v) k = Some v.
Proof.
  induction m as [| [k' v'] t IH]; simpl.
  - now rewrite String.eqb_refl.
  - destruct (String.eqb k' k) eqn:E; simpl; rewrite E; [reflexivity | exact IH].
Qed.

Lemma Map_get_set_other (m : JSMap) (k k' : string) (v : Q) :
  k' <> k -> Map_get (Map_set m k v) k' = Map_get m k'.
Proof.
  intros N. induction m as [| [k0 v0] t IH]; simpl.
  - destruct (String.eqb k k') eqn:E; [| reflexivity].
    apply String.eqb_eq in E. congruence.
  - destruct (String.eqb k0 k) eqn:E; simpl.
    + apply String.eqb_eq in E. subst k0.
      destruct (String.eqb k k') eqn:E'; [| reflexivity].
      apply String.eqb_eq in E'. congruence.
    + now rewrite IH.
Qed.

Lemma Map_set_keys (m : JSMap) (k : string) (v : Q) :
  map fst (Map_set m k v) = note_keyword (map fst m) k.
Proof.
  unfold note_keyword. induction m as [| [k' v'] t IH]; simpl; [reflexivity |].
  rewrite (String.eqb_sym k k').
  destruct (String.eqb k' k); simpl; [reflexivity |].
  rewrite IH. now destruct (existsb (String.eqb k) (map fst t)).
Qed.

Lemma note_keyword_NoDup (seen : list string) (k : string) :
  NoDup seen -> NoDup (note_keyword seen k).
Proof.
  intros N. unfold note_keyword.
  destruct (existsb (String.eqb k) seen) eqn:E; [exact N |].
  apply NoDup_app; [exact N | repeat constructor; intros [] |].
  intros x I [K | []]. subst x.
  assert (existsb (String.eqb k) seen = true); [| congruence].
  apply existsb_exists. exists k. split; [exact I | apply String.eqb_refl].
Qed.

Lemma Map_get_In (m : JSMap) (k : string) (v : Q) :
  NoDup (map fst m) -> In (k, v) m -> Map_get m k = Some v.
Proof.
  induction m as [| [k' v'] t IH]; simpl; intros N I; [contradiction |].
  inversion N as [| ? ? N1 N2]; subst.
  destruct I as [E | I].
  - injection E as -> ->. now rewrite String.eqb_refl.
  - destruct (String.eqb k' k) eqn:E; [| now apply IH].
    apply String.eqb_eq in E. subst k'.
    exfalso. apply N1. apply (in_map fst) in I. exact I.
Qed.

(** *** Accumulating the history *)

Lemma fold_left_map {A B C} (f : A -> B -> A) (g : C -> B) (l : list C) (a : A) :
  fold_left f (map g l) a = fold_left (fun a x => f a (g x)) l a.
Proof. revert a. induction l as [| x t IH]; intros a; simpl; auto. Qed.

Lemma add_post_contributions (m : JSMap) (post : BlogPost) :
  add_post m post
  = fold_left add_keyword
      (map (fun k => (k, engagement_of post)) (post_keywords post)) m.
Proof.
  unfold add_post, post_keywords.
  destruct (content_keywords post) as [ck |]; [| reflexivity].
  destruct (truthy ck); [| reflexivity].
  rewrite !fold_left_map. reflexivity.
Qed.

Lemma fold_add_post (posts : list BlogPost) (m : JSMap) :
  fold_left add_post posts m
  = fold_left add_keyword (contributions engagement_of posts) m.
Proof.
  revert m. induction posts as [| p t IH]; intros m; [reflexivity |].
  cbn [fold_left contributions flat_map]. rewrite fold_left_app, IH.
  now rewrite add_post_contributions.
Qed.

Lemma fold_add_keyword_keys (evs : list (string * Q)) (m : JSMap) :
  map fst (fold_left add_keyword evs m)
  = fold_left note_keyword (map fst evs) (map fst m).
Proof.
  revert m. induction evs as [| ev t IH]; intros m; [reflexivity |].
  cbn [fold_left map]. rewrite IH. unfold add_keyword.
  now rewrite Map_set_keys.
Qed.

Lemma fold_note_keyword_NoDup (ks seen : list string) :
  NoDup seen -> NoDup (fold_left note_keyword ks seen).
Proof.
  revert seen. induction ks as [| k t IH]; intros seen N; [exact N |].
  apply IH. now apply note_keyword_NoDup.
Qed.

Lemma Map_weight_add_keyword (m : JSMap) (ev : string * Q) (k : string) :
  Map_weight (add_keyword m ev) k
  == Map_weight m k + (if String.eqb (fst ev) k then snd ev else 0).
Proof.
  unfold Map_weight, add_keyword.
  destruct (String.eqb (fst ev) k) eqn:E.
  - apply String.eqb_eq in E. subst k. rewrite Map_get_set_same.
    destruct (Map_get m (fst ev)) as [v |]; [| simpl; reflexivity].
    now rewrite num_or_zero.
  - rewrite Map_get_set_other; [ring |].
    intros ->. now rewrite String.eqb_refl in E.
Qed.

Lemma Map_weight_fold (evs : list (string * Q)) (m : JSMap) (k : string) :
  Map_weight (fold_left add_keyword evs m) k == Map_weight m k + total_of evs k.
Proof.
  revert m. induction evs as [| ev t IH]; intros m.
  - simpl. ring.
  - cbn [fold_left total_of fold_right]. rewrite IH, Map_weight_add_keyword.
    fold (total_of t k). destruct (String.eqb (fst ev) k); ring.
Qed.

(** Every entry of the accumulated map holds the aggregate weight of its
    keyword, and the keys are the keywords in first-seen order. *)
Lemma keywordMap_entries (posts : list BlogPost) :
  let m := fold_left add_post posts [] in
  map fst m = first_seen posts
  /\ NoDup (map fst m)
  /\ forall k v, In (k, v) m -> v == aggregate_weight engagement_of posts k.
Proof.
  intros m. unfold m. rewrite fold_add_post.
  assert (K : map fst (fold_left add_keyword (contributions engagement_of posts) [])
              = first_seen posts) by apply fold_add_keyword_keys.
  assert (N : NoDup (map fst (fold_left add_keyword
                                (contributions engagement_of posts) []))).
  { rewrite K. apply fold_note_keyword_NoDup. constructor. }
  split; [exact K |]. split; [exact N |].
  intros k v I. apply (Map_get_In _ _ _ N) in I.
  pose proof (Map_weight_fold (contributions engagement_of posts) [] k) as W.
  unfold Map_weight in W at 1. rewrite I in W.
  unfold aggregate_weight. rewrite W. unfold Map_weight. simpl. ring.
Qed.

(** *** The stable sort *)

Lemma sort_insert_perm {A} (cmp : A -> A -> Q) (x : A) (l : list A) :
  Permutation (sort_insert cmp x l) (x :: l).
Proof.
  induction l as [| y t IH]; simpl; [reflexivity |].
  destruct (gtb (cmp x y) 0); [| reflexivity].
  rewrite IH. apply perm_swap.
Qed.

Lemma Array_sort_perm {A} (cmp : A -> A -> Q) (l : list A) :
  Permutation (Array_sort cmp l) l.
Proof.
  induction l as [| x t IH]; simpl; [reflexivity |].
  rewrite sort_insert_perm. now constructor.
Qed.

Lemma StronglySorted_weaken {A} (R R' : A -> A -> Prop) (l : list A) :
  (forall x y, In x l -> In y l -> R x y -> R' x y) ->
  StronglySorted R l -> StronglySorted R' l.
Proof.
  intros H S. induction S as [| x t S IH F]; constructor.
  - apply IH. intros a b Ia Ib. apply H; now right.
  - rewrite Forall_forall in *. intros y I.
    apply H; [now left | now right | now apply F].
Qed.

Lemma StronglySorted_map {A B} (f : A -> B) (R : A -> A -> Prop)
  (R' : B -> B -> Prop) (l : list A) :
  (forall x y, In x l -> In y l -> R x y -> R' (f x) (f y)) ->
  StronglySorted R l -> StronglySorted R' (map f l).
Proof.
  intros H S. induction S as [| x t S IH F]; simpl; constructor.
  - apply IH. intros a b Ia Ib. apply H; now right.
  - rewrite Forall_forall in *. intros y I.
    apply in_map_iff in I. destruct I as (z & <- & I).
    apply H; [now left | now right | now apply F].
Qed.

Lemma firstn_In {A} (n : nat) (l : list A) (x : A) :
  In x (firstn n l) -> In x l.
Proof.
  revert n. induction l as [| y t IH]; intros [| n]; simpl; try tauto.
  intros [E | I]; [now left | right; now apply (IH n)].
Qed.

Lemma StronglySorted_firstn {A} (R : A -> A -> Prop) (n : nat) (l : list A) :
  StronglySorted R l -> StronglySorted R (firstn n l).
Proof.
  intros S. revert n. induction S as [| x t S IH F]; intros [| n]; simpl;
    try constructor.
  - apply IH.
  - rewrite Forall_forall in *. intros y I. apply F.
    now apply (firstn_In n).
Qed.

Lemma sort_insert_sorted (earlier : string * Q -> string * Q -> Prop)
  (x : string * Q) (l : JSMap) :
  StronglySorted (ranks_by snd earlier) l ->
  (forall y, In y l -> earlier x y) ->
  StronglySorted (ranks_by snd earlier)
                 (sort_insert (fun a b => snd b - snd a) x l).
Proof.
  intros S. induction S as [| y t S IH F]; intros E; simpl.
  - repeat constructor.
  - destruct (gtb (snd y - snd x) 0) eqn:G;
      [apply gtb_true in G | apply gtb_false in G].
    + constructor.
      * apply IH. intros z I. apply E. now right.
      * rewrite Forall_forall in *. intros z I.
        apply (Permutation_in z (sort_insert_perm _ x t)) in I.
        destruct I as [<- | I]; [left; lra | now apply F].
    + constructor; [now constructor |].
      rewrite Forall_forall in *. intros z I.
      assert (Z : snd z <= snd y).
      { destruct I as [<- | I]; [lra |].
        destruct (F z I) as [L | [L _]]; lra. }
      destruct (Qlt_le_dec (snd z) (snd x)) as [L | L]; [now left |].
      right. split; [lra | now apply E].
Qed.

Lemma before_cons {A} (l : list A) (a x y : A) :
  before l x y -> before (a :: l) x y.
Proof.
  intros (l1 & l2 & l3 & ->). now exists (a :: l1), l2, l3.
Qed.

Lemma before_head {A} (l : list A) (x y : A) : In y l -> before (x :: l) x y.
Proof.
  intros I. apply in_split in I. destruct I as (l2 & l3 & ->).
  now exists [], l2, l3.
Qed.

Lemma before_map {A B} (f : A -> B) (l : list A) (x y : A) :
  before l x y -> before (map f l) (f x) (f y).
Proof.
  intros (l1 & l2 & l3 & ->).
  exists (map f l1), (map f l2), (map f l3).
  now rewrite map_app, map_cons, map_app, map_cons.
Qed.

(** The sort puts the larger weights first and leaves entries of equal
    weight in the order they had. *)
Lemma Array_sort_sorted (l : JSMap) :
  StronglySorted (ranks_by snd (before l))
                 (Array_sort (fun a b => snd b - snd a) l).
Proof.
  induction l as [| x t IH]; simpl; [constructor |].
  apply sort_insert_sorted.
  - apply (StronglySorted_weaken (ranks_by snd (before t))); [| exact IH].
    intros a b _ _ [L | [L B]]; [now left | right].
    split; [exact L | now apply before_cons].
  - intros y I. apply before_head.
    exact (Permutation_in _ (Array_sort_perm _ t) I).
Qed.

(** *** The ranking *)

Lemma rank_entries_ranked (posts : list BlogPost) :
  Permutation (map fst (rank_entries posts)) (first_seen posts)
  /\ Forall (fun kv => snd kv == aggregate_weight engagement_of posts (fst kv))
            (rank_entries posts)
  /\ ranked (aggregate_weight engagement_of posts) (first_seen posts)
            (map fst (rank_entries posts)).
Proof.
  destruct (keywordMap_entries posts) as (K & N & W).
  unfold rank_entries.
  set (m := fold_left add_post posts []) in *.
  pose proof (Array_sort_perm (fun a b => snd b - snd a) m) as P.
  assert (V : forall kv,
             In kv (Array_sort (fun a b => snd b - snd a) m) ->
             snd kv == aggregate_weight engagement_of posts (fst kv)).
  { intros [k v] I. apply (Permutation_in _ P) in I. now apply W. }
  split; [| split].
  - rewrite <- K. now apply Permutation_map.
  - apply Forall_forall. exact V.
  - unfold ranked. rewrite <- K.
    apply (StronglySorted_map fst (ranks_by snd (before m)));
      [| apply Array_sort_sorted].
    intros x y Ix Iy R. unfold ranks_by in *.
    rewrite <- (V x Ix), <- (V y Iy).
    destruct R as [L | [L B]]; [now left | right].
    split; [exact L | now apply before_map].
Qed.

(** C3. On an empty history, and on a history whose posts have no keyword
    field, [getTopKeywordsFromHistory] answers the empty list; the five
    default keywords are answered only when the history query fails. *)
Theorem getTopKeywordsFromHistory_empty_history :
  getTopKeywordsFromHistory (inr []) = []
  /\ getTopKeywordsFromHistory (inr [post_without_keywords]) = []
  /\ (forall e : exn, getTopKeywordsFromHistory (inl e) = getDefaultKeywords)
  /\ List.length getDefaultKeywords = 5%nat.
Proof. repeat split. Qed.

(** C4 (as amended). The ranked keywords are the first twenty of the
    keywords of the history put in descending order of their aggregate
    weight, ties in first-seen order, where a post adds its engagement
    score, or 1 when the score is absent or 0, to each entry of its
    keyword list; the two posts of the design document yield a with
    weight 15 before b with weight 5. *)
Theorem getTopKeywordsFromHistory_ranked :
  (forall posts : list BlogPost,
      getTopKeywordsFromHistory (inr posts)
      = firstn 20 (map fst (rank_entries posts))
      /\ Permutation (map fst (rank_entries posts)) (first_seen posts)
      /\ Forall
           (fun kv => snd kv == aggregate_weight engagement_of posts (fst kv))
           (rank_entries posts)
      /\ ranked (aggregate_weight engagement_of posts) (first_seen posts)
                (map fst (rank_entries posts))
      /\ ranked (aggregate_weight engagement_of posts) (first_seen posts)
                (getTopKeywordsFromHistory (inr posts)))
  /\ rank_entries sample_posts = [("a"%string, 15); ("b"%string, 5)]
  /\ getTopKeywordsFromHistory (inr sample_posts) = ["a"; "b"]%string.
Proof.
  split; [| split; reflexivity].
  intros posts. destruct (rank_entries_ranked posts) as (P & W & R).
  assert (E : getTopKeywordsFromHistory (inr posts)
              = firstn 20 (map fst (rank_entries posts))).
  { unfold getTopKeywordsFromHistory. symmetry. apply firstn_map. }
  repeat split; try assumption.
  rewrite E. now apply StronglySorted_firstn.
Qed.

(** C4, the claim as stated fails: a post with a score of 0 counts for 1,
    so its keyword stays in front of the keyword of a later post with a
    score of 1, although its total in the words of the claim is 0. *)
Lemma getTopKeywordsFromHistory_zero_score_not_ranked :
  ~ ranked (aggregate_weight spec_engagement_of zero_score_posts)
           (first_seen zero_score_posts)
           (getTopKeywordsFromHistory (inr zero_score_posts)).
Proof.
  change (getTopKeywordsFromHistory (inr zero_score_posts))
    with ["a"; "b"]%string.
  intros R. inversion R as [| ? ? _ F]; subst.
  inversion F as [| ? ? [L | [L _]] _]; subst; vm_compute in L;
    discriminate L.
Qed.

End Ranking.

(* ================================================================== *)
(** * Part III: further properties of the sources *)
(* ================================================================== *)

(** ** The text metrics of the SEO service *)

Section SeoMetricsFacts.
Import Seo.
Open Scope Q_scope.

Lemma includes_empty (w : string) : includes w EmptyString = true.
Proof. destruct w; reflexivity. Qed.

Lemma filter_all {A} (f : A -> bool) (l : list A) :
  (forall x, In x l -> f x = true) -> filter f l = l.
Proof.
  induction l as [| x t IH]; intros H; simpl; [reflexivity |].
  rewrite (H x) by now left. f_equal. apply IH. intros y I. apply H. now right.
Qed.

(** X1. The keyword density is always between 0 and 3 (the word list is
    never empty, so nothing is divided by zero), and for the empty
    keyword, which every word includes, it is the cap 3 whatever the
    text. *)
Theorem calculateKeywordDensity_capped :
  (forall content keyword : string,
      0 <= calculateKeywordDensity content keyword <= 3)
  /\ (forall content : string,
         calculateKeywordDensity content EmptyString == 3).
Proof.
  split; [apply calculateKeywordDensity_range |].
  intros content. unfold calculateKeywordDensity, Math_min.
  cbn [toLowerCase].
  set (words := words_of (toLowerCase content)).
  rewrite (filter_all _ words) by (intros; apply includes_empty).
  pose proof (len_positive words (split_on_nonempty _ _)) as W.
  apply Q.min_r.
  assert (E : len words / len words * 100 == 100).
  { unfold Qdiv. rewrite Qmult_inv_r; [reflexivity |].
    intros Z. rewrite Z in W. discriminate W. }
  rewrite E. discriminate.
Qed.

Lemma trimStart_spaces (s : string) :
  string_forall is_space s = true -> trimStart s = EmptyString.
Proof.
  induction s as [| c t IH]; simpl; [reflexivity |].
  intros H. apply andb_true_iff in H. destruct H as [C T].
  rewrite C. now apply IH.
Qed.

Lemma trim_spaces (s : string) :
  string_forall is_space s = true -> trim s = EmptyString.
Proof.
  intros H. unfold trim. rewrite (trimStart_spaces s H). reflexivity.
Qed.

Lemma string_forall_rev_onto (f : ascii -> bool) (s acc : string) :
  string_forall f s = true -> string_forall f acc = true ->
  string_forall f (string_rev_onto acc s) = true.
Proof.
  revert acc. induction s as [| c t IH]; intros acc Hs Ha; simpl; [exact Ha |].
  simpl in Hs. apply andb_true_iff in Hs. destruct Hs as [C T].
  apply IH; [exact T |]. simpl. now rewrite C.
Qed.

(** The pieces of a split hold characters of the text that are no
    separators. *)
Lemma split_on_from_pieces (sep f : ascii -> bool) (s cur : string)
  (in_sep : bool) :
  (forall c, sep c = false -> f c = true -> True) ->
  string_forall (fun c => sep c || f c) s = true ->
  string_forall f cur = true ->
  Forall (fun piece => string_forall f piece = true)
         (split_on_from sep in_sep cur s).
Proof.
  intros _. revert cur in_sep.
  induction s as [| c t IH]; intros cur in_sep Hs Hc; simpl.
  - constructor; [| constructor].
    unfold string_rev. now apply string_forall_rev_onto.
  - simpl in Hs. apply andb_true_iff in Hs. destruct Hs as [C T].
    destruct (sep c) eqn:S.
    + destruct in_sep.
      * now apply IH.
      * constructor.
        -- unfold string_rev. now apply string_forall_rev_onto.
        -- now apply IH.
    + simpl in C. apply IH; [exact T |]. simpl. now rewrite C.
Qed.

Lemma filter_none {A} (f : A -> bool) (l : list A) :
  Forall (fun x => f x = false) l -> filter f l = [].
Proof.
  induction 1 as [| x t H _ IH]; simpl; [reflexivity |]. now rewrite H.
Qed.

(** X2. The readability score is always between 0 and 100, and a text
    made of white space and sentence punctuation only (the empty text
    among them) has no sentence and scores 0. *)
Theorem calculateReadabilityScore_clamped :
  (forall content : string, 0 <= calculateReadabilityScore content <= 100)
  /\ (forall content : string,
         string_forall (fun c => is_sentence_end c || is_space c) content = true ->
         calculateReadabilityScore content = 0).
Proof.
  split; [apply calculateReadabilityScore_range |].
  intros content H. unfold calculateReadabilityScore.
  assert (P : Forall (fun piece => string_forall is_space piece = true)
                     (split_on is_sentence_end content)).
  { apply split_on_from_pieces; auto. }
  rewrite filter_none; [reflexivity |].
  eapply Forall_impl; [| exact P].
  intros piece S. cbv beta. now rewrite trim_spaces.
Qed.

Lemma calculateReadabilityScore_clamped_witness :
  string_forall (fun c => is_sentence_end c || is_space c) " ... ?! " = true
  /\ calculateReadabilityScore " ... ?! " = 0.
Proof.
  assert (H : string_forall (fun c => is_sentence_end c || is_space c)
                " ... ?! " = true) by reflexivity.
  split; [exact H |].
  exact (proj2 calculateReadabilityScore_clamped _ H).
Defined.

Lemma estimateSyllables_min (word : string) : 1 <= estimateSyllables word.
Proof. unfold estimateSyllables, Math_max. apply Q.le_max_l. Qed.

Lemma fold_syllables (words : list string) (acc : Q) :
  acc + len words
  <= fold_left (fun syllableCount word => syllableCount + estimateSyllables word)
               words acc.
Proof.
  revert acc. induction words as [| w t IH]; intros acc.
  - cbn [fold_left]. unfold len. cbn [List.length Z.of_nat].
    change (inject_Z 0) with 0. lra.
  - cbn [fold_left]. pose proof (IH (acc + estimateSyllables w)) as H.
    pose proof (estimateSyllables_min w) as M.
    assert (E : len (w :: t) == 1 + len t).
    { unfold len. cbn [List.length]. rewrite Nat2Z.inj_succ.
      unfold Z.succ. rewrite inject_Z_plus. change (inject_Z 1) with 1. ring. }
    rewrite E. lra.
Qed.

(** X3. Every token counts for at least one syllable, vowels or not, so
    a text has at least as many syllables as it has tokens, and at least
    one. *)
Theorem countSyllables_at_least_words (text : string) :
  len (words_of text) <= countSyllables text /\ 1 <= countSyllables text.
Proof.
  assert (L : len (words_of text) <= countSyllables text).
  { unfold countSyllables.
    pose proof (fold_syllables (words_of text) 0) as H. lra. }
  split; [exact L |].
  pose proof (len_positive (words_of text) (split_on_nonempty _ _)) as W.
  unfold len in *. change 1 with (inject_Z 1).
  change 0 with (inject_Z 0) in W. rewrite <- Zlt_Qlt in W.
  apply Qle_trans with (inject_Z (Z.of_nat (List.length (words_of text))));
    [rewrite <- Zle_Qle; lia | exact L].
Qed.

End SeoMetricsFacts.

(** ** Recommendations and score of the orchestrator *)

Section SeoScoreFacts.
Import Seo.
Open Scope Q_scope.

Lemma score_is_rounded (a : SEOAnalysis) :
  0 <= readabilityScore a <= 100 ->
  exists z : Z, calculateSEOScore a = inject_Z z /\ (20 <= z <= 100)%Z.
Proof.
  intros [R0 R1]. rewrite calculateSEOScore_sum.
  pose proof (density_points_bounds (keywordDensity a)) as D.
  pose proof (heading_points_bounds (headingStructure a)) as H.
  pose proof (penalty_bounds (recommendations a)) as P.
  pose proof (readability_points (readabilityScore a)) as E.
  eexists. split; [reflexivity |].
  split.
  - rewrite Zle_Qle. apply (Math_round_lower 20).
    change (inject_Z 20) with 20. lra.
  - rewrite Zle_Qle. apply (Math_round_upper 100).
    change (inject_Z 100) with 100. lra.
Qed.

(** X4. Whatever the provider does and whatever the draft, the score
    [analyzeContent] reports is a whole number between 20 and 100. *)
Theorem analyzeContent_score_whole_in_range
  (seoProvider : ISEOProvider_analyzeContent) (content keyword title : string) :
  exists (a : SEOAnalysis) (z : Z),
    analyzeContent seoProvider content keyword title = inr a
    /\ score a = inject_Z z /\ (20 <= z <= 100)%Z.
Proof.
  destruct (analyzeContent_result seoProvider content keyword title)
    as (ext & recs & -> & _).
  eexists. cbv [score].
  match goal with
  | |- context [calculateSEOScore ?x] =>
      destruct (score_is_rounded x) as (z & E & B)
  end.
  - cbv [readabilityScore]. apply calculateReadabilityScore_range.
  - exists z. split; [reflexivity |]. split; [exact E | exact B].
Qed.

Lemma stuffing_rule_silent (a : SEOAnalysis) (content : string) :
  keywordDensity a <= 3 ->
  Forall (fun r => startsWith r "Reduce keyword stuffing" = false)
         (generateRecommendations a content).
Proof.
  intros D. unfold generateRecommendations.
  apply gtb_false in D. rewrite D.
  destruct (ltb (keywordDensity a) 0.5), (ltb (readabilityScore a) 60),
    (negb (headingStructure a)), (List.length (words_of content) <? 300)%nat;
    cbn [push app]; repeat constructor.
Qed.

(** X5. The rule against keyword stuffing never fires on a density of at
    most 3; the density the orchestrator computes is capped at 3, so none
    of its local recommendations is about stuffing. *)
Theorem stuffing_recommendation_unreachable :
  (forall (a : SEOAnalysis) (content : string),
      keywordDensity a <= 3 ->
      Forall (fun r => startsWith r "Reduce keyword stuffing" = false)
             (generateRecommendations a content))
  /\ (forall content keyword : string,
         Forall (fun r => startsWith r "Reduce keyword stuffing" = false)
                (generateRecommendations (local_analysis content keyword)
                                         content)).
Proof.
  split; [exact stuffing_rule_silent |].
  intros content keyword. apply stuffing_rule_silent.
  cbv [local_analysis keywordDensity]. apply calculateKeywordDensity_range.
Qed.

Lemma stuffing_recommendation_unreachable_witness :
  keywordDensity (local_analysis "seo seo seo" "seo") <= 3
  /\ Forall (fun r => startsWith r "Reduce keyword stuffing" = false)
            (generateRecommendations (local_analysis "seo seo seo" "seo")
                                     "seo seo seo").
Proof.
  assert (D : keywordDensity (local_analysis "seo seo seo" "seo") <= 3)
    by (vm_compute; discriminate).
  split; [exact D |].
  exact (proj1 stuffing_recommendation_unreachable _ _ D).
Defined.

Lemma saturated_density_points (d : Q) : d == 3 -> spec_density_points d == 10.
Proof.
  intros E. unfold spec_density_points.
  destruct (Qlt_le_dec (1 # 2) d); [| reflexivity].
  destruct (Qlt_le_dec d 3) as [L | L]; [| reflexivity].
  rewrite E in L. discriminate L.
Qed.

(** X6. A draft whose density reaches the cap of 3 gets the flat 10
    points of the density bucket, not 25: its score is at most 85, and it
    gets no advice about density, neither to raise nor to lower it. *)
Theorem saturated_density_scores_at_most_85
  (seoProvider : ISEOProvider_analyzeContent) (content keyword title : string) :
  calculateKeywordDensity content keyword == 3 ->
  exists a : SEOAnalysis,
    analyzeContent seoProvider content keyword title = inr a
    /\ keywordDensity a == 3
    /\ score a <= 85
    /\ Forall
         (fun r =>
            startsWith r "Increase keyword density" = false
            /\ startsWith r "Reduce keyword stuffing" = false)
         (generateRecommendations (local_analysis content keyword) content).
Proof.
  intros E.
  destruct (analyzeContent_result seoProvider content keyword title)
    as (ext & recs & -> & _).
  eexists. split; [reflexivity |]. cbv [keywordDensity score].
  split; [exact E |]. split.
  - rewrite calculateSEOScore_sum.
    cbv [keywordDensity readabilityScore headingStructure recommendations].
    pose proof (saturated_density_points _ E) as D.
    pose proof (calculateReadabilityScore_range content) as R.
    pose proof (heading_points_bounds (checkHeadingStructure content)) as H.
    pose proof (penalty_bounds recs) as P.
    pose proof (readability_points (calculateReadabilityScore content)) as Q.
    apply (Math_round_upper 85). change (inject_Z 85) with 85. lra.
  - unfold generateRecommendations.
    cbv [local_analysis keywordDensity readabilityScore headingStructure].
    assert (L : ltb (calculateKeywordDensity content keyword) 0.5 = false)
      by (apply ltb_false; rewrite E; discriminate).
    assert (G : gtb (calculateKeywordDensity content keyword) 3 = false)
      by (apply gtb_false; rewrite E; discriminate).
    rewrite L, G.
    destruct (ltb (calculateReadabilityScore content) 60),
      (negb (checkHeadingStructure content)),
      (List.length (words_of content) <? 300)%nat;
      cbn [push app]; repeat constructor.
Qed.

Lemma saturated_density_scores_at_most_85_witness :
  calculateKeywordDensity "seo seo seo" "seo" == 3
  /\ exists a : SEOAnalysis,
       analyzeContent failing_provider "seo seo seo" "seo" "T" = inr a
       /\ keywordDensity a == 3
       /\ score a <= 85
       /\ Forall
            (fun r =>
               startsWith r "Increase keyword density" = false
               /\ startsWith r "Reduce keyword stuffing" = false)
            (generateRecommendations (local_analysis "seo seo seo" "seo")
                                     "seo seo seo").
Proof.
  assert (E : calculateKeywordDensity "seo seo seo" "seo" == 3) by reflexivity.
  split; [exact E |].
  exact (saturated_density_scores_at_most_85 failing_provider
           "seo seo seo" "seo" "T" E).
Defined.

(** X7. [optimizeContent] hands the draft back unchanged, whatever the
    analysis says: both of its rewriting steps return their input. *)
Theorem optimizeContent_unchanged (content keyword : string)
  (analysis : SEOAnalysis) :
  optimizeContent content keyword analysis = content.
Proof.
  unfold optimizeContent, incorporateKeywordVariations, improveHeadingStructure.
  destruct (ltb (keywordDensity analysis) 0.5),
    (negb (headingStructure analysis)); reflexivity.
Qed.

End SeoScoreFacts.

(** ** The search-results provider *)

Section SerpApiFacts.
Import Seo.
Open Scope Q_scope.

Lemma gtb_cases (a b : Q) : (gtb a b = true /\ b < a) \/ (gtb a b = false /\ a <= b).
Proof.
  destruct (gtb a b) eqn:G; [left | right]; split; try reflexivity;
    [now apply gtb_true | now apply gtb_false].
Qed.

Ltac split_gtb :=
  repeat match goal with
         | |- context [gtb ?a ?b] =>
             let H := fresh "G" in
             destruct (gtb_cases a b) as [[-> H] | [-> H]]
         end.

(** X8. The difficulty read off a response is one of 25, 40, 55, 70 and
    85; it is 25 when the response carries no result count, and it never
    decreases when the result count grows. *)
Theorem calculateDifficulty_steps :
  (forall data : SerpApi.SerpApiResponse,
      In (SerpApi.calculateDifficulty data) [25; 40; 55; 70; 85])
  /\ (forall data : SerpApi.SerpApiResponse,
         SerpApi.search_information data = None ->
         SerpApi.calculateDifficulty data = 25)
  /\ (forall (d1 d2 : SerpApi.SerpApiResponse) (n1 n2 : Q),
         SerpApi.search_information d1
         = Some {| SerpApi.total_results := Some n1 |} ->
         SerpApi.search_information d2
         = Some {| SerpApi.total_results := Some n2 |} ->
         n1 <= n2 ->
         SerpApi.calculateDifficulty d1 <= SerpApi.calculateDifficulty d2).
Proof.
  split; [| split].
  - intros data. unfold SerpApi.calculateDifficulty. split_gtb; simpl; tauto.
  - intros data E. unfold SerpApi.calculateDifficulty. rewrite E. reflexivity.
  - intros d1 d2 n1 n2 E1 E2 L. unfold SerpApi.calculateDifficulty.
    rewrite E1, E2. cbn [SerpApi.total_results].
    pose proof (num_or_zero n1) as Z1. pose proof (num_or_zero n2) as Z2.
    split_gtb; lra.
Qed.

Lemma calculateDifficulty_steps_witness :
  let d1 := {| SerpApi.organic_results := None; SerpApi.answer_box := None;
               SerpApi.search_information :=
                 Some {| SerpApi.total_results := Some 2000000 |};
               SerpApi.ads := None |} in
  let d2 := {| SerpApi.organic_results := None; SerpApi.answer_box := None;
               SerpApi.search_information :=
                 Some {| SerpApi.total_results := Some 50000000 |};
               SerpApi.ads := None |} in
  SerpApi.search_information d1 = Some {| SerpApi.total_results := Some 2000000 |}
  /\ SerpApi.search_information d2
     = Some {| SerpApi.total_results := Some 50000000 |}
  /\ 2000000 <= 50000000
  /\ SerpApi.calculateDifficulty d1 <= SerpApi.calculateDifficulty d2.
Proof.
  intros d1 d2.
  assert (L : 2000000 <= 50000000) by discriminate.
  split; [reflexivity |]. split; [reflexivity |]. split; [exact L |].
  exact (proj2 (proj2 calculateDifficulty_steps) d1 d2 _ _ eq_refl eq_refl L).
Defined.

Lemma provider_density_range (content keyword : string) :
  0 <= SerpApi.calculateKeywordDensity content keyword <= 5.
Proof.
  unfold SerpApi.calculateKeywordDensity, Math_min.
  set (words := split_on is_space (toLowerCase content)).
  set (hits := filter _ words).
  pose proof (len_positive words (split_on_nonempty _ _)) as W.
  pose proof (len_nonneg hits) as H.
  split; [| apply Q.le_min_r].
  apply Q.min_glb; [| discriminate].
  apply Qmult_le_0_compat; [| discriminate].
  apply Qle_shift_div_l; [exact W | lra].
Qed.

Lemma provider_readability_range (content : string) :
  0 <= SerpApi.calculateReadability content <= 100.
Proof.
  unfold SerpApi.calculateReadability, Math_max, Math_min.
  split; [apply Q.le_max_l |].
  apply Q.max_lub; [discriminate | apply Q.le_min_l].
Qed.

Lemma provider_recommendations_length (content keyword : string)
  (topResults : list SerpApi.SerpApiOrganicResult) :
  (List.length (SerpApi.generateRecommendations content keyword topResults) <= 3)%nat.
Proof.
  unfold SerpApi.generateRecommendations. cbv zeta.
  rewrite length_firstn. etransitivity; [apply Nat.le_min_r |].
  set (kd := SerpApi.calculateKeywordDensity content keyword).
  destruct (ltb kd 0.5) eqn:L; destruct (gtb kd 3) eqn:G;
    [apply ltb_true in L; apply gtb_true in G; exfalso; lra | | |];
    repeat match goal with
           | |- context [if ?c then _ else _] => destruct c
           end;
    cbn [app List.length]; lia.
Qed.

Lemma filter_truthy_spec (l : list string) :
  (List.length (SerpApi.filter_truthy l) <= List.length l)%nat
  /\ Forall (fun s => s <> EmptyString) (SerpApi.filter_truthy l).
Proof.
  unfold SerpApi.filter_truthy. split; [apply filter_length_le |].
  apply Forall_forall. intros x I. apply filter_In in I.
  destruct I as [_ T]. now destruct x.
Qed.

(** The answer of the provider carries at most three recommendations,
    whether the request succeeded or not. *)
Lemma provider_answer_recommendations
  (response : settled SerpApi.SerpApiResponse) (content keyword : string) :
  (List.length (ext_recommendations
                  (SerpApi.analyzeContent response content keyword)) <= 3)%nat.
Proof.
  destruct response as [e | data];
    cbn [SerpApi.analyzeContent ext_recommendations];
    [simpl; lia | apply provider_recommendations_length].
Qed.

(** X9. The provider's [analyzeContent] always answers: its score lies
    between 15 and 57 (the cap at 100 is never reached), its density
    between 0 and 5, its readability between 0 and 100; it gives at most
    three recommendations, so its cut at five never bites, and at most
    three competitor addresses, none of them empty. *)
Theorem provider_analyzeContent_bounds
  (response : settled SerpApi.SerpApiResponse) (content keyword : string) :
  15 <= ext_score (SerpApi.analyzeContent response content keyword) <= 57
  /\ 0 <= ext_keywordDensity (SerpApi.analyzeContent response content keyword) <= 5
  /\ 0 <= ext_readability (SerpApi.analyzeContent response content keyword) <= 100
  /\ match response with
     | inl _ =>
         ext_recommendations (SerpApi.analyzeContent response content keyword)
         = ["Unable to fetch competitor data"%string]
     | inr _ => True
     end
  /\ (List.length (ext_recommendations
                     (SerpApi.analyzeContent response content keyword)) <= 3)%nat
  /\ exists urls : list string,
       ext_competitorUrls (SerpApi.analyzeContent response content keyword)
       = Some urls
       /\ (List.length urls <= 3)%nat
       /\ Forall (fun u => u <> EmptyString) urls.
Proof.
  destruct response as [e | data]; cbn [SerpApi.analyzeContent].
  - cbn. repeat split; try discriminate.
    + lia.
    + exists []. repeat split; [simpl; lia | constructor].
  - cbn [ext_score ext_keywordDensity ext_readability ext_recommendations
           ext_competitorUrls].
    pose proof (provider_density_range content keyword) as D.
    pose proof (provider_readability_range content) as R.
    split; [| split; [exact D | split; [exact R | split; [| split]]]].
    + set (d := SerpApi.calculateKeywordDensity content keyword) in *.
      set (r := SerpApi.calculateReadability content) in *.
      assert (E : (d * 0.3 + r * 0.4 + 50 * 0.3) / 1
                  == d * (3 # 10) + r * (2 # 5) + 15) by field.
      rewrite (Math_round_comp _ _ E).
      pose proof (Math_round_lower 15 (d * (3 # 10) + r * (2 # 5) + 15)) as Lo.
      pose proof (Math_round_upper 57 (d * (3 # 10) + r * (2 # 5) + 15)) as Hi.
      change (inject_Z 15) with 15 in Lo. change (inject_Z 57) with 57 in Hi.
      unfold Math_min. split.
      * apply Q.min_glb; [discriminate | apply Lo; lra].
      * eapply Qle_trans; [apply Q.le_min_r | apply Hi; lra].
    + exact I.
    + apply provider_recommendations_length.
    + eexists. split; [reflexivity |].
      destruct (filter_truthy_spec
                  (map (fun r => SerpApi.opt_str_or (SerpApi.link r) EmptyString)
                       (firstn 3 (SerpApi.list_or (SerpApi.organic_results data)))))
        as [L F].
      split; [| exact F].
      rewrite length_map in L.
      pose proof (firstn_le_length 3
                    (SerpApi.list_or (SerpApi.organic_results data))).
      lia.
Qed.

(** X10. With the search-results provider plugged in, the orchestrator
    never takes its own fallback: the provider's answer is always
    attached, its recommendations come first, and there are at most seven
    in all.  When the request succeeds the local density is the
    provider's density cut at 3; when it fails the first recommendation
    is the provider's notice and the local ones follow. *)
Theorem analyzeContent_with_serpapi
  (axios_get : string -> settled SerpApi.SerpApiResponse)
  (content keyword title : string) :
  exists a : SEOAnalysis,
    analyzeContent (SerpApi.provider axios_get) content keyword title = inr a
    /\ externalData a
       = Some (SerpApi.analyzeContent (axios_get keyword) content keyword)
    /\ recommendations a
       = (ext_recommendations
            (SerpApi.analyzeContent (axios_get keyword) content keyword)
            ++ generateRecommendations (local_analysis content keyword) content)%list
    /\ (List.length (recommendations a) <= 7)%nat
    /\ match axios_get keyword with
       | inr _ =>
           keywordDensity a
           == Qmin (ext_keywordDensity
                      (SerpApi.analyzeContent (axios_get keyword) content keyword))
                   3
       | inl _ =>
           recommendations a
           = ("Unable to fetch competitor data"%string
                :: generateRecommendations (local_analysis content keyword) content)
       end.
Proof.
  destruct (analyzeContent_result (SerpApi.provider axios_get) content keyword
              title) as (ext & recs & -> & H).
  unfold SerpApi.provider in H. destruct H as [-> ->].
  eexists. split; [reflexivity |].
  cbv [externalData recommendations keywordDensity].
  split; [reflexivity |]. split; [reflexivity |]. split.
  - rewrite length_app.
    pose proof (provider_answer_recommendations (axios_get keyword) content
                  keyword) as L.
    pose proof (generateRecommendations_length (local_analysis content keyword)
                  content). lia.
  - destruct (axios_get keyword) as [e | data]; [reflexivity |].
    cbn [SerpApi.analyzeContent ext_keywordDensity].
    unfold calculateKeywordDensity, SerpApi.calculateKeywordDensity, Math_min,
      words_of.
    rewrite <- Q.min_assoc. reflexivity.
Qed.

Lemma append_nonempty_r (a b : string) :
  b <> EmptyString -> (a ++ b)%string <> EmptyString.
Proof. destruct a; simpl; [auto | discriminate]. Qed.

(** X11. [getKeywordSuggestions] always answers between one and ten
    suggestions, none of them empty: empty ones are dropped, and when
    nothing is left, or the request fails, the five built from the seed
    are answered. *)
Theorem getKeywordSuggestions_never_empty
  (response : settled SerpApi.SerpApiResponse) (seed : string) :
  (1 <= List.length (SerpApi.getKeywordSuggestions response seed) <= 10)%nat
  /\ Forall (fun s => s <> EmptyString)
            (SerpApi.getKeywordSuggestions response seed).
Proof.
  assert (D : (1 <= List.length (SerpApi.generateDefaultSuggestions seed) <= 10)%nat
              /\ Forall (fun s => s <> EmptyString)
                        (SerpApi.generateDefaultSuggestions seed)).
  { split; [simpl; lia |]. unfold SerpApi.generateDefaultSuggestions.
    repeat constructor; try (apply append_nonempty_r; discriminate).
    discriminate. }
  destruct response as [e | data]; cbn [SerpApi.getKeywordSuggestions];
    [exact D |].
  cbv zeta.
  match goal with
  | |- context [SerpApi.filter_truthy ?l] =>
      destruct (filter_truthy_spec l) as [L F];
      set (sugg := SerpApi.filter_truthy l) in *;
      assert (B : (List.length l <= 10)%nat)
  end.
  { rewrite length_map. apply firstn_le_length. }
  destruct (Nat.ltb_spec 0 (List.length sugg)); [| exact D].
  split; [lia | exact F].
Qed.

Lemma StronglySorted_filter {A} (R : A -> A -> Prop) (f : A -> bool)
  (l : list A) :
  StronglySorted R l -> StronglySorted R (filter f l).
Proof.
  induction 1 as [| x t S IH F]; simpl; [constructor |].
  destruct (f x); [| exact IH].
  constructor; [exact IH |].
  rewrite Forall_forall in *. intros y I. apply filter_In in I. now apply F.
Qed.

Lemma Forall_filter {A} (P : A -> Prop) (f : A -> bool) (l : list A) :
  Forall P l -> Forall (fun x => P x /\ f x = true) (filter f l).
Proof.
  intros H. apply Forall_forall. intros x I. apply filter_In in I.
  destruct I as [I T]. split; [| exact T].
  rewrite Forall_forall in H. now apply H.
Qed.

Lemma competitors_ranked (l : list SerpApi.SerpApiOrganicResult) (i : nat) :
  let cs :=
    Calendar.mapi_from
      (fun r rank =>
         {| SerpApi.url := SerpApi.opt_str_or (SerpApi.link r) EmptyString;
            SerpApi.rank := inject_Z (Z.of_nat rank) + 1;
            SerpApi.c_title := SerpApi.opt_str_or (SerpApi.title r) EmptyString;
            SerpApi.c_snippet := SerpApi.opt_str_or (SerpApi.snippet r) EmptyString;
            SerpApi.authority :=
              SerpApi.estimateAuthority (inject_Z (Z.of_nat rank)) |})
      i l in
  Forall (fun c =>
            exists k : nat,
              (i <= k < i + List.length l)%nat
              /\ SerpApi.rank c == inject_Z (Z.of_nat k) + 1
              /\ SerpApi.authority c
                 = SerpApi.estimateAuthority (inject_Z (Z.of_nat k))) cs
  /\ StronglySorted (fun c1 c2 => SerpApi.rank c1 < SerpApi.rank c2) cs.
Proof.
  cbv zeta. revert i. induction l as [| r t IH]; intros i.
  - simpl. split; constructor.
  - cbn [Calendar.mapi_from List.length]. destruct (IH (S i)) as [F S].
    split.
    + constructor.
      * exists i. cbn. split; [lia |]. split; reflexivity.
      * eapply Forall_impl; [| exact F].
        intros c (k & B & R & A). exists k. split; [lia | now split].
    + constructor; [exact S |].
      eapply Forall_impl; [| exact F].
      intros c (k & B & R & _). cbn [SerpApi.rank]. rewrite R.
      assert (inject_Z (Z.of_nat i) < inject_Z (Z.of_nat k))
        by (rewrite <- Zlt_Qlt; lia).
      lra.
Qed.

(** X12. [getCompetitorAnalysis] lists at most five competitors, none
    with an empty address, in strictly increasing rank; a competitor
    keeps the rank of its place among the results, from 1 to 5, and its
    authority is 100 minus 15 per place below the first, so the floor of
    20 is never reached.  A failed request gives the empty list. *)
Theorem getCompetitorAnalysis_top_five
  (response : settled SerpApi.SerpApiResponse) :
  (List.length (SerpApi.getCompetitorAnalysis response) <= 5)%nat
  /\ Forall
       (fun c =>
          SerpApi.url c <> EmptyString
          /\ exists k : nat,
               (k < 5)%nat
               /\ SerpApi.rank c == inject_Z (Z.of_nat k) + 1
               /\ SerpApi.authority c == 100 - 15 * inject_Z (Z.of_nat k)
               /\ 40 <= SerpApi.authority c <= 100)
       (SerpApi.getCompetitorAnalysis response)
  /\ StronglySorted (fun c1 c2 => SerpApi.rank c1 < SerpApi.rank c2)
                    (SerpApi.getCompetitorAnalysis response)
  /\ match response with
     | inl _ => SerpApi.getCompetitorAnalysis response = []
     | inr _ => True
     end.
Proof.
  destruct response as [e | data]; cbn [SerpApi.getCompetitorAnalysis].
  - repeat split; try constructor. simpl. lia.
  - cbv zeta.
    set (top := firstn 5 (SerpApi.list_or (SerpApi.organic_results data))).
    assert (T : (List.length top <= 5)%nat) by apply firstn_le_length.
    destruct (competitors_ranked top 0) as [F S]. cbv zeta in F, S.
    split; [| split; [| split; [| exact I]]].
    + etransitivity; [apply filter_length_le |].
      now rewrite mapi_from_length.
    + eapply Forall_impl; [| apply Forall_filter; exact F].
      intros c [(k & B & R & A) U]. split.
      * intros E. rewrite E in U. discriminate U.
      * exists k. split; [lia |]. split; [exact R |].
        rewrite A. unfold SerpApi.estimateAuthority, Math_max.
        assert (K : 0 <= inject_Z (Z.of_nat k) <= 4).
        { change 0 with (inject_Z 0). change 4 with (inject_Z 4).
          rewrite <- !Zle_Qle. lia. }
        assert (M : Qmax 20 (100 - inject_Z (Z.of_nat k) * 15)
                    == 100 - 15 * inject_Z (Z.of_nat k)).
        { rewrite Q.max_r; [ring | lra]. }
        split; [exact M |]. rewrite M. lra.
    + apply StronglySorted_filter. exact S.
Qed.

End SerpApiFacts.

(** ** The publishing days *)

Section PublishingDaysFacts.
Import JSDate Calendar.
Open Scope Z_scope.

Lemma seq_sorted (a k : nat) : StronglySorted Z.lt (map Z.of_nat (seq a k)).
Proof.
  revert a. induction k as [| k IH]; intros a; simpl; constructor.
  - apply IH.
  - apply Forall_forall. intros x I. apply in_map_iff in I.
    destruct I as (n & <- & I). apply in_seq in I. lia.
Qed.

Lemma MakeDay_shift (y m d : Z) : MakeDay y m d = MakeDay y m 0 + d.
Proof. unfold MakeDay. lia. Qed.

Lemma is_optimal_day_residue (month year d : Z) :
  100 <= year ->
  is_optimal_day month year d
  = (let w := ((MakeDay year (month - 1) 0 + 4) mod 7 + d) mod 7 in
     (2 <=? w) && (w <=? 4)).
Proof.
  intros Hy. unfold is_optimal_day. rewrite Date_new_year by exact Hy.
  cbn [getDay]. unfold WeekDay. rewrite MakeDay_shift.
  rewrite Z.add_mod_idemp_l by lia.
  replace (MakeDay year (month - 1) 0 + d + 4)
    with (MakeDay year (month - 1) 0 + 4 + d) by lia.
  reflexivity.
Qed.

(** Whatever the day of the week a month begins with, it holds between
    twelve and fifteen days from Tuesday to Thursday. *)
Lemma optimal_count (r n : Z) :
  0 <= r <= 6 -> 28 <= n <= 31 ->
  (12 <= List.length
           (filter (fun d : Z =>
                      (let w := (r + d) mod 7 in (2 <=? w) && (w <=? 4))%Z)
                   (days_upto n)) <= 15)%nat.
Proof.
  intros Hr Hn.
  assert (R : r = 0 \/ r = 1 \/ r = 2 \/ r = 3 \/ r = 4 \/ r = 5 \/ r = 6) by lia.
  assert (N : n = 28 \/ n = 29 \/ n = 30 \/ n = 31) by lia.
  destruct R as [-> | [-> | [-> | [-> | [-> | [-> | ->]]]]]];
    destruct N as [-> | [-> | [-> | ->]]]; vm_compute; lia.
Qed.

(** X13. For a month from 1 to 12 of a year from 100 on (within the
    range of dates), the optimal publishing days are exactly the days of
    that month that fall on a Tuesday, a Wednesday or a Thursday, in
    increasing order, and there are between twelve and fifteen of them. *)
Theorem getOptimalPublishingDays_exact (month year : Z) :
  1 <= month <= 12 ->
  100 <= year <= 275759 ->
  (forall d : Z,
      In d (getOptimalPublishingDays month year)
      <-> 1 <= d <= days_in_month (month - 1) (InLeapYear year)
          /\ getMonth (Date_new year (month - 1) (Some d)) = Some (month - 1)
          /\ getDate (Date_new year (month - 1) (Some d)) = Some d
          /\ exists w, getDay (Date_new year (month - 1) (Some d)) = Some w
                       /\ 2 <= w <= 4)
  /\ StronglySorted Z.lt (getOptimalPublishingDays month year)
  /\ (12 <= List.length (getOptimalPublishingDays month year) <= 15)%nat.
Proof.
  intros Hm [Hy _].
  destruct (InLeapYear_cases year) as [L _].
  pose proof (days_in_month_bounds (month - 1) (InLeapYear year)
                ltac:(lia) ltac:(lia)) as B.
  split; [| split].
  - intros d. split.
    + intros I.
      assert (R : 1 <= d <= days_in_month (month - 1) (InLeapYear year)).
      { rewrite getOptimalPublishingDays_filter in I by assumption.
        apply filter_In in I. now apply days_upto_In. }
      destruct (optimal_day_In month year d Hm Hy I) as (t & -> & Y & M & D & W).
      cbn [getMonth getDate getDay]. rewrite M, D.
      split; [exact R |]. split; [reflexivity |]. split; [reflexivity |].
      now exists (WeekDay t).
    + intros (R & _ & _ & w & W & Bw).
      rewrite getOptimalPublishingDays_filter by assumption.
      apply filter_In. split; [now apply days_upto_In |].
      unfold is_optimal_day. rewrite W.
      apply andb_true_iff. rewrite !Z.leb_le. exact Bw.
  - rewrite getOptimalPublishingDays_filter by assumption.
    apply StronglySorted_filter. apply seq_sorted.
  - rewrite getOptimalPublishingDays_filter by assumption.
    rewrite (filter_ext _ _ (fun d => is_optimal_day_residue month year d Hy)).
    apply optimal_count; [| exact B].
    pose proof (Z.mod_pos_bound (MakeDay year (month - 1) 0 + 4) 7 ltac:(lia)).
    lia.
Qed.

Lemma getOptimalPublishingDays_exact_witness :
  1 <= 2 <= 12 /\ 100 <= 2024 <= 275759
  /\ StronglySorted Z.lt (getOptimalPublishingDays 2 2024)
  /\ (12 <= List.length (getOptimalPublishingDays 2 2024) <= 15)%nat.
Proof.
  assert (Hm : 1 <= 2 <= 12) by lia.
  assert (Hy : 100 <= 2024 <= 275759) by lia.
  split; [exact Hm |]. split; [exact Hy |].
  exact (proj2 (getOptimalPublishingDays_exact 2 2024 Hm Hy)).
Defined.

End PublishingDaysFacts.

(** ** The items of a calendar *)

Section CalendarItemFacts.
Import JSDate Calendar.
Open Scope nat_scope.

Lemma str_or_empty (s : string) : str_or s EmptyString = s.
Proof. now destruct s. Qed.

Lemma mapi_from_nth {A B} (f : A -> nat -> B) (l : list A) (i j : nat) :
  nth_error (mapi_from f i l) j
  = option_map (fun x => f x (i + j)) (nth_error l j).
Proof.
  revert i j. induction l as [| x t IH]; intros i [| j]; simpl; try reflexivity.
  - now rewrite Nat.add_0_r.
  - rewrite IH. now rewrite Nat.add_succ_comm.
Qed.

(** Where an item of the schedule comes from: it was in the calendar
    before, or it is the blog or the linkedin copy of one of the ideas. *)
Lemma schedule_from_nth (uuidv4 : nat -> string) (days : list Z)
  (month year : Z) (ideas : list ContentIdea) :
  Forall (fun idea => idea_platforms idea = Some ["blog"; "linkedin"]%string)
         ideas ->
  forall (calendar : list ContentItem) (i p : nat) (item : ContentItem),
    nth_error (schedule_from uuidv4 days month year calendar i ideas) p
    = Some item ->
    nth_error calendar p = Some item
    \/ exists (q : nat) (idea : ContentIdea),
         p = List.length calendar + q
         /\ nth_error ideas (q / 2) = Some idea
         /\ id item = uuidv4 p
         /\ title item = str_or (idea_title idea) EmptyString
         /\ description item = str_or (idea_description idea) EmptyString
         /\ keywords item = [str_or (idea_keyword idea) EmptyString]
         /\ platform item = (if Nat.even q then "blog" else "linkedin")%string
         /\ status item = scheduled
         /\ publishDate item
            = Date_new year (month - 1)
                (nth_error days ((i + q / 2) mod List.length days)).
Proof.
  induction 1 as [| idea rest P _ IH]; intros calendar i p item H.
  - left. exact H.
  - cbn [schedule_from] in H. apply IH in H. clear IH.
    unfold schedule_idea in H. rewrite P in H. cbn [fold_left] in H.
    rewrite !length_app in H. cbn [List.length] in H.
    rewrite <- app_assoc in H. cbn [app] in H.
    destruct H as [H | (q & idea' & -> & N & Hid & Ht & Hd & Hk & Hp & Hs & Hdate)].
    + destruct (Nat.lt_ge_cases p (List.length calendar)) as [Lt | Ge].
      * left. now rewrite nth_error_app1 in H.
      * right. rewrite nth_error_app2 in H by exact Ge.
        destruct (p - List.length calendar) as [| [| n]] eqn:E;
          cbn [nth_error] in H.
        -- injection H as <-. exists 0, idea.
           assert (p = List.length calendar) by lia. subst p.
           cbn. rewrite !Nat.add_0_r. repeat split; reflexivity.
        -- injection H as <-. exists 1, idea.
           assert (p = List.length calendar + 1) by lia. subst p.
           cbn. rewrite !Nat.add_0_r. repeat split; reflexivity.
        -- destruct n; discriminate H.
    + right. exists (S (S q)), idea'.
      assert (D : S (S q) / 2 = S (q / 2)).
      { replace (S (S q)) with (q + 1 * 2) by lia.
        rewrite Nat.div_add by lia. lia. }
      rewrite D. cbn [nth_error].
      split; [lia |]. split; [exact N |].
      split; [rewrite Hid; f_equal; lia |].
      repeat (split; [assumption |]).
      rewrite Hdate. do 3 f_equal. lia.
Qed.

Lemma build_length (uuidv4 : nat -> string) (kws : list string)
  (month year : Z) :
  List.length (build uuidv4 kws month year) = 2 * List.length kws.
Proof.
  pose proof (f_equal (@List.length _)
                (build_view (fun _ _ _ => tt) uuidv4 kws month year)) as V.
  cbv beta zeta in V. rewrite length_map in V. rewrite V.
  rewrite (flat_pairs_length (fun _ => tt) (fun _ => tt)), length_seq.
  reflexivity.
Qed.

(** X14. The item at place [p] of a calendar belongs to the keyword at
    place [p / 2]: it carries that keyword alone, the title is the
    content type of the keyword's turn (the five types in rotation), a
    colon and the keyword, the description is built from the keyword, and
    the blog copy comes before the linkedin copy. *)
Theorem build_item_content (uuidv4 : nat -> string) (kws : list string)
  (month year : Z) (p : nat) (item : ContentItem) :
  nth_error (build uuidv4 kws month year) p = Some item ->
  exists k : string,
    nth_error kws (p / 2) = Some k
    /\ keywords item = [k]
    /\ title item
       = (nth ((p / 2) mod 5) contentTypes "undefined" ++ ": " ++ k)%string
    /\ description item = ("Comprehensive guide about " ++ k)%string
    /\ platform item = (if Nat.even p then "blog" else "linkedin")%string.
Proof.
  intros H. unfold build, createPublishingSchedule in H.
  apply (schedule_from_nth _ _ _ _ _ (generateContentIdeas_platforms kws)) in H.
  destruct H as [H | (q & idea & -> & N & _ & Ht & Hd & Hk & Hp & _)];
    [destruct p; discriminate H |].
  cbn [List.length Nat.add] in *.
  unfold generateContentIdeas in N. rewrite mapi_from_nth in N.
  destruct (nth_error kws (q / 2)) as [k |] eqn:K; [| discriminate N].
  injection N as <-. cbn in Ht, Hd, Hk.
  exists k. split; [reflexivity |].
  rewrite Hk, Ht, Hd, Hp, !str_or_empty. repeat split; reflexivity.
Qed.

Lemma build_item_content_witness :
  exists item : ContentItem,
    nth_error (build nat_to_string ["seo"; "ads"; "crm"]%string 1 2025) 3
    = Some item
    /\ exists k : string,
         nth_error ["seo"; "ads"; "crm"]%string (3 / 2) = Some k
         /\ keywords item = [k]
         /\ title item
            = (nth ((3 / 2) mod 5) contentTypes "undefined" ++ ": " ++ k)%string
         /\ description item = ("Comprehensive guide about " ++ k)%string
         /\ platform item = (if Nat.even 3 then "blog" else "linkedin")%string.
Proof.
  eexists. split; [reflexivity |].
  exact (build_item_content nat_to_string ["seo"; "ads"; "crm"]%string 1 2025 3
           _ eq_refl).
Defined.

Lemma nat_to_string_inj (n m : nat) : nat_to_string n = nat_to_string m -> n = m.
Proof.
  unfold nat_to_string. intros E. apply DecimalNat.Unsigned.to_uint_inj.
  assert (N : forall k, Nat.to_uint k <> Decimal.Nil).
  { intros k. rewrite <- (DecimalNat.Unsigned.of_to k) at 1.
    rewrite DecimalNat.Unsigned.to_of. apply DecimalFacts.unorm_nonnil. }
  pose proof (NilZero.usu _ (N n)) as A. pose proof (NilZero.usu _ (N m)) as B.
  rewrite E in A. congruence.
Qed.

(** X15. The identifier of the item at place [p] is the answer of the
    [p]-th call of the generator (counting from 0), one call per item; so
    when the generator never repeats itself, no two items of a calendar
    share an identifier. *)
Theorem build_ids_unique (uuidv4 : nat -> string) (kws : list string)
  (month year : Z) :
  (forall (p : nat) (item : ContentItem),
      nth_error (build uuidv4 kws month year) p = Some item ->
      id item = uuidv4 p)
  /\ ((forall i j : nat, uuidv4 i = uuidv4 j -> i = j) ->
      NoDup (map id (build uuidv4 kws month year))).
Proof.
  assert (I : forall (p : nat) (item : ContentItem),
             nth_error (build uuidv4 kws month year) p = Some item ->
             id item = uuidv4 p).
  { intros p item H. unfold build, createPublishingSchedule in H.
    apply (schedule_from_nth _ _ _ _ _ (generateContentIdeas_platforms kws)) in H.
    destruct H as [H | (q & idea & -> & _ & Hid & _)];
      [destruct p; discriminate H | exact Hid]. }
  split; [exact I |].
  intros Inj. apply NoDup_nth_error. intros i j Li E.
  rewrite length_map in Li. rewrite !nth_error_map in E.
  destruct (nth_error (build uuidv4 kws month year) i) as [a |] eqn:Ea;
    [| apply nth_error_None in Ea; lia].
  destruct (nth_error (build uuidv4 kws month year) j) as [b |] eqn:Eb;
    [| discriminate E].
  cbn in E. injection E as E.
  rewrite (I i a Ea), (I j b Eb) in E. now apply Inj.
Qed.

Lemma build_ids_unique_witness :
  (forall i j : nat, nat_to_string i = nat_to_string j -> i = j)
  /\ NoDup (map id (build nat_to_string ["seo"; "ads"]%string 1 2025)).
Proof.
  split; [exact nat_to_string_inj |].
  exact (proj2 (build_ids_unique nat_to_string ["seo"; "ads"]%string 1 2025)
           nat_to_string_inj).
Defined.

End CalendarItemFacts.

(** ** Ranked keywords and the whole generation *)

Section GenerationFacts.
Import JSDate Calendar.
Open Scope nat_scope.

Lemma note_keyword_In (seen : list string) (k x : string) :
  In x (note_keyword seen k) <-> In x seen \/ x = k.
Proof.
  unfold note_keyword. destruct (existsb (String.eqb k) seen) eqn:E.
  - split; [now left |]. intros [I | ->]; [exact I |].
    apply existsb_exists in E. destruct E as (y & I & Y).
    apply String.eqb_eq in Y. now subst y.
  - rewrite in_app_iff. simpl. intuition.
Qed.

Lemma fold_note_keyword_In (ks seen : list string) (x : string) :
  In x (fold_left note_keyword ks seen) <-> In x seen \/ In x ks.
Proof.
  revert seen. induction ks as [| k t IH]; intros seen; simpl; [tauto |].
  rewrite IH, note_keyword_In. intuition.
Qed.

Lemma first_seen_In (posts : list BlogPost) (k : string) :
  In k (first_seen posts)
  <-> exists post, In post posts /\ In k (post_keywords post).
Proof.
  unfold first_seen. rewrite fold_note_keyword_In. simpl.
  unfold contributions. rewrite in_map_iff. split.
  - intros [[] | ((k' & w) & <- & I)]. apply in_flat_map in I.
    destruct I as (post & P & I). apply in_map_iff in I.
    destruct I as (k0 & E & I). injection E as -> _.
    now exists post.
  - intros (post & P & I). right. exists (k, engagement_of post).
    split; [reflexivity |]. apply in_flat_map. exists post.
    split; [exact P |]. apply in_map_iff. now exists k.
Qed.

Lemma NoDup_firstn {A} (n : nat) (l : list A) : NoDup l -> NoDup (firstn n l).
Proof.
  intros N. rewrite <- (firstn_skipn n l) in N.
  now apply NoDup_app_remove_r in N.
Qed.

(** X16. The ranked keywords are at most twenty, without repetition, and
    each of them is a keyword of some post of the history; when the
    history holds at most twenty different keywords, every one of them
    is ranked. *)
Theorem getTopKeywordsFromHistory_keywords (posts : list BlogPost) :
  List.length (getTopKeywordsFromHistory (inr posts)) <= 20
  /\ NoDup (getTopKeywordsFromHistory (inr posts))
  /\ (forall k : string,
         In k (getTopKeywordsFromHistory (inr posts)) ->
         exists post, In post posts /\ In k (post_keywords post))
  /\ (List.length (first_seen posts) <= 20 ->
      forall (post : BlogPost) (k : string),
        In post posts -> In k (post_keywords post) ->
        In k (getTopKeywordsFromHistory (inr posts))).
Proof.
  destruct (rank_entries_ranked posts) as (P & _ & _).
  assert (N : NoDup (first_seen posts))
    by (apply fold_note_keyword_NoDup; constructor).
  assert (E : getTopKeywordsFromHistory (inr posts)
              = firstn 20 (map fst (rank_entries posts))).
  { unfold getTopKeywordsFromHistory. symmetry. apply firstn_map. }
  rewrite E. split; [apply firstn_le_length |]. split; [| split].
  - apply NoDup_firstn. apply (Permutation_NoDup (Permutation_sym P) N).
  - intros k I. apply firstn_In in I. apply (Permutation_in _ P) in I.
    now apply first_seen_In.
  - intros L post k Ip Ik.
    rewrite firstn_all2 by (rewrite (Permutation_length P); exact L).
    apply (Permutation_in _ (Permutation_sym P)).
    apply first_seen_In. now exists post.
Qed.

Lemma getTopKeywordsFromHistory_keywords_witness :
  List.length (first_seen sample_posts) <= 20
  /\ forall (post : BlogPost) (k : string),
       In post sample_posts -> In k (post_keywords post) ->
       In k (getTopKeywordsFromHistory (inr sample_posts)).
Proof.
  assert (L : List.length (first_seen sample_posts) <= 20) by (vm_compute; lia).
  split; [exact L |].
  exact (proj2 (proj2 (proj2 (getTopKeywordsFromHistory_keywords sample_posts)))
           L).
Defined.

(** X17. [generateMonthlyCalendar] is rejected exactly when the store
    refuses the calendar document, with the store's error; otherwise it
    is fulfilled with the schedule of the ranked keywords.  The document
    sent counts two entries per keyword, all scheduled.  When the history
    query fails the calendar has ten items, and when the history is empty
    an empty calendar is sent to the store. *)
Theorem generateMonthlyCalendar_outcomes (uuidv4 : nat -> string)
  (getDocumentList : settled (list BlogPost))
  (createDocument : string -> CalendarDoc -> settled unit)
  (month year : Z) :
  let topKeywords := getTopKeywordsFromHistory getDocumentList in
  let calendar := build uuidv4 topKeywords month year in
  let doc := calendarData calendar month year in
  generateMonthlyCalendar uuidv4 getDocumentList createDocument month year
  = match createDocument "Content Calendar"%string doc with
    | inl error => inl error
    | inr _ => inr calendar
    end
  /\ total_items doc = 2 * List.length topKeywords
  /\ List.length (content_items doc) = total_items doc
  /\ Forall (fun entry => entry_status entry = scheduled) (content_items doc)
  /\ match getDocumentList with
     | inl _ => total_items doc = 10
     | inr [] => calendar = [] /\ content_items doc = []
     | inr _ => True
     end.
Proof.
  cbv zeta. split; [reflexivity |].
  cbn [calendarData total_items content_items].
  rewrite length_map, build_length.
  split; [reflexivity |]. split; [reflexivity |]. split.
  - apply Forall_map. cbn [entry_status].
    pose proof (build_view (fun _ s _ => s) uuidv4
                  (getTopKeywordsFromHistory getDocumentList) month year) as V.
    cbv beta zeta in V.
    apply (Forall_map (fun it => status it) (fun s => s = scheduled)).
    rewrite V. apply Forall_flat_map, Forall_forall.
    intros j _. repeat constructor.
  - destruct getDocumentList as [e | [| post rest]]; [reflexivity | | exact I].
    split; reflexivity.
Qed.

End GenerationFacts.

(** ** Engagement score and performance reports *)

Section AnalyticsFacts.
Import Calendar.
Open Scope Q_scope.






(** *** Sorting by any weight *)

Lemma sort_insert_sorted_by {A} (w : A -> Q) (earlier : A -> A -> Prop)
  (x : A) (l : list A) :
  StronglySorted (ranks_by w earlier) l ->
  (forall y, In y l -> earlier x y) ->
  StronglySorted (ranks_by w earlier) (sort_insert (fun a b => w b - w a) x l).
Proof.
  intros S. induction S as [| y t S IH F]; intros E; simpl.
  - repeat constructor.
  - destruct (gtb (w y - w x) 0) eqn:G;
      [apply gtb_true in G | apply gtb_false in G].
    + constructor.
      * apply IH. intros z I. apply E. now right.
      * rewrite Forall_forall in *. intros z I.
        apply (Permutation_in z (sort_insert_perm _ x t)) in I.
        destruct I as [<- | I]; [left; lra | now apply F].
    + constructor; [now constructor |].
      rewrite Forall_forall in *. intros z I.
      assert (Z : w z <= w y).
      { destruct I as [<- | I]; [lra |].
        destruct (F z I) as [L | [L _]]; lra. }
      destruct (Qlt_le_dec (w z) (w x)) as [L | L]; [now left |].
      right. split; [lra | now apply E].
Qed.

Lemma Array_sort_sorted_by {A} (w : A -> Q) (l : list A) :
  StronglySorted (ranks_by w (before l)) (Array_sort (fun a b => w b - w a) l).
Proof.
  induction l as [| x t IH]; simpl; [constructor |].
  apply sort_insert_sorted_by.
  - apply (StronglySorted_weaken (ranks_by w (before t))); [| exact IH].
    intros a b _ _ [L | [L B]]; [now left | right].
    split; [exact L | now apply before_cons].
  - intros y I. apply before_head.
    exact (Permutation_in _ (Array_sort_perm _ t) I).
Qed.

(** X19. [getTopPerformingContent] is rejected when the query is, with
    the same error; otherwise it answers the first ten of the posts put
    in descending order of their engagement score (0 when missing), posts
    of equal score staying in the order of the query. *)
Theorem getTopPerformingContent_top_ten
  (response : settled (list AnalyticsReports.Post)) :
  match response with
  | inl error => AnalyticsReports.getTopPerformingContent response = inl error
  | inr posts =>
      exists sorted : list AnalyticsReports.Post,
        Permutation sorted posts
        /\ StronglySorted (ranks_by AnalyticsReports.score_of (before posts))
                          sorted
        /\ AnalyticsReports.getTopPerformingContent response
           = inr (firstn 10 sorted)
        /\ (List.length (firstn 10 sorted) <= 10)%nat
  end.
Proof.
  destruct response as [e | posts]; [reflexivity |].
  eexists. split; [apply Array_sort_perm |].
  split; [apply Array_sort_sorted_by |].
  split; [reflexivity | apply firstn_le_length].
Qed.

(** *** Keywords by score *)

Lemma fold_add_post_keywords (posts : list AnalyticsReports.Post) (m : JSMap) :
  fold_left AnalyticsReports.add_post_keywords posts m
  = fold_left add_keyword (AnalyticsReports.keyword_scores posts) m.
Proof.
  revert m. induction posts as [| p t IH]; intros m; [reflexivity |].
  cbn [fold_left AnalyticsReports.keyword_scores flat_map].
  rewrite fold_left_app, IH. f_equal.
  unfold AnalyticsReports.add_post_keywords.
  destruct (AnalyticsReports.content_keywords p) as [ck |]; [| reflexivity].
  destruct (truthy ck); [| reflexivity].
  rewrite !fold_left_map. reflexivity.
Qed.

(** The ranking of any list of contributions: the keys of the sorted map
    are the keywords in descending order of their total, ties in
    first-seen order. *)
Lemma contributions_ranked (evs : list (string * Q)) :
  let order := fold_left note_keyword (map fst evs) [] in
  let sorted := Array_sort (fun a b => snd b - snd a) (fold_left add_keyword evs []) in
  Permutation (map fst sorted) order
  /\ NoDup order
  /\ ranked (total_of evs) order (map fst sorted).
Proof.
  cbv zeta.
  set (m := fold_left add_keyword evs []).
  assert (K : map fst m = fold_left note_keyword (map fst evs) [])
    by apply fold_add_keyword_keys.
  assert (N : NoDup (map fst m)).
  { rewrite K. apply fold_note_keyword_NoDup. constructor. }
  pose proof (Array_sort_perm (fun a b => snd b - snd a) m) as P.
  assert (V : forall kv,
             In kv (Array_sort (fun a b => snd b - snd a) m) ->
             snd kv == total_of evs (fst kv)).
  { intros [k v] I. apply (Permutation_in _ P) in I.
    apply (Map_get_In _ _ _ N) in I.
    pose proof (Map_weight_fold evs [] k) as W. fold m in W.
    unfold Map_weight in W at 1. rewrite I in W.
    cbn [fst snd]. rewrite W. unfold Map_weight. simpl. ring. }
  rewrite <- K. split; [now apply Permutation_map |]. split; [exact N |].
  unfold ranked.
  apply (StronglySorted_map fst (ranks_by snd (before m)));
    [| apply Array_sort_sorted].
  intros x y Ix Iy R. unfold ranks_by in *.
  rewrite <- (V x Ix), <- (V y Iy).
  destruct R as [L | [L B]]; [now left | right].
  split; [exact L | now apply before_map].
Qed.

(** X20. [extractTopKeywords] answers the first ten keywords of the posts
    in descending order of the sum of the scores of the posts that carry
    them (a missing score counts for 0, so keywords of unscored posts are
    ranked too), ties in first-seen order, each keyword once. *)
Theorem extractTopKeywords_ranked (posts : list AnalyticsReports.Post) :
  exists ranking : list string,
    Permutation ranking
      (fold_left note_keyword
         (map fst (AnalyticsReports.keyword_scores posts)) [])
    /\ NoDup ranking
    /\ ranked (total_of (AnalyticsReports.keyword_scores posts))
              (fold_left note_keyword
                 (map fst (AnalyticsReports.keyword_scores posts)) [])
              ranking
    /\ AnalyticsReports.extractTopKeywords posts = firstn 10 ranking
    /\ (List.length (AnalyticsReports.extractTopKeywords posts) <= 10)%nat.
Proof.
  destruct (contributions_ranked (AnalyticsReports.keyword_scores posts))
    as (P & N & R).
  eexists. split; [exact P |].
  split; [exact (Permutation_NoDup (Permutation_sym P) N) |].
  split; [exact R |].
  assert (E : AnalyticsReports.extractTopKeywords posts
              = firstn 10
                  (map fst
                     (Array_sort (fun a b => snd b - snd a)
                        (fold_left add_keyword
                           (AnalyticsReports.keyword_scores posts) [])))).
  { unfold AnalyticsReports.extractTopKeywords.
    rewrite fold_add_post_keywords. symmetry. apply firstn_map. }
  split; [exact E |]. rewrite E. apply firstn_le_length.
Qed.

(** *** Posting frequency *)

Lemma score_sum_bounds (posts : list AnalyticsReports.Post) (lo hi acc : Q) :
  Forall (fun p => lo <= AnalyticsReports.score_of p <= hi) posts ->
  acc + lo * len posts
  <= fold_left (fun sum p => sum + AnalyticsReports.score_of p) posts acc
  <= acc + hi * len posts.
Proof.
  intros F. revert acc. induction F as [| p t [L H] _ IH]; intros acc.
  - cbn [fold_left]. unfold len. cbn [List.length Z.of_nat].
    change (inject_Z 0) with 0. lra.
  - cbn [fold_left].
    pose proof (IH (acc + AnalyticsReports.score_of p)) as B.
    assert (E : len (p :: t) == 1 + len t).
    { unfold len. cbn [List.length]. rewrite Nat2Z.inj_succ.
      unfold Z.succ. rewrite inject_Z_plus. change (inject_Z 1) with 1. ring. }
    rewrite E. lra.
Qed.

Lemma score_sum_strict (posts : list AnalyticsReports.Post) (lo acc : Q) :
  posts <> [] ->
  Forall (fun p => lo < AnalyticsReports.score_of p) posts ->
  acc + lo * len posts
  < fold_left (fun sum p => sum + AnalyticsReports.score_of p) posts acc.
Proof.
  intros N F. revert acc.
  induction F as [| p t L F IH]; intros acc; [congruence |].
  cbn [fold_left].
  assert (E : len (p :: t) == 1 + len t).
  { unfold len. cbn [List.length]. rewrite Nat2Z.inj_succ.
    unfold Z.succ. rewrite inject_Z_plus. change (inject_Z 1) with 1. ring. }
  rewrite E. destruct t as [| q t'].
  - cbn [fold_left]. unfold len. cbn [List.length Z.of_nat].
    change (inject_Z 0) with 0. lra.
  - pose proof (IH ltac:(discriminate) (acc + AnalyticsReports.score_of p)).
    lra.
Qed.

(** X21. The recommended frequency is the lowest one, 1-2 posts per
    week, for no post at all (the average is then not a number) and for
    posts whose scores are all at most 50; it is 3-4 posts per week when
    there are posts and all score above 70, and 2-3 posts per week when
    all score above 50 and at most 70. *)
Theorem calculateOptimalFrequency_thresholds :
  AnalyticsReports.calculateOptimalFrequency [] = "1-2 posts per week"%string
  /\ (forall posts : list AnalyticsReports.Post,
         Forall (fun p => AnalyticsReports.score_of p <= 50) posts ->
         AnalyticsReports.calculateOptimalFrequency posts
         = "1-2 posts per week"%string)
  /\ (forall posts : list AnalyticsReports.Post,
         posts <> [] ->
         Forall (fun p => 70 < AnalyticsReports.score_of p) posts ->
         AnalyticsReports.calculateOptimalFrequency posts
         = "3-4 posts per week"%string)
  /\ (forall posts : list AnalyticsReports.Post,
         posts <> [] ->
         Forall (fun p => 50 < AnalyticsReports.score_of p <= 70) posts ->
         AnalyticsReports.calculateOptimalFrequency posts
         = "2-3 posts per week"%string).
Proof.
  assert (Avg : forall (posts : list AnalyticsReports.Post) (total c : Q),
             posts <> [] ->
             (c * len posts < total -> gtb (total / len posts) c = true)
             /\ (total <= c * len posts -> gtb (total / len posts) c = false)).
  { intros posts total c N.
    assert (W : 0 < len posts).
    { apply len_positive. destruct posts; [congruence | simpl; lia]. }
    split; intros H.
    - apply gtb_true. now apply Qlt_shift_div_l.
    - apply gtb_false. now apply Qle_shift_div_r. }
  split; [reflexivity |]. split; [| split].
  - intros posts F. destruct posts as [| p t]; [reflexivity |].
    unfold AnalyticsReports.calculateOptimalFrequency. cbv zeta.
    assert (U : fold_left (fun sum q => sum + AnalyticsReports.score_of q)
                          (p :: t) 0 <= 50 * len (p :: t)).
    { assert (G : Forall (fun q => AnalyticsReports.score_of q <= 50)
                                   (p :: t)) by exact F.
      revert G. generalize (p :: t). intros l G.
      assert (B : forall acc,
                 fold_left (fun sum q => sum + AnalyticsReports.score_of q) l acc
                 <= acc + 50 * len l).
      { induction G as [| q r H _ IH]; intros acc.
        - cbn [fold_left]. unfold len. cbn [List.length Z.of_nat].
          change (inject_Z 0) with 0. lra.
        - cbn [fold_left]. pose proof (IH (acc + AnalyticsReports.score_of q)).
          assert (E : len (q :: r) == 1 + len r).
          { unfold len. cbn [List.length]. rewrite Nat2Z.inj_succ.
            unfold Z.succ. rewrite inject_Z_plus.
            change (inject_Z 1) with 1. ring. }
          rewrite E. lra. }
      pose proof (B 0). lra. }
    pose proof (len_nonneg (p :: t)) as L.
    destruct (Avg (p :: t) (fold_left (fun sum q => sum + AnalyticsReports.score_of q)
                              (p :: t) 0) 70 ltac:(discriminate)) as [_ A70].
    destruct (Avg (p :: t) (fold_left (fun sum q => sum + AnalyticsReports.score_of q)
                              (p :: t) 0) 50 ltac:(discriminate)) as [_ A50].
    rewrite A70 by lra. rewrite A50 by lra. reflexivity.
  - intros posts N F. destruct posts as [| p t]; [congruence |].
    unfold AnalyticsReports.calculateOptimalFrequency. cbv zeta.
    pose proof (score_sum_strict (p :: t) 70 0 N F) as S.
    destruct (Avg (p :: t) (fold_left (fun sum q => sum + AnalyticsReports.score_of q)
                              (p :: t) 0) 70 N) as [A70 _].
    rewrite A70 by lra. reflexivity.
  - intros posts N F. destruct posts as [| p t]; [congruence |].
    unfold AnalyticsReports.calculateOptimalFrequency. cbv zeta.
    assert (F1 : Forall (fun q => 50 < AnalyticsReports.score_of q) (p :: t)).
    { eapply Forall_impl; [| exact F]. intros q [H _]. exact H. }
    assert (F2 : Forall (fun q => 50 <= AnalyticsReports.score_of q <= 70)
                        (p :: t)).
    { eapply Forall_impl; [| exact F]. intros q [H1 H2]. split; lra. }
    pose proof (score_sum_strict (p :: t) 50 0 N F1) as S.
    pose proof (score_sum_bounds (p :: t) 50 70 0 F2) as [_ U].
    destruct (Avg (p :: t) (fold_left (fun sum q => sum + AnalyticsReports.score_of q)
                              (p :: t) 0) 70 N) as [_ A70].
    destruct (Avg (p :: t) (fold_left (fun sum q => sum + AnalyticsReports.score_of q)
                              (p :: t) 0) 50 N) as [A50 _].
    rewrite A70 by lra. rewrite A50 by lra. reflexivity.
Qed.

Lemma calculateOptimalFrequency_thresholds_witness :
  let posts :=
    [ {| AnalyticsReports.post_name := "POST-1";
         AnalyticsReports.content_keywords := Some "seo"%string;
         AnalyticsReports.engagement_score := Some 80;
         AnalyticsReports.platform := Some "blog"%string |} ] in
  posts <> []
  /\ Forall (fun p => 70 < AnalyticsReports.score_of p) posts
  /\ AnalyticsReports.calculateOptimalFrequency posts
     = "3-4 posts per week"%string.
Proof.
  intros posts.
  assert (N : posts <> []) by discriminate.
  assert (F : Forall (fun p => 70 < AnalyticsReports.score_of p) posts)
    by (repeat constructor).
  split; [exact N |]. split; [exact F |].
  exact (proj1 (proj2 (proj2 calculateOptimalFrequency_thresholds)) posts N F).
Defined.

End AnalyticsFacts.

(** ** Utilities *)

Section HelpersFacts.
Import Helpers.
Open Scope nat_scope.
Open Scope list_scope.

Lemma slice_length {T} (array : list T) (i size : nat) :
  i < List.length array ->
  List.length (slice array i (i + size)) = Nat.min size (List.length array - i).
Proof.
  intros H. unfold slice. rewrite length_firstn, length_skipn.
  f_equal. lia.
Qed.

Lemma chunk_loop_spec {T} (array : list T) (size : nat) :
  1 <= size ->
  forall (fuel i : nat) (chunks : list (list T)),
    List.length array - i <= fuel ->
    exists rest : list (list T),
      chunk_loop fuel array size i chunks = Some (chunks ++ rest)
      /\ List.concat rest = skipn i array
      /\ Forall (fun c => 1 <= List.length c <= size) rest
      /\ Forall (fun c => List.length c = size) (removelast rest)
      /\ (rest = [] <-> List.length array <= i).
Proof.
  intros Hs. induction fuel as [| fuel IH]; intros i chunks Hf;
    cbn [chunk_loop]; destruct (Nat.ltb_spec i (List.length array)) as [Lt | Ge];
    try lia.
  - exists []. rewrite app_nil_r, skipn_all2 by exact Ge.
    repeat split; try constructor; auto.
  - destruct (IH (i + size) (chunks ++ [slice array i (i + size)])
                ltac:(lia)) as (rest & E & C & F & G & N).
    exists (slice array i (i + size) :: rest).
    pose proof (slice_length array i size Lt) as L.
    split; [rewrite E, <- app_assoc; reflexivity |].
    split; [| split; [| split]].
    + cbn [List.concat]. rewrite C. unfold slice.
      replace (i + size - i) with size by lia.
      replace (i + size) with (size + i) by lia.
      rewrite <- skipn_skipn. apply firstn_skipn.
    + constructor; [lia | exact F].
    + destruct rest as [| c rest']; [constructor |].
      cbn [removelast]. constructor; [| exact G].
      assert (~ List.length array <= i + size)
        by (intros X; apply N in X; discriminate X).
      lia.
    + split; [discriminate | lia].
  - exists []. rewrite app_nil_r, skipn_all2 by exact Ge.
    repeat split; try constructor; auto.
Qed.

Lemma chunk_loop_zero {T} (array : list T) (fuel i : nat)
  (chunks : list (list T)) :
  i < List.length array -> chunk_loop fuel array 0 i chunks = None.
Proof.
  intros H. revert chunks. induction fuel as [| fuel IH]; intros chunks;
    cbn [chunk_loop]; destruct (Nat.ltb_spec i (List.length array)); try lia.
  - reflexivity.
  - rewrite Nat.add_0_r. apply IH.
Qed.

(** X22. For a size of at least 1, [chunkArray] cuts the array into
    chunks that, put end to end, give the array back; no chunk is empty,
    none is longer than the size, and all but the last have exactly the
    size.  For the size 0 the loop never ends on a non-empty array, and
    the empty array gives no chunk. *)
Theorem chunkArray_partition {T} (array : list T) (size : nat) :
  (1 <= size ->
   exists chunks : list (list T),
     chunkArray array size = Some chunks
     /\ List.concat chunks = array
     /\ Forall (fun c => 1 <= List.length c <= size) chunks
     /\ Forall (fun c => List.length c = size) (removelast chunks))
  /\ (array <> [] -> chunkArray array 0 = None)
  /\ chunkArray (@nil T) size = Some [].
Proof.
  split; [| split].
  - intros Hs.
    destruct (chunk_loop_spec array size Hs (List.length array) 0 []
                ltac:(lia)) as (rest & E & C & F & G & _).
    exists rest. unfold chunkArray. rewrite E. repeat split; assumption.
  - intros N. apply chunk_loop_zero.
    destruct array; [congruence | simpl; lia].
  - reflexivity.
Qed.

Lemma chunkArray_partition_witness :
  1 <= 3
  /\ exists chunks : list (list nat),
       chunkArray [1; 2; 3; 4; 5; 6; 7] 3 = Some chunks
       /\ List.concat chunks = [1; 2; 3; 4; 5; 6; 7]
       /\ Forall (fun c => 1 <= List.length c <= 3) chunks
       /\ Forall (fun c => List.length c = 3) (removelast chunks).
Proof.
  assert (H : 1 <= 3) by lia.
  split; [exact H |].
  exact (proj1 (chunkArray_partition [1; 2; 3; 4; 5; 6; 7] 3) H).
Defined.

(** The delay slept after the failure of call [k]. *)
Lemma retry_loop_success {T} (fn : nat -> settled T) (maxRetries : Z)
  (baseDelay : Q) (value : T) :
  forall (d i remaining : nat) (delays : list Q),
    (Z.of_nat (i + d) < maxRetries)%Z ->
    (forall j, i <= j < i + d -> exists e, fn j = inl e) ->
    fn (i + d) = inr value ->
    d < remaining ->
    retry_loop fn maxRetries baseDelay remaining i delays
    = {| outcome := inr value;
         slept := delays
                  ++ map (fun k => (baseDelay * inject_Z (2 ^ Z.of_nat k))%Q)
                         (seq i d) |}.
Proof.
  induction d as [| d IH]; intros i remaining delays Hk Hf Hv Hr;
    (destruct remaining as [| remaining]; [lia |]); cbn [retry_loop].
  - rewrite Nat.add_0_r in Hv. rewrite Hv. cbn. now rewrite app_nil_r.
  - destruct (Hf i ltac:(lia)) as (e & ->).
    destruct (Z.eqb_spec (Z.of_nat i) (maxRetries - 1)); [lia |].
    cbv zeta.
    rewrite (IH (S i));
      [ cbn [seq map]; rewrite <- app_assoc; reflexivity
      | lia
      | intros j Hj; apply Hf; lia
      | replace (S i + d) with (i + S d) by lia; exact Hv
      | lia ].
Qed.

Lemma retry_loop_failure {T} (fn : nat -> settled T) (n : nat)
  (baseDelay : Q) (e : nat -> exn) :
  1 <= n ->
  (forall j, j < n -> fn j = inl (e j)) ->
  forall (d i remaining : nat) (delays : list Q),
    i + d = n - 1 ->
    d < remaining ->
    retry_loop fn (Z.of_nat n) baseDelay remaining i delays
    = {| outcome := inl (e (n - 1));
         slept := delays
                  ++ map (fun k => (baseDelay * inject_Z (2 ^ Z.of_nat k))%Q)
                         (seq i d) |}.
Proof.
  intros Hn Hf. induction d as [| d IH]; intros i remaining delays Hi Hr;
    (destruct remaining as [| remaining]; [lia |]); cbn [retry_loop];
    rewrite (Hf i) by lia.
  - destruct (Z.eqb_spec (Z.of_nat i) (Z.of_nat n - 1)); [| lia].
    cbn. rewrite app_nil_r. do 3 f_equal. lia.
  - destruct (Z.eqb_spec (Z.of_nat i) (Z.of_nat n - 1)); [lia |].
    cbv zeta. rewrite (IH (S i)) by lia.
    cbn [seq map]. rewrite <- app_assoc. reflexivity.
Qed.

(** X23. [retryWithBackoff] returns the value of the first call that
    succeeds, provided it is among the first [maxRetries] calls, after
    sleeping [baseDelay * 2^k] behind each failed call [k] before it.
    When all [maxRetries] calls fail it throws the error of the last one,
    with no sleep behind that one.  For [maxRetries] of 0 or less it
    calls nothing and throws 'Max retries exceeded', which is the only
    way to that error. *)
Theorem retryWithBackoff_outcomes {T} (fn : nat -> settled T)
  (maxRetries : Z) (baseDelay : Q) :
  ((maxRetries <= 0)%Z ->
   retryWithBackoff fn maxRetries baseDelay
   = {| outcome := inl (Error "Max retries exceeded"); slept := [] |})
  /\ (forall (k : nat) (value : T),
         (Z.of_nat k < maxRetries)%Z ->
         (forall j, j < k -> exists e, fn j = inl e) ->
         fn k = inr value ->
         retryWithBackoff fn maxRetries baseDelay
         = {| outcome := inr value;
              slept := map (fun i => (baseDelay * inject_Z (2 ^ Z.of_nat i))%Q)
                           (seq 0 k) |})
  /\ (forall e : nat -> exn,
         (1 <= maxRetries)%Z ->
         (forall j, (Z.of_nat j < maxRetries)%Z -> fn j = inl (e j)) ->
         retryWithBackoff fn maxRetries baseDelay
         = {| outcome := inl (e (Z.to_nat maxRetries - 1));
              slept := map (fun i => (baseDelay * inject_Z (2 ^ Z.of_nat i))%Q)
                           (seq 0 (Z.to_nat maxRetries - 1)) |}).
Proof.
  unfold retryWithBackoff. split; [| split].
  - intros H. replace (Z.to_nat maxRetries) with 0 by lia. reflexivity.
  - intros k value Hk Hf Hv.
    rewrite (retry_loop_success fn maxRetries baseDelay value k 0);
      [ reflexivity
      | exact Hk
      | intros j Hj; apply Hf; lia
      | exact Hv
      | lia ].
  - intros e Hm Hf.
    rewrite <- (Z2Nat.id maxRetries) at 1 by lia.
    rewrite (retry_loop_failure fn (Z.to_nat maxRetries) baseDelay e
               ltac:(lia)
               (fun j Hj => Hf j ltac:(lia))
               (Z.to_nat maxRetries - 1) 0); try lia.
    reflexivity.
Qed.

Lemma retryWithBackoff_outcomes_witness :
  let fn := fun k : nat =>
              if k <? 2 then inl (Error "503") else inr "body"%string in
  (Z.of_nat 2 < 3)%Z
  /\ (forall j, j < 2 -> exists e, fn j = inl e)
  /\ fn 2 = inr "body"%string
  /\ retryWithBackoff fn 3%Z 1000%Q
     = {| outcome := inr "body"%string; slept := [1000%Q; 2000%Q] |}.
Proof.
  intros fn.
  assert (Hk : (Z.of_nat 2 < 3)%Z) by lia.
  assert (Hf : forall j, j < 2 -> exists e, fn j = inl e).
  { intros j Hj. exists (Error "503"). unfold fn.
    destruct (Nat.ltb_spec j 2); [reflexivity | lia]. }
  split; [exact Hk |]. split; [exact Hf |]. split; [reflexivity |].
  exact (proj1 (proj2 (retryWithBackoff_outcomes fn 3%Z 1000%Q)) 2 _ Hk Hf
           eq_refl).
Defined.

End HelpersFacts.

(** ** Slugs *)

Section SlugFacts.
Import CmsFeed.

Ltac each_ascii c := destruct c as [[] [] [] [] [] [] [] []].

Lemma kept_lower_char (c : ascii) :
  (is_word (lower_char c) || is_space (lower_char c) || is_dash (lower_char c))
  = true ->
  (slug_char (lower_char c) || is_space (lower_char c)) = true.
Proof. each_ascii c; vm_compute; intros H; first [reflexivity | discriminate H]. Qed.

Lemma slug_char_fixed (c : ascii) :
  slug_char c = true ->
  lower_char c = c
  /\ (is_word c || is_space c || is_dash c) = true
  /\ is_space c = false.
Proof.
  each_ascii c; vm_compute; intros H;
    first [discriminate H | repeat split; reflexivity].
Qed.

Lemma filtered_chars (title : string) :
  string_forall (fun c => slug_char c || is_space c)
    (filter_chars (fun c => is_word c || is_space c || is_dash c)
                  (toLowerCase title)) = true.
Proof.
  induction title as [| c t IH]; [reflexivity |].
  cbn [toLowerCase filter_chars].
  destruct (is_word (lower_char c) || is_space (lower_char c)
            || is_dash (lower_char c)) eqn:K; [| exact IH].
  cbn [string_forall]. now rewrite (kept_lower_char c K), IH.
Qed.

Lemma spaces_replaced (s : string) (in_run : bool) :
  string_forall (fun c => slug_char c || is_space c) s = true ->
  string_forall slug_char (replace_runs is_space "-" in_run s) = true.
Proof.
  revert in_run. induction s as [| c t IH]; intros in_run H; [reflexivity |].
  cbn [string_forall] in H. apply andb_true_iff in H. destruct H as [C T].
  cbn [replace_runs]. destruct (is_space c) eqn:S.
  - destruct in_run; [now apply IH |].
    cbn [string_forall]. now rewrite IH.
  - rewrite orb_false_r in C. cbn [string_forall]. now rewrite C, IH.
Qed.

Lemma dashes_collapsed_chars (s : string) (in_run : bool) :
  string_forall slug_char s = true ->
  string_forall slug_char (replace_runs is_dash "-" in_run s) = true.
Proof.
  revert in_run. induction s as [| c t IH]; intros in_run H; [reflexivity |].
  cbn [string_forall] in H. apply andb_true_iff in H. destruct H as [C T].
  cbn [replace_runs]. destruct (is_dash c).
  - destruct in_run; [now apply IH |].
    cbn [string_forall]. now rewrite IH.
  - cbn [string_forall]. now rewrite C, IH.
Qed.

(** After the dashes are collapsed no two stand side by side, and behind
    a dash just written the text does not go on with a dash. *)
Lemma dashes_collapsed (s : string) (in_run : bool) :
  no_double_dash (replace_runs is_dash "-" in_run s) = true
  /\ (in_run = true ->
      match replace_runs is_dash "-" in_run s with
      | EmptyString => True
      | String d _ => is_dash d = false
      end).
Proof.
  revert in_run. induction s as [| c t IH]; intros in_run; [now split |].
  cbn [replace_runs]. destruct (is_dash c) eqn:D.
  - destruct in_run.
    + apply IH.
    + destruct (IH true) as [N H]. specialize (H eq_refl).
      split; [| discriminate].
      cbn [no_double_dash].
      destruct (replace_runs is_dash "-" true t) as [| d r]; [reflexivity |].
      now rewrite H, andb_false_r, N.
  - destruct (IH false) as [N _]. split; [| now intros _].
    cbn [no_double_dash].
    destruct (replace_runs is_dash "-" false t) as [| d r]; [reflexivity |].
    now rewrite D, N.
Qed.

Lemma string_rev_onto_twice (s acc acc' : string) :
  string_rev_onto acc' (string_rev_onto acc s)
  = string_rev_onto (s ++ acc')%string acc.
Proof.
  revert acc. induction s as [| c t IH]; intros acc; [reflexivity |].
  cbn [string_rev_onto]. rewrite IH. reflexivity.
Qed.

Lemma string_rev_involutive (s : string) : string_rev (string_rev s) = s.
Proof.
  unfold string_rev. rewrite string_rev_onto_twice. cbn [string_rev_onto].
  induction s as [| c t IH]; [reflexivity |]. simpl. now rewrite IH.
Qed.

Lemma trimStart_no_space (s : string) :
  string_forall (fun c => negb (is_space c)) s = true -> trimStart s = s.
Proof.
  destruct s as [| c t]; [reflexivity |]. cbn [string_forall trimStart].
  intros H. apply andb_true_iff in H. destruct H as [C _].
  apply negb_true_iff in C. now rewrite C.
Qed.

Lemma trim_no_space (s : string) :
  string_forall (fun c => negb (is_space c)) s = true -> trim s = s.
Proof.
  intros H. unfold trim. rewrite (trimStart_no_space s H).
  rewrite trimStart_no_space; [apply string_rev_involutive |].
  unfold string_rev. now apply string_forall_rev_onto.
Qed.

Lemma string_forall_impl (f g : ascii -> bool) (s : string) :
  (forall c, f c = true -> g c = true) ->
  string_forall f s = true -> string_forall g s = true.
Proof.
  intros I. induction s as [| c t IH]; [reflexivity |].
  cbn [string_forall]. intros H. apply andb_true_iff in H.
  destruct H as [C T]. now rewrite (I c C), IH.
Qed.

Lemma slug_no_space (s : string) :
  string_forall slug_char s = true ->
  string_forall (fun c => negb (is_space c)) s = true.
Proof.
  apply string_forall_impl. intros c H.
  destruct (slug_char_fixed c H) as (_ & _ & ->). reflexivity.
Qed.

(** A string that already has the shape of a slug goes through every
    step unchanged. *)
Lemma slug_steps_fixed (s : string) :
  string_forall slug_char s = true ->
  toLowerCase s = s
  /\ filter_chars (fun c => is_word c || is_space c || is_dash c) s = s
  /\ forall in_run, replace_runs is_space "-" in_run s = s.
Proof.
  induction s as [| c t IH]; [now repeat split |].
  cbn [string_forall]. intros H. apply andb_true_iff in H.
  destruct H as [C T]. destruct (IH T) as (L & F & R).
  destruct (slug_char_fixed c C) as (Lc & Kc & Sc).
  cbn [toLowerCase filter_chars replace_runs].
  rewrite Lc, L, Kc, F, Sc. repeat split. intros in_run. now rewrite R.
Qed.

Lemma collapse_fixed (s : string) (in_run : bool) :
  no_double_dash s = true ->
  (in_run = true ->
   match s with EmptyString => True | String d _ => is_dash d = false end) ->
  replace_runs is_dash "-" in_run s = s.
Proof.
  revert in_run. induction s as [| c t IH]; intros in_run N H; [reflexivity |].
  cbn [replace_runs]. cbn [no_double_dash] in N.
  destruct (is_dash c) eqn:D.
  - destruct in_run; [specialize (H eq_refl); discriminate H |].
    assert (Dc : c = "-"%char) by (now apply Ascii.eqb_eq in D).
    subst c. f_equal.
    destruct t as [| d r]; [reflexivity |].
    apply andb_true_iff in N. destruct N as [N1 N2].
    apply IH; [exact N2 |]. intros _.
    change (negb (true && is_dash d) = true) in N1.
    now apply negb_true_iff in N1.
  - f_equal. destruct t as [| d r]; [reflexivity |].
    apply andb_true_iff in N. destruct N as [_ N2].
    apply IH; [exact N2 | discriminate].
Qed.

Lemma word_lower (w : ascii) :
  is_word w = true ->
  (is_word (lower_char w) || is_space (lower_char w) || is_dash (lower_char w))
  = true
  /\ is_space (lower_char w) = false
  /\ is_dash (lower_char w) = false.
Proof.
  each_ascii w; vm_compute; intros H;
    first [discriminate H | repeat split; reflexivity].
Qed.

(** X24. A slug holds only lower-case letters, digits, underscores and
    dashes, never two dashes side by side, and making the slug of a slug
    changes nothing.  The final trim has nothing to strip, so the dash
    that replaced a blank in front of the title stays in front of the
    slug: a title that starts with a blank and then a letter (of either
    case), a digit or an underscore gets a slug that starts with a dash
    and that character in lower case. *)
Theorem generateSlug_shape :
  (forall title : string,
      string_forall slug_char (generateSlug title) = true
      /\ no_double_dash (generateSlug title) = true
      /\ generateSlug (generateSlug title) = generateSlug title)
  /\ (forall (c w : ascii) (rest : string),
         is_space c = true ->
         is_word w = true ->
         exists slug : string,
           generateSlug (String c (String w rest))
           = String "-" (String (lower_char w) slug)).
Proof.
  assert (Shape : forall title : string,
             let body :=
               replace_runs is_dash "-" false
                 (replace_runs is_space "-" false
                    (filter_chars (fun c => is_word c || is_space c || is_dash c)
                                  (toLowerCase title))) in
             generateSlug title = body
             /\ string_forall slug_char body = true
             /\ no_double_dash body = true).
  { intros title body.
    assert (C : string_forall slug_char body = true).
    { apply dashes_collapsed_chars, spaces_replaced, filtered_chars. }
    split; [| split; [exact C | apply dashes_collapsed]].
    unfold generateSlug. fold body. apply trim_no_space, slug_no_space, C. }
  split.
  - intros title. destruct (Shape title) as (E & C & N). cbv zeta in *.
    rewrite E. split; [exact C |]. split; [exact N |].
    set (body := replace_runs is_dash "-" false _) in *.
    destruct (slug_steps_fixed body C) as (L & F & R).
    unfold generateSlug. rewrite L, F, R.
    rewrite collapse_fixed; [| exact N | discriminate].
    apply trim_no_space, slug_no_space, C.
  - intros c w rest Sc Ww.
    destruct (Shape (String c (String w rest))) as (E & _). cbv zeta in E.
    rewrite E. clear E.
    destruct (word_lower w Ww) as (Kw & Sw & Dw).
    assert (Lc : lower_char c = c).
    { revert Sc. each_ascii c; vm_compute; intros H;
        first [reflexivity | discriminate H]. }
    cbn [toLowerCase filter_chars]. rewrite Lc, Sc, Kw.
    rewrite orb_true_r. cbn [orb replace_runs]. rewrite Sc, Sw.
    cbn [replace_runs].
    change (is_dash "-") with true. cbv iota.
    rewrite Dw. eexists. reflexivity.
Qed.

Lemma generateSlug_shape_witness :
  is_space " " = true
  /\ is_word "H" = true
  /\ exists slug : string,
       generateSlug " Hello  World!" = String "-" (String "h" slug).
Proof.
  assert (S : is_space " " = true) by reflexivity.
  assert (W : is_word "H" = true) by reflexivity.
  split; [exact S |]. split; [exact W |].
  exact (proj2 generateSlug_shape " "%char "H"%char "ello  World!"%string S W).
Defined.

End SlugFacts.

(** ** Platforms by average score *)

Section PlatformFacts.
Import Calendar AnalyticsReports.
Open Scope Q_scope.

Lemma ScoreMap_set_keys (m : ScoreMap) (k : string) (v : list Q) :
  map fst (ScoreMap_set m k v) = note_keyword (map fst m) k.
Proof.
  unfold note_keyword. induction m as [| [k' v'] t IH]; simpl; [reflexivity |].
  rewrite (String.eqb_sym k k').
  destruct (String.eqb k' k); simpl; [reflexivity |].
  rewrite IH. now destruct (existsb (String.eqb k) (map fst t)).
Qed.

(** Replacing the array of a platform by that array with one more score
    adds one to the number of scores the map holds, and leaves no
    platform with an empty array. *)
Lemma ScoreMap_push (m : ScoreMap) (k : string) (x : Q) :
  let old := match ScoreMap_get m k with Some l => l | None => [] end in
  let m' := ScoreMap_set m k (old ++ [x]) in
  fold_right (fun e n => (List.length (snd e) + n)%nat) 0%nat m'
  = S (fold_right (fun e n => (List.length (snd e) + n)%nat) 0%nat m)
  /\ (Forall (fun e => snd e <> []) m -> Forall (fun e => snd e <> []) m').
Proof.
  cbv zeta. induction m as [| [k' v'] t [IHc IHn]]; simpl.
  - split; [reflexivity |]. intros _. repeat constructor. discriminate.
  - destruct (String.eqb k' k) eqn:E; simpl.
    + split.
      * rewrite length_app. simpl. lia.
      * intros F. inversion F; subst. constructor; [| assumption].
        simpl. intros X. apply app_eq_nil in X. destruct X as [_ X].
        discriminate X.
    + split.
      * rewrite IHc. lia.
      * intros F. inversion F; subst. constructor; [assumption | auto].
Qed.

Lemma add_platform_score_step (m : ScoreMap) (p : Post) :
  NoDup (map fst m) ->
  Forall (fun e => snd e <> []) m ->
  NoDup (map fst (add_platform_score m p))
  /\ Forall (fun e => snd e <> []) (add_platform_score m p)
  /\ fold_right (fun e n => (List.length (snd e) + n)%nat) 0%nat
                (add_platform_score m p)
     = (fold_right (fun e n => (List.length (snd e) + n)%nat) 0%nat m
        + (if has_platform p then 1 else 0))%nat.
Proof.
  intros N F. unfold add_platform_score, has_platform.
  destruct (platform p) as [pf |];
    [destruct (truthy pf) |]; try (repeat split; auto; lia).
  cbv zeta. destruct (ScoreMap_push m pf (score_of p)) as [C E].
  cbv zeta in C, E. split; [| split].
  - rewrite ScoreMap_set_keys. now apply note_keyword_NoDup.
  - now apply E.
  - etransitivity; [exact C |]. lia.
Qed.

Lemma platform_map_spec (posts : list Post) (m : ScoreMap) :
  NoDup (map fst m) ->
  Forall (fun e => snd e <> []) m ->
  NoDup (map fst (fold_left add_platform_score posts m))
  /\ Forall (fun e => snd e <> []) (fold_left add_platform_score posts m)
  /\ fold_right (fun e n => (List.length (snd e) + n)%nat) 0%nat
                (fold_left add_platform_score posts m)
     = (fold_right (fun e n => (List.length (snd e) + n)%nat) 0%nat m
        + List.length (filter has_platform posts))%nat.
Proof.
  revert m. induction posts as [| p t IH]; intros m N F.
  - simpl. repeat split; auto.
  - cbn [fold_left filter].
    destruct (add_platform_score_step m p N F) as (N1 & F1 & C1).
    destruct (IH _ N1 F1) as (N' & F' & C').
    split; [exact N' |]. split; [exact F' |].
    rewrite C', C1. destruct (has_platform p); cbn [List.length]; lia.
Qed.

(** The keys of the platform map are the platforms named, each once, in
    the order of first appearance. *)
Lemma platform_map_keys (posts : list Post) (m : ScoreMap) :
  map fst (fold_left add_platform_score posts m)
  = fold_left note_keyword (platforms_named posts) (map fst m).
Proof.
  revert m. induction posts as [| p t IH]; intros m; [reflexivity |].
  cbn [fold_left]. rewrite IH. unfold platforms_named. cbn [flat_map].
  rewrite fold_left_app. f_equal.
  unfold add_platform_score.
  destruct (platform p) as [pf |]; [| reflexivity].
  destruct (truthy pf); [| reflexivity].
  cbv zeta. now rewrite ScoreMap_set_keys.
Qed.

Lemma len_sum {A} (f : A -> list Q) (l : list A) :
  fold_right (fun e acc => len (f e) + acc) 0 l
  == inject_Z (Z.of_nat (fold_right (fun e n => (List.length (f e) + n)%nat)
                                    0%nat l)).
Proof.
  induction l as [| x t IH]; [reflexivity |].
  cbn [fold_right]. rewrite IH. unfold len.
  rewrite Nat2Z.inj_add, inject_Z_plus. reflexivity.
Qed.

(** X25. [identifyTopPlatforms] reports each platform the posts name
    once, in descending order of the average score, platforms of equal
    average in the order in which the posts first name them; every
    reported platform has at least one post, so no average divides by
    zero, and the numbers of posts reported add up to the number of posts
    that name a platform. *)
Theorem identifyTopPlatforms_report (posts : list Post) :
  NoDup (map report_platform (identifyTopPlatforms posts))
  /\ Forall (fun r => 1 <= totalPosts r) (identifyTopPlatforms posts)
  /\ fold_right (fun r acc => totalPosts r + acc) 0 (identifyTopPlatforms posts)
     == len (filter has_platform posts)
  /\ exists entries : list PlatformReport,
       Permutation (identifyTopPlatforms posts) entries
       /\ map report_platform entries
          = fold_left note_keyword (platforms_named posts) []
       /\ StronglySorted (ranks_by avgScore (before entries))
                         (identifyTopPlatforms posts).
Proof.
  unfold identifyTopPlatforms. cbv zeta.
  destruct (platform_map_spec posts [] ltac:(constructor) ltac:(constructor))
    as (N & F & C).
  cbv zeta in N, F, C.
  set (m := fold_left add_platform_score posts []) in *.
  set (entries :=
         map (fun entry =>
                {| report_platform := fst entry;
                   avgScore := fold_left Qplus (snd entry) 0 / len (snd entry);
                   totalPosts := len (snd entry) |}) m).
  pose proof (Array_sort_perm (fun a b => avgScore b - avgScore a) entries) as P.
  split; [| split; [| split]].
  - apply (Permutation_NoDup
             (Permutation_map report_platform (Permutation_sym P))).
    unfold entries. rewrite map_map. cbn [report_platform]. exact N.
  - apply Forall_forall. intros r I. apply (Permutation_in _ P) in I.
    unfold entries in I. apply in_map_iff in I. destruct I as (e & <- & I).
    cbn [totalPosts]. rewrite Forall_forall in F. specialize (F e I).
    unfold len. change 1 with (inject_Z 1). rewrite <- Zle_Qle.
    destruct e as [k [| x l]]; cbn [snd] in *; [exfalso; now apply F |].
    cbn [List.length]. lia.
  - assert (S : forall l l' : list PlatformReport,
               Permutation l l' ->
               fold_right (fun r acc => totalPosts r + acc) 0 l
               == fold_right (fun r acc => totalPosts r + acc) 0 l').
    { induction 1; cbn [fold_right]; try reflexivity.
      - now rewrite IHPermutation.
      - ring.
      - now rewrite IHPermutation1. }
    rewrite (S _ _ P). unfold entries.
    assert (E : forall l : ScoreMap,
               fold_right (fun r acc => totalPosts r + acc) 0
                 (map (fun entry =>
                         {| report_platform := fst entry;
                            avgScore := fold_left Qplus (snd entry) 0
                                        / len (snd entry);
                            totalPosts := len (snd entry) |}) l)
               == fold_right (fun e acc => len (snd e) + acc) 0 l).
    { induction l as [| e t IH]; [reflexivity |].
      cbn [map fold_right totalPosts]. now rewrite IH. }
    rewrite E, (len_sum snd m). unfold len.
    match goal with
    | |- inject_Z (Z.of_nat ?a) == inject_Z (Z.of_nat ?b) =>
        assert (X : a = b) by exact C; rewrite X; reflexivity
    end.
  - exists entries. split; [exact P |]. split; [| apply Array_sort_sorted_by].
    unfold entries. rewrite map_map. cbn [report_platform].
    exact (platform_map_keys posts []).
Qed.

End PlatformFacts.
